(** * gluon/contrib/webclient.py: the scriptable HTTP client of web2py

    A shallow embedding of [WebClient] and of the helpers its [post] method
    inlines, followed by the properties proved (or refuted) about them.

    Conventions of the embedding.
    - A Python [str] is the list of its Unicode code points ([N]); [bytes] is
      a list of [Byte.byte].
    - A Python [dict] is an association list in insertion order, with
      Python's update rule (assigning to a present key keeps its position).
    - [find] returns [Z], with [-1] for "not found", and slices normalise
      negative bounds the way Python does.
    - What the source delegates to Python's standard library (the opener,
      the codecs, the clock) is the class [Library]; the client and its
      properties are stated over any instance, and [served] is the instance
      the examples run on.
    - A call returns an [Outcome]: the system it leaves, the caller's
      [data] and [headers] objects as mutated, and the exception raised. *)

From Stdlib Require Import List NArith ZArith Bool Lia String Ascii.
Import ListNotations.
Open Scope Z_scope.

(* ------------------------------------------------------------------ *)
(** ** Python strings *)

Module Py.

Definition char := N.
Definition str := list char.

(** A literal: the code points of an ASCII string constant. *)
Definition lit (s : string) : str :=
  List.map N_of_ascii (list_ascii_of_string s).

Fixpoint str_eqb (a b : str) : bool :=
  match a, b with
  | [], [] => true
  | x :: a', y :: b' => N.eqb x y && str_eqb a' b'
  | _, _ => false
  end.

(** [bool(s)] for a string: non-empty. *)
Definition truthy (s : str) : bool :=
  match s with [] => false | _ => true end.

(** [s.find(c)] for a one-character [c]: the first index, or [-1]. *)
Fixpoint find_char (c : char) (s : str) : Z :=
  match s with
  | [] => -1
  | x :: s' =>
      if N.eqb x c then 0
      else let r := find_char c s' in if r <? 0 then -1 else r + 1
  end.

(** A slice bound [i] against a sequence of length [len]: negative bounds
    count from the end, and everything is clamped to [0 .. len]. *)
Definition slice_bound (len i : Z) : nat :=
  Z.to_nat (if i <? 0 then Z.max 0 (len + i) else Z.min i len).

(** [s[:i]] *)
Definition slice_to (s : str) (i : Z) : str :=
  firstn (slice_bound (Z.of_nat (List.length s)) i) s.

(** [s[i:]] *)
Definition slice_from (s : str) (i : Z) : str :=
  skipn (slice_bound (Z.of_nat (List.length s)) i) s.

(** [s.split(c)] with an explicit one-character separator. *)
Fixpoint split (c : char) (s : str) : list str :=
  match s with
  | [] => [[]]
  | x :: s' =>
      if N.eqb x c then [] :: split c s'
      else match split c s' with
           | [] => [[x]]
           | w :: ws => (x :: w) :: ws
           end
  end.

(** [c.isspace()] *)
Definition isspace (c : char) : bool :=
  ((9 <=? c) && (c <=? 13) || (28 <=? c) && (c <=? 32)
   || (c =? 133) || (c =? 160) || (c =? 5760)
   || (8192 <=? c) && (c <=? 8202)
   || (c =? 8232) || (c =? 8233) || (c =? 8239) || (c =? 8287)
   || (c =? 12288))%N.

Fixpoint lstrip (s : str) : str :=
  match s with
  | [] => []
  | c :: s' => if isspace c then lstrip s' else s
  end.

Definition rstrip (s : str) : str := rev (lstrip (rev s)).

(** [s.strip()] *)
Definition strip (s : str) : str := rstrip (lstrip s).

(** [sub in s] for strings: [sub] occurs as a contiguous run. *)
Fixpoint startswith (p s : str) : bool :=
  match p, s with
  | [], _ => true
  | x :: p', y :: s' => N.eqb x y && startswith p' s'
  | _ :: _, [] => false
  end.

Fixpoint contains (sub s : str) : bool :=
  startswith sub s ||
  match s with
  | [] => false
  | _ :: s' => contains sub s'
  end.

(** [c.lower()] on the code points a header name can hold (latin-1). *)
Definition lower_char (c : char) : char :=
  (if (65 <=? c) && (c <=? 90) then c + 32
   else if (192 <=? c) && (c <=? 222) && negb (c =? 215) then c + 32
   else c)%N.

Definition lower (s : str) : str := List.map lower_char s.

End Py.

Import Py.

(* ------------------------------------------------------------------ *)
(** ** Python dictionaries keyed by strings *)

Section Dict.
Variable V : Type.

Definition dict := list (str * V).

Fixpoint dict_get (k : str) (d : dict) : option V :=
  match d with
  | [] => None
  | (k', v) :: d' => if str_eqb k' k then Some v else dict_get k d'
  end.

(** [k in d] *)
Definition dict_mem (k : str) (d : dict) : bool :=
  match dict_get k d with Some _ => true | None => false end.

(** [d[k] = v] *)
Fixpoint dict_set (k : str) (v : V) (d : dict) : dict :=
  match d with
  | [] => [(k, v)]
  | (k', v') :: d' =>
      if str_eqb k' k then (k', v) :: d' else (k', v') :: dict_set k v d'
  end.

Definition dict_keys (d : dict) : list str := List.map fst d.
End Dict.

Arguments dict_get {V} k d.
Arguments dict_mem {V} k d.
Arguments dict_set {V} k v d.
Arguments dict_keys {V} d.

(* ------------------------------------------------------------------ *)
(** ** [_parse_headers_in_cookies] (lines 56-64) *)

Definition comma : char := 44%N.
Definition semicolon : char := 59%N.
Definition equals : char := 61%N.

(** The body of the loop: one comma-separated item to its name and value. *)
Definition parse_cookie_item (item : str) : str * str :=
  let cookie := slice_to item (find_char semicolon item) in
  let pos := find_char equals cookie in
  let key := slice_to cookie pos in
  let value := slice_from cookie (pos + 1) in
  (strip key, strip value).

(** [self.cookies] as the method leaves it, from [self.headers]. *)
Definition parse_headers_in_cookies (headers : dict str) : dict str :=
  match dict_get (lit "set-cookie") headers with
  | None => []
  | Some h =>
      fold_left (fun cookies item =>
                   let '(k, v) := parse_cookie_item item in
                   dict_set k v cookies)
                (split comma h) []
  end.

(** The rule as the specification words it: the prefix up to the first
    [;], cut at the first [=], both sides trimmed. *)
Fixpoint before (c : char) (s : str) : str :=
  match s with
  | [] => []
  | x :: s' => if N.eqb x c then [] else x :: before c s'
  end.

Fixpoint after (c : char) (s : str) : str :=
  match s with
  | [] => []
  | x :: s' => if N.eqb x c then s' else after c s'
  end.

Definition spec_cookie_item (item : str) : str * str :=
  let prefix := before semicolon item in
  (strip (before equals prefix), strip (after equals prefix)).

Definition spec_cookies (headers : dict str) : dict str :=
  match dict_get (lit "set-cookie") headers with
  | None => []
  | Some h =>
      fold_left (fun cookies item =>
                   let '(k, v) := spec_cookie_item item in
                   dict_set k v cookies)
                (split comma h) []
  end.

(* ------------------------------------------------------------------ *)
(** ** The two regular expressions (lines 30-34)

    Both patterns are fixed, so each is embedded as the matcher the
    backtracking engine runs for it. *)

(** [.] without DOTALL: any character but a newline. *)
Definition dot (c : char) : bool := negb (N.eqb c 10).

(** A literal at the head of the subject: what follows it. *)
Fixpoint eat (p s : str) : option str :=
  match p, s with
  | [], _ => Some s
  | x :: p', y :: s' => if N.eqb x y then eat p' s' else None
  | _ :: _, [] => None
  end.

(** [.+?] followed by the rest of the pattern [k]: the shortest non-empty
    run of [dot] characters after which [k] succeeds. *)
Fixpoint lazy_plus {R : Type} (k : str -> option R) (s : str)
  : option (str * R) :=
  match s with
  | [] => None
  | c :: s' =>
      if dot c then
        match k s' with
        | Some r => Some ([c], r)
        | None =>
            match lazy_plus k s' with
            | Some (g, r) => Some (c :: g, r)
            | None => None
            end
        end
      else None
  end.

(** [.+]: the longest run of [dot] characters. *)
Fixpoint greedy_dots (s : str) : str :=
  match s with
  | [] => []
  | c :: s' => if dot c then c :: greedy_dots s' else []
  end.

Definition quote_char : char := 34%N.

(** The literal that opens the [_formkey] input, up to and including the
    quote that opens its value. *)
Definition formkey_open : str :=
  lit "<input name=" ++ [quote_char] ++ lit "_formkey" ++ [quote_char]
  ++ lit " type=" ++ [quote_char] ++ lit "hidden" ++ [quote_char]
  ++ lit " value=" ++ [quote_char].

(** The literal that opens the [_formname] input, likewise. *)
Definition formname_open : str :=
  lit "<input name=" ++ [quote_char] ++ lit "_formname" ++ [quote_char]
  ++ lit " type=" ++ [quote_char] ++ lit "hidden" ++ [quote_char]
  ++ lit " value=" ++ [quote_char].

(** The literal that closes either input: a quote, a space, [/>]. *)
Definition input_close : str := [quote_char] ++ lit " />".

(** The mandatory half of [FORM_REGEX]: the [_formname] input. *)
Definition formname_part (s : str) : option (str * str) :=
  match eat formname_open s with
  | None => None
  | Some s1 => lazy_plus (eat input_close) s1
  end.

(** [FORM_REGEX] tried at the head of [s]: the groups [formkey] and
    [formname] and what follows the match. The optional group is tried
    first; the engine falls back to skipping it. *)
Definition FORM_REGEX (s : str) : option (option str * str * str) :=
  let with_key :=
    match eat formkey_open s with
    | None => None
    | Some s1 =>
        lazy_plus (fun s2 => match eat input_close s2 with
                             | None => None
                             | Some s3 => formname_part s3
                             end) s1
    end in
  match with_key with
  | Some (key, (name, rest)) => Some (Some key, name, rest)
  | None =>
      match formname_part s with
      | Some (name, rest) => Some (None, name, rest)
      | None => None
      end
  end.

(** [FORM_REGEX.finditer]: the non-overlapping matches from left to right;
    [skip] counts the characters of the current match still to pass. *)
Fixpoint finditer_from (skip : nat) (s : str) : list (option str * str) :=
  match s with
  | [] => []
  | _ :: s' =>
      match skip with
      | S n => finditer_from n s'
      | O =>
          match FORM_REGEX s with
          | Some (key, name, rest) =>
              (key, name)
                :: finditer_from (List.length s - List.length rest - 1) s'
          | None => finditer_from 0 s'
          end
      end
  end.

Definition finditer (s : str) : list (option str * str) := finditer_from 0 s.

(** Lines 203-205: [self.forms] rebuilt from the matches. *)
Definition scrape_forms (text : str) : dict (option str) :=
  fold_left (fun forms m => dict_set (snd m) (fst m) forms) (finditer text) [].

(** [re.compile(SESSION_REGEX).match]: the group [name] when the cookie
    name matches [session_id_(?P<name>.+)] at its start. *)
Definition SESSION_REGEX (cookie : str) : option str :=
  match eat (lit "session_id_") cookie with
  | None => None
  | Some s =>
      match greedy_dots s with
      | [] => None
      | name => Some name
      end
  end.

(* ------------------------------------------------------------------ *)
(** ** [urlencode(data, doseq=True)] and the UTF-8 encoding of the body *)

Definition bytes := list Byte.byte.

Definition byte_of (n : N) : Byte.byte :=
  match Byte.of_N n with Some b => b | None => Byte.x00 end.

(** One code point in UTF-8; [None] where [str.encode] raises (a lone
    surrogate). *)
Definition utf8_char (c : char) : option (list N) :=
  (if c <? 128 then Some [c]
   else if c <? 2048 then Some [192 + c / 64; 128 + c mod 64]
   else if c <? 65536 then
     if (55296 <=? c) && (c <? 57344) then None
     else Some [224 + c / 4096; 128 + (c / 64) mod 64; 128 + c mod 64]
   else if c <? 1114112 then
     Some [240 + c / 262144; 128 + (c / 4096) mod 64;
           128 + (c / 64) mod 64; 128 + c mod 64]
   else None)%N.

Fixpoint utf8 (s : str) : option (list N) :=
  match s with
  | [] => Some []
  | c :: s' =>
      match utf8_char c, utf8 s' with
      | Some bs, Some r => Some (bs ++ r)
      | _, _ => None
      end
  end.

(** [data.encode("utf8")] *)
Definition encode_utf8 (s : str) : option bytes :=
  option_map (List.map byte_of) (utf8 s).

Definition hex_digit (n : N) : char :=
  (if n <? 10 then 48 + n else 55 + n)%N.

(** The characters [quote_plus] leaves alone: letters, digits, [_.-~]. *)
Definition always_safe (b : N) : bool :=
  ((65 <=? b) && (b <=? 90) || (97 <=? b) && (b <=? 122)
   || (48 <=? b) && (b <=? 57)
   || (b =? 95) || (b =? 46) || (b =? 45) || (b =? 126))%N.

Definition quote_byte (b : N) : str :=
  (if always_safe b then [b]
   else if b =? 32 then [43]
   else [37; hex_digit (b / 16); hex_digit (b mod 16)])%N.

(** [quote_plus(s)]; [None] where the UTF-8 encoding raises. *)
Definition quote_plus (s : str) : option str :=
  option_map (fun bs => List.concat (List.map quote_byte bs)) (utf8 s).

(** A value of a form field: a string, [None] (what [forms] remembers for
    a form without a key), or a list of strings. *)
Inductive field :=
| FStr (s : str)
| FNone
| FList (l : list str).

Fixpoint sequence {A : Type} (l : list (option A)) : option (list A) :=
  match l with
  | [] => Some []
  | None :: _ => None
  | Some x :: l' => option_map (cons x) (sequence l')
  end.

(** The [name=value] parameters one entry of the mapping contributes. *)
Definition urlencode_entry (kv : str * field) : option (list str) :=
  match quote_plus (fst kv) with
  | None => None
  | Some k =>
      let pair v := option_map (fun q => k ++ [equals] ++ q) (quote_plus v) in
      match snd kv with
      | FStr s => sequence [pair s]
      | FNone => sequence [pair (lit "None")]
      | FList l => sequence (List.map pair l)
      end
  end.

Definition urlencode_params (d : dict field) : option (list str) :=
  option_map (@List.concat str) (sequence (List.map urlencode_entry d)).

(** [str(v)] for a value that is a string or [None]. *)
Definition scalar_text (f : field) : option str :=
  match f with
  | FStr v => Some v
  | FNone => Some (lit "None")
  | FList _ => None
  end.

Definition ampersand : char := 38%N.

Fixpoint join (sep : str) (l : list str) : str :=
  match l with
  | [] => []
  | [x] => x
  | x :: l' => x ++ sep ++ join sep l'
  end.

Definition urlencode (d : dict field) : option str :=
  option_map (join [ampersand]) (urlencode_params d).

(* ------------------------------------------------------------------ *)
(** ** The client *)

(** A header value: one value, or a sequence of values (a repeated
    header). *)
Inductive hvalue :=
| HOne (v : str)
| HMany (vs : list str).

(** The keyword arguments of [add_password]; an [auth] that is given is
    truthy. *)
Record Auth := {
  realm : str;
  uri : str;
  user : str;
  passwd : str
}.

(** The [data] argument of [post]: absent, a pre-encoded body, or a
    mapping of form fields. *)
Inductive Data :=
| DNone
| DStr (s : str)
| DDict (d : dict field).

(** What the opener hands back: the status [getcode()] reports, the header
    lines in order, and the bytes [read()] returns. *)
Record Response := {
  getcode : option Z;
  resp_headers : list (str * str);
  body : bytes
}.

(** What the client hands to the opener: the URL, the encoded body, the
    entries appended to [opener.addheaders], and the credentials of the
    basic-auth handler when one was installed. *)
Record Request := {
  rq_url : str;
  rq_data : option bytes;
  rq_headers : list (str * str);
  rq_auth : option Auth
}.

(** [self.text]: the raw bytes, or the decoded text. *)
Inductive Body :=
| Raw (b : bytes)
| Text (t : str).

(** The exceptions a call can end with.
    - [HTTPError]: the HTTP-status error of urllib, which is the response;
    - [RuntimeError]: the application fault reported by a web2py ticket;
    - [URLError]: any other failure of [opener.open];
    - [DecodeError]: [bytes.decode] raised, under the charset it was given;
    - [UnicodeEncodeError]: the body could not be encoded;
    - [TypeError]: an unhashable [_formname], or a text pattern run over
      bytes;
    - [AttributeError]: line 175 asks the headers of the response for
      [getparam], which the message class of Python 3 does not have. *)
Inductive exn :=
| HTTPError (r : Response)
| RuntimeError (msg : str)
| URLError (reason : str)
| DecodeError (charset : option str)
| UnicodeEncodeError
| TypeError
| AttributeError.

(** [bool(x)] for an optional string argument. *)
Definition opt_truthy (x : option str) : bool :=
  match x with Some s => truthy s | None => false end.

(** Lines 113-115: the default headers the caller's mapping lacks. *)
Definition merge_defaults (defaults hdrs : dict hvalue) : dict hvalue :=
  fold_left (fun h kv => if dict_mem (fst kv) h then h
                         else dict_set (fst kv) (snd kv) h)
            defaults hdrs.

(** Lines 116-121 *)
Definition headers_list_of (hdrs : dict hvalue) : list (str * str) :=
  flat_map (fun kv => match snd kv with
                      | HOne v => [(fst kv, v)]
                      | HMany vs => List.map (pair (fst kv)) vs
                      end) hdrs.

(** Lines 124-125: one [Cookie] entry per cookie. *)
Definition cookie_headers (cookies : dict str) : list (str * str) :=
  List.map (fun kv => (lit "Cookie", fst kv ++ [equals] ++ snd kv)) cookies.

(** The two field names the client knows. *)
Definition formname : str := lit "_formname".
Definition formkey : str := lit "_formkey".

Definition field_of_key (key : option str) : field :=
  match key with Some k => FStr k | None => FNone end.

(** Lines 139-150: the mapping after the two injections, and the
    [TypeError] of looking an unhashable [_formname] up in [forms]. The
    mapping is the caller's own object, so it keeps what was injected
    before the exception. *)
Definition inject_form (forms : dict (option str)) (d : dict field)
  : dict field * option exn :=
  let d1 :=
    if negb (dict_mem formname d) && Nat.eqb (List.length forms) 1
    then match dict_keys forms with
         | name :: _ => dict_set formname (FStr name) d
         | [] => d
         end
    else d in
  if dict_mem formname d1 && negb (dict_mem formkey d1)
  then match dict_get formname d1 with
       | Some (FStr n) =>
           match dict_get n forms with
           | Some key => (dict_set formkey (field_of_key key) d1, None)
           | None => (d1, None)
           end
       | Some (FList _) => (d1, Some TypeError)
       | _ => (d1, None)
       end
  else (d1, None).

(** Lines 178-180: [msg[h]] is the first header line whose name equals [h]
    up to case. *)
Fixpoint first_ci (name : str) (hs : list (str * str)) : option str :=
  match hs with
  | [] => None
  | (k, v) :: hs' =>
      if str_eqb (lower k) (lower name) then Some v else first_ci name hs'
  end.

Definition normalise_headers (hs : list (str * str)) : dict str :=
  fold_left (fun d h =>
               dict_set (lower (fst h))
                        (match first_ci (fst h) hs with
                         | Some v => v
                         | None => snd h
                         end) d)
            hs [].

(** Lines 193-199: one cookie against the session table; [out] is what
    [print] has written. *)
Definition changed_session_msg (name : str) : str :=
  lit "Changed session ID " ++ name.

Definition session_step (re : str -> option str)
  (acc : dict str * list str) (cv : str * str) : dict str * list str :=
  match re (fst cv) with
  | None => acc
  | Some name =>
      (dict_set name (snd cv) (fst acc),
       match dict_get name (fst acc) with
       | Some old =>
           if str_eqb old (snd cv) then snd acc
           else snd acc ++ [changed_session_msg name]
       | None => snd acc
       end)
  end.

(** What the step for a cookie that sets session [name] to [v] prints. *)
Definition rotation_notice (name v : str) (ss : dict str) : list str :=
  match dict_get name ss with
  | Some old => if str_eqb old v then [] else [changed_session_msg name]
  | None => []
  end.

(** Lines 192-199 *)
Definition check_sessions (regex : option (str -> option str))
  (cookies : dict str) (sessions : dict str) (out : list str)
  : dict str * list str :=
  match regex with
  | None => (sessions, out)
  | Some re => fold_left (session_step re) cookies (sessions, out)
  end.

(** [bool(data)] and ["_formname" in data] of lines 83-84. *)
Definition data_truthy (data : Data) : bool :=
  match data with
  | DNone => false
  | DStr s => truthy s
  | DDict d => match d with [] => false | _ => true end
  end.

Definition mentions_formname (data : Data) : bool :=
  match data with
  | DNone => false
  | DStr s => contains formname s
  | DDict d => dict_mem formname d
  end.

(** What the source delegates to Python's standard library. *)
Class Library := {
  (** Everything outside the client: the servers, the network, the cookie
      jar the opener keeps, the clock. *)
  World : Type;
  (** A duration, [time.time() - t0]. *)
  Elapsed : Type;
  (** [opener.open(url, data)] timed: the world after the exchange, the time
      it took, and the response or the exception raised. *)
  open_url : World -> Request -> World * Elapsed * (Response + exn);
  (** [bytes.decode(charset)]; [None] where it raises. *)
  decode : str -> bytes -> option str
}.

Section Client.
Context {lib : Library}.

(** An entry of [history]: method, URL, status, elapsed time. *)
Definition entry : Type := str * str * option Z * Elapsed.

Record WebClient := {
  app : str;
  postbacks : bool;
  forms : dict (option str);
  history : list entry;
  cookies : dict str;
  default_headers : dict hvalue;
  sessions : dict str;
  session_regex : option (str -> option str);
  headers : dict str;
  url : option str;
  method : option str;
  response : option Response;
  time : option Elapsed;
  status : option Z;
  text : option Body
}.

(** Assignments to the attributes the calls write. *)
Definition set_forms (v : dict (option str)) (c : WebClient) : WebClient :=
  Build_WebClient (app c) (postbacks c) v (history c) (cookies c)
    (default_headers c) (sessions c) (session_regex c) (headers c) (url c)
    (method c) (response c) (time c) (status c) (text c).

Definition set_history (v : list entry) (c : WebClient) : WebClient :=
  Build_WebClient (app c) (postbacks c) (forms c) v (cookies c)
    (default_headers c) (sessions c) (session_regex c) (headers c) (url c)
    (method c) (response c) (time c) (status c) (text c).

Definition set_cookies (v : dict str) (c : WebClient) : WebClient :=
  Build_WebClient (app c) (postbacks c) (forms c) (history c) v
    (default_headers c) (sessions c) (session_regex c) (headers c) (url c)
    (method c) (response c) (time c) (status c) (text c).

Definition set_sessions (v : dict str) (c : WebClient) : WebClient :=
  Build_WebClient (app c) (postbacks c) (forms c) (history c) (cookies c)
    (default_headers c) v (session_regex c) (headers c) (url c) (method c)
    (response c) (time c) (status c) (text c).

Definition set_headers (v : dict str) (c : WebClient) : WebClient :=
  Build_WebClient (app c) (postbacks c) (forms c) (history c) (cookies c)
    (default_headers c) (sessions c) (session_regex c) v (url c)
    (method c) (response c) (time c) (status c) (text c).

Definition set_url (v : option str) (c : WebClient) : WebClient :=
  Build_WebClient (app c) (postbacks c) (forms c) (history c) (cookies c)
    (default_headers c) (sessions c) (session_regex c) (headers c) v
    (method c) (response c) (time c) (status c) (text c).

Definition set_method (v : option str) (c : WebClient) : WebClient :=
  Build_WebClient (app c) (postbacks c) (forms c) (history c) (cookies c)
    (default_headers c) (sessions c) (session_regex c) (headers c) (url c)
    v (response c) (time c) (status c) (text c).

Definition set_response (v : option Response) (c : WebClient) : WebClient :=
  Build_WebClient (app c) (postbacks c) (forms c) (history c) (cookies c)
    (default_headers c) (sessions c) (session_regex c) (headers c) (url c)
    (method c) v (time c) (status c) (text c).

Definition set_time (v : option Elapsed) (c : WebClient) : WebClient :=
  Build_WebClient (app c) (postbacks c) (forms c) (history c) (cookies c)
    (default_headers c) (sessions c) (session_regex c) (headers c) (url c)
    (method c) (response c) v (status c) (text c).

Definition set_status (v : option Z) (c : WebClient) : WebClient :=
  Build_WebClient (app c) (postbacks c) (forms c) (history c) (cookies c)
    (default_headers c) (sessions c) (session_regex c) (headers c) (url c)
    (method c) (response c) (time c) v (text c).

Definition set_text (v : option Body) (c : WebClient) : WebClient :=
  Build_WebClient (app c) (postbacks c) (forms c) (history c) (cookies c)
    (default_headers c) (sessions c) (session_regex c) (headers c) (url c)
    (method c) (response c) (time c) (status c) v.

(** [WebClient(app, postbacks, default_headers, session_regex)], lines
    38-54; the pattern is passed compiled, [None] for no pattern. *)
Definition init (app_ : str) (postbacks_ : bool)
  (default_headers_ : dict hvalue)
  (session_regex_ : option (str -> option str)) : WebClient :=
  {| app := app_;
     postbacks := postbacks_;
     forms := [];
     history := [];
     cookies := [];
     default_headers := default_headers_;
     sessions := [];
     session_regex := session_regex_;
     headers := [];
     url := None;
     method := None;
     response := None;
     time := None;
     status := None;
     text := None |}.

(** The client, the world it talks to, and what it has printed. *)
Record Sys := {
  self : WebClient;
  world : World;
  stdout : list str
}.

Definition on_self (f : WebClient -> WebClient) (s : Sys) : Sys :=
  {| self := f (self s); world := world s; stdout := stdout s |}.

(** How a call ends: the system it leaves, the caller's [data] and
    [headers] objects as the call leaves them (both are mutated in place),
    and the exception raised, if any. *)
Record Outcome := {
  sys : Sys;
  caller_data : Data;
  caller_headers : option (dict hvalue);
  raised : option exn
}.

(** Lines 82-88: whether the form needs a postback first. *)
Definition needs_postback (data : Data) (c : WebClient) (full : str) : bool :=
  data_truthy data && mentions_formname data && postbacks c
  && match rev (history c) with
     | [] => false
     | (_, u, _, _) :: _ => negb (str_eqb u full)
     end.

(** Lines 134-156: the method recorded, the body to send and the caller's
    mapping after the injections; on the left, an exception raised on the
    way. *)
Definition encode_data (data : Data) (method_ : str) (c : WebClient)
  : str * Data * (exn + option str) :=
  let auto (dflt : str) :=
    if str_eqb method_ (lit "auto") then dflt else method_ in
  match data with
  | DStr sd => (auto (lit "POST"), data, inr (Some sd))
  | DDict d =>
      let '(d', e) := inject_form (forms c) d in
      (auto (lit "POST"), DDict d',
       match e with
       | Some ex => inl ex
       | None =>
           match urlencode d' with
           | Some b => inr (Some b)
           | None => inl UnicodeEncodeError
           end
       end)
  | DNone => (auto (lit "GET"), data, inr None)
  end.

(** Lines 172-176: [self.text], decoded when [charset] is truthy. For
    [auto], line 175 raises before anything is decoded: the headers of the
    response have no [getparam]. *)
Definition decode_body (charset : option str) (r : Response) : exn + Body :=
  match charset with
  | Some c =>
      if truthy c then
        if str_eqb c (lit "auto") then inl AttributeError
        else match decode c (body r) with
             | Some t => inr (Text t)
             | None => inl (DecodeError charset)
             end
      else inr (Raw (body r))
  | None => inr (Raw (body r))
  end.

(** Lines 204-205: [FORM_REGEX.finditer(self.text)] needs text. *)
Definition forms_of_body (b : Body) : exn + dict (option str) :=
  match b with
  | Text t => inr (scrape_forms t)
  | Raw _ => inl TypeError
  end.

(** Lines 159-208: from the response (and the HTTP error caught with it)
    and the time the exchange took to the history entry. *)
Definition receive (method_ full : str) (charset : option str)
  (r : Response) (dt : Elapsed) (error : option exn) (s : Sys)
  : Sys * option exn :=
  let s := on_self (set_response (Some r)) s in
  let s := on_self (set_time (Some dt)) s in
  let s := on_self (set_status (getcode r)) s in
  let s := on_self (set_text (Some (Raw (body r)))) s in
  match decode_body charset r with
  | inl ex => (s, Some ex)
  | inr txt =>
      let s := on_self (set_text (Some txt)) s in
      let hs := normalise_headers (resp_headers r) in
      let s := on_self (set_headers hs) s in
      match error with
      | Some er =>
          match dict_get (lit "web2py_error") hs with
          | Some msg => (s, Some (RuntimeError msg))
          | None => (s, Some er)
          end
      | None =>
          let cs := parse_headers_in_cookies hs in
          let s := on_self (set_cookies cs) s in
          let so := check_sessions (session_regex (self s)) cs
                                   (sessions (self s)) (stdout s) in
          let s := {| self := set_sessions (fst so) (self s);
                      world := world s;
                      stdout := snd so |} in
          let log s :=
            on_self (fun c => set_history
                                (history c ++ [(method_, full, getcode r, dt)])
                                c) s in
          if opt_truthy charset then
            let s := on_self (set_forms []) s in
            match forms_of_body txt with
            | inl ex => (s, Some ex)
            | inr fs => (log (on_self (set_forms fs) s), None)
            end
          else (log s, None)
      end
  end.

(** What lines 93-158 leave: the method recorded, the caller's two
    mappings after the merges and injections, and the request to send (or
    the exception that prevents it). *)
Record Prepared := {
  p_method : str;
  p_data : Data;
  p_headers : option (dict hvalue);
  p_request : exn + Request
}.

(** Lines 93-158 *)
Definition prepare (url_ : str) (data : Data) (cookies_ : option (dict str))
  (headers_ : option (dict hvalue)) (auth : option Auth) (method_ : str)
  (c : WebClient) : Prepared :=
  (* 94-97: recycle the cookies; [headers or {}] leaves an empty mapping of
     the caller alone and works on a fresh one *)
  let cookies1 := match cookies_ with
                  | None => cookies c
                  | Some cs => cs
                  end in
  let hdrs := merge_defaults (default_headers c)
                             (match headers_ with Some h => h | None => [] end) in
  (* 112-129 *)
  let headers_list := headers_list_of hdrs ++ cookie_headers cookies1 in
  (* 134-156 *)
  let '(m, data', enc) := encode_data data method_ c in
  {| p_method := m;
     p_data := data';
     p_headers := match headers_ with
                  | Some (_ :: _) => Some hdrs
                  | _ => headers_
                  end;
     p_request :=
       match enc with
       | inl ex => inl ex
       | inr body_ =>
           (* 158 *)
           match (match body_ with
                  | Some b => option_map Some (encode_utf8 b)
                  | None => Some None
                  end) with
           | None => inl UnicodeEncodeError
           | Some encoded =>
               inr {| rq_url := app c ++ url_; rq_data := encoded;
                      rq_headers := headers_list; rq_auth := auth |}
           end
       end |}.

(** Lines 93-208: one exchange, after the postback decision. *)
Definition exchange (url_ : str) (data : Data) (cookies_ : option (dict str))
  (headers_ : option (dict hvalue)) (auth : option Auth) (method_ : str)
  (charset : option str) (s : Sys) : Outcome :=
  let p := prepare url_ data cookies_ headers_ auth method_ (self s) in
  let s := on_self (set_method (Some (p_method p))) s in
  let finish (se : Sys * option exn) :=
    {| sys := fst se; caller_data := p_data p;
       caller_headers := p_headers p; raised := snd se |} in
  match p_request p with
  | inl ex => finish (s, Some ex)
  | inr rq =>
      (* 157-166 *)
      let '(w, dt, res) := open_url (world s) rq in
      let s := {| self := self s; world := w; stdout := stdout s |} in
      match res with
      | inl r => finish (receive (p_method p) (rq_url rq) charset r dt None s)
      | inr (HTTPError r) =>
          finish (receive (p_method p) (rq_url rq) charset r dt
                          (Some (HTTPError r)) s)
      | inr ex => finish (s, Some ex)
      end
  end.

(** Lines 79-91: [self.url] is set, and the form is primed by a [get] when
    it needs a postback. *)
Definition postback
  (get_ : str -> option (dict str) -> option (dict hvalue) -> option Auth
          -> Sys -> Outcome)
  (url_ : str) (data : Data) (cookies_ : option (dict str))
  (headers_ : option (dict hvalue)) (auth : option Auth) (s : Sys) : Outcome :=
  let full := app (self s) ++ url_ in
  let s := on_self (set_url (Some full)) s in
  if needs_postback data (self s) full then
    let o := get_ url_ cookies_ headers_ auth s in
    {| sys := sys o; caller_data := data;
       caller_headers := caller_headers o; raised := raised o |}
  else {| sys := s; caller_data := data;
          caller_headers := headers_; raised := None |}.

(** [post] (lines 69-208), over the [get] it calls on line 91. *)
Definition post_with
  (get_ : str -> option (dict str) -> option (dict hvalue) -> option Auth
          -> Sys -> Outcome)
  (url_ : str) (data : Data) (cookies_ : option (dict str))
  (headers_ : option (dict hvalue)) (auth : option Auth) (method_ : str)
  (charset : option str) (s : Sys) : Outcome :=
  let o := postback get_ url_ data cookies_ headers_ auth s in
  match raised o with
  | Some _ => o
  | None =>
      exchange url_ data cookies_ (caller_headers o) auth method_ charset
               (sys o)
  end.

Definition utf_8 : option str := Some (lit "utf-8").

(** [get] (lines 66-67): [auth] is accepted and not passed on. The [post]
    it calls is given no data, so the [get] inside that [post] is never
    reached, whatever stands for it here; [get_is_post] states the
    source's equation. *)
Definition get (url_ : str) (cookies_ : option (dict str))
  (headers_ : option (dict hvalue)) (auth : option Auth) (s : Sys) : Outcome :=
  post_with (fun _ _ h _ s' => {| sys := s'; caller_data := DNone;
                                   caller_headers := h; raised := None |})
            url_ DNone cookies_ headers_ None (lit "GET") utf_8 s.

Definition post := post_with get.

(** *** The vocabulary of the statements *)

(** How the postback phase of a call ends (lines 79-91). *)
Definition primed (url_ : str) (data : Data) (cookies_ : option (dict str))
  (headers_ : option (dict hvalue)) (auth : option Auth) (s : Sys) : Outcome :=
  postback get url_ data cookies_ headers_ auth s.

(** The call gets as far as its own request [rq]: the postback, when one is
    needed, raised nothing, and the body could be encoded. *)
Definition sends (url_ : str) (data : Data) (cookies_ : option (dict str))
  (headers_ : option (dict hvalue)) (auth : option Auth) (method_ : str)
  (s : Sys) (rq : Request) : Prop :=
  let o := primed url_ data cookies_ headers_ auth s in
  raised o = None
  /\ p_request (prepare url_ data cookies_ (caller_headers o) auth method_
                        (self (sys o))) = inr rq.

(** ... and the opener answers it with [res] after [dt], leaving the world
    [w]. *)
Definition answered (url_ : str) (data : Data) (cookies_ : option (dict str))
  (headers_ : option (dict hvalue)) (auth : option Auth) (method_ : str)
  (s : Sys) (rq : Request) (w : World) (dt : Elapsed) (res : Response + exn)
  : Prop :=
  sends url_ data cookies_ headers_ auth method_ s rq
  /\ open_url (world (sys (primed url_ data cookies_ headers_ auth s))) rq
     = (w, dt, res).

(** The system when the answer arrives. *)
Definition arrival (url_ : str) (data : Data) (cookies_ : option (dict str))
  (headers_ : option (dict hvalue)) (auth : option Auth) (method_ : str)
  (s : Sys) (w : World) : Sys :=
  let o := primed url_ data cookies_ headers_ auth s in
  {| self := set_method
               (Some (p_method (prepare url_ data cookies_ (caller_headers o)
                                        auth method_ (self (sys o)))))
               (self (sys o));
     world := w;
     stdout := stdout (sys o) |}.

(** The forms a completed exchange leaves, from the forms before it. *)
Definition forms_after (charset : option str) (txt : Body)
  (old : dict (option str)) : dict (option str) :=
  if opt_truthy charset
  then match txt with Text t => scrape_forms t | Raw _ => old end
  else old.

(** The configuration of a client: what the constructor fixes. *)
Definition same_config (c1 c2 : WebClient) : Prop :=
  app c1 = app c2 /\ postbacks c1 = postbacks c2
  /\ default_headers c1 = default_headers c2
  /\ session_regex c1 = session_regex c2.

Definition url_of (e : entry) : str := snd (fst (fst e)).
Definition method_of (e : entry) : str := fst (fst (fst e)).

(** The postback condition as the specification words it: [data] is a
    mapping with the key [_formname], postbacks are enabled, the history is
    not empty and its last URL is not this one. *)
Definition spec_needs_postback (data : Data) (c : WebClient) (full : str)
  : bool :=
  match data with
  | DDict d => dict_mem formname d
  | _ => false
  end
  && postbacks c
  && match rev (history c) with
     | [] => false
     | e :: _ => negb (str_eqb (url_of e) full)
     end.

End Client.

(* ------------------------------------------------------------------ *)
(** ** A concrete world, for running the client

    The theorems below hold for every opener and codec table. To run the
    client on examples, the world here is a server
    function with a request counter; the exchange number serves as the
    elapsed time. The codec table knows [utf-8], [latin-1] and [ascii]. *)

Definition continuation (b : N) : bool := ((128 <=? b) && (b <=? 191))%N.

(** Strict UTF-8, as [bytes.decode] reads it: no overlong forms, no
    surrogates, nothing above U+10FFFF. *)
Fixpoint utf8_decode (bs : list N) : option str :=
  (match bs with
   | [] => Some []
   | b0 :: r0 =>
       if b0 <? 128 then option_map (cons b0) (utf8_decode r0)
       else if (194 <=? b0) && (b0 <=? 223) then
         match r0 with
         | b1 :: r1 =>
             if continuation b1
             then option_map (cons ((b0 - 192) * 64 + (b1 - 128)))
                             (utf8_decode r1)
             else None
         | _ => None
         end
       else if (224 <=? b0) && (b0 <=? 239) then
         match r0 with
         | b1 :: b2 :: r2 =>
             if continuation b1 && continuation b2
                && (if b0 =? 224 then 160 <=? b1 else true)
                && (if b0 =? 237 then b1 <=? 159 else true)
             then option_map
                    (cons ((b0 - 224) * 4096 + (b1 - 128) * 64 + (b2 - 128)))
                    (utf8_decode r2)
             else None
         | _ => None
         end
       else if (240 <=? b0) && (b0 <=? 244) then
         match r0 with
         | b1 :: b2 :: b3 :: r3 =>
             if continuation b1 && continuation b2 && continuation b3
                && (if b0 =? 240 then 144 <=? b1 else true)
                && (if b0 =? 244 then b1 <=? 143 else true)
             then option_map
                    (cons ((b0 - 240) * 262144 + (b1 - 128) * 4096
                           + (b2 - 128) * 64 + (b3 - 128)))
                    (utf8_decode r3)
             else None
         | _ => None
         end
       else None
   end)%N.

Definition codec (charset : str) (b : bytes) : option str :=
  let ns := List.map Byte.to_N b in
  if str_eqb charset (lit "utf-8") then utf8_decode ns
  else if str_eqb charset (lit "latin-1") then Some ns
  else if str_eqb charset (lit "ascii") then
    if forallb (fun n => N.ltb n 128) ns then Some ns else None
  else None.

(** The opener over a server: the world counts the exchanges, and the
    server sees how many came before. *)
Definition serve (server : nat -> Request -> Response + exn) (n : nat)
  (rq : Request) : nat * nat * (Response + exn) :=
  (S n, n, server n rq).

(** The library over a server. *)
Definition served (server : nat -> Request -> Response + exn) : Library :=
  {| World := nat;
     Elapsed := nat;
     open_url := serve server;
     decode := codec |}.

Definition DEFAULT_HEADERS : dict hvalue :=
  [(lit "user-agent", HOne (lit "Mozilla/4.0"));
   (lit "accept-language", HOne (lit "en"))].

(** [WebClient(app)] with the defaults of the constructor, in a world
    where nothing has been exchanged or printed yet. *)
Definition start (server : nat -> Request -> Response + exn) (app_ : str)
  : @Sys (served server) :=
  {| self := init app_ true DEFAULT_HEADERS (Some SESSION_REGEX);
     world := O : @World (served server);
     stdout := [] |}.

(** *** Pages and servers of the examples *)

(** A page with the form [register] and its key [K1]. *)
Definition register_page : str :=
  lit "<html>" ++ formkey_open ++ lit "K1" ++ input_close
  ++ formname_open ++ lit "register" ++ input_close ++ lit "</html>".

Definition html_headers (session : string) : list (str * str) :=
  [(lit "Content-Type", lit "text/html; charset=utf-8");
   (lit "Set-Cookie", lit "session_id_welcome=" ++ lit session ++ lit "; Path=/")].

Definition ok_page (session : string) : Response :=
  {| getcode := Some 200;
     resp_headers := html_headers session;
     body := List.map byte_of register_page |}.

(** Every request gets the page, in session [abc]. *)
Definition welcome (n : nat) (rq : Request) : Response + exn :=
  inl (ok_page "abc").

(** The session changes with the second exchange. *)
Definition rotating (n : nat) (rq : Request) : Response + exn :=
  inl (ok_page (match n with O => "abc" | _ => "xyz" end)).

(** A ticket: status 500 with the marker header. *)
Definition ticket (payload : bytes) : Response :=
  {| getcode := Some 500;
     resp_headers := [(lit "Content-Type", lit "text/html; charset=utf-8");
                      (lit "web2py_error", lit "ticket welcome/1")];
     body := payload |}.

Definition failing (n : nat) (rq : Request) : Response + exn :=
  inr (HTTPError (ticket (List.map byte_of (lit "Internal error")))).

(** The same ticket with a body that is not UTF-8. *)
Definition garbled (n : nat) (rq : Request) : Response + exn :=
  inr (HTTPError (ticket [Byte.xff])).

(** A page whose content type declares no charset. *)
Definition undeclared_page : Response :=
  {| getcode := Some 200;
     resp_headers := [(lit "Content-Type", lit "text/html")];
     body := List.map byte_of register_page |}.

Definition undeclared (n : nat) (rq : Request) : Response + exn :=
  inl undeclared_page.

(** A server behind basic auth: 401 without credentials. *)
Definition unauthorized : Response :=
  {| getcode := Some 401;
     resp_headers := [(lit "WWW-Authenticate", lit "Basic realm=web2py")];
     body := [] |}.

Definition guarded (n : nat) (rq : Request) : Response + exn :=
  match rq_auth rq with
  | Some _ => inl (ok_page "abc")
  | None => inr (HTTPError unauthorized)
  end.

Definition homer : Auth :=
  {| realm := lit "web2py"; uri := lit "http://host/app/";
     user := lit "homer"; passwd := lit "test" |}.

Definition base : str := lit "http://host/app/".

(** [client.get("page")] on a fresh client of [welcome]. *)
Definition after_index : @Sys (served welcome) :=
  sys (get (lit "page") None None None (start welcome base)).

Definition register_data : dict field :=
  [(formname, FStr (lit "register")); (lit "email", FStr (lit "a@b.com"))].

(** *** The calls of the examples *)

(** A pre-encoded body that names a form. *)
Definition login_body : str := lit "_formname=login&email=homer%40web2py.com".

(** [client.post("submit", data=register_data)] after the first page. *)
Definition submit_register : @Outcome (served welcome) :=
  post (lit "submit") (DDict register_data) None None None (lit "auto") utf_8
       after_index.

(** [client.post("submit", data=login_body)] after the first page. *)
Definition submit_encoded : @Outcome (served welcome) :=
  post (lit "submit") (DStr login_body) None None None (lit "auto") utf_8
       after_index.

(** The request of a first [get("page")]. *)
Definition page_request : Request :=
  {| rq_url := base ++ lit "page";
     rq_data := None;
     rq_headers := [(lit "user-agent", lit "Mozilla/4.0");
                    (lit "accept-language", lit "en")];
     rq_auth := None |}.

(** The request [submit_register] makes once the form is primed. *)
Definition register_request : Request :=
  {| rq_url := base ++ lit "submit";
     rq_data := Some (List.map byte_of
                        (lit "_formname=register&email=a%40b.com&_formkey=K1"));
     rq_headers := [(lit "user-agent", lit "Mozilla/4.0");
                    (lit "accept-language", lit "en");
                    (lit "Cookie", lit "session_id_welcome=abc")];
     rq_auth := None |}.

(** [client.post("page", charset=None)] after the first page. *)
Definition reload_raw : @Outcome (served welcome) :=
  post (lit "page") DNone None None None (lit "auto") None after_index.

Definition session_cookie : str := lit "session_id_welcome".

(** [client.get("page")] on a fresh client of [rotating]. *)
Definition first_visit : @Sys (served rotating) :=
  sys (get (lit "page") None None None (start rotating base)).

(** The request of the second visit: the cookie of the first is recycled. *)
Definition second_request : Request :=
  {| rq_url := base ++ lit "page";
     rq_data := None;
     rq_headers := [(lit "user-agent", lit "Mozilla/4.0");
                    (lit "accept-language", lit "en");
                    (lit "Cookie", lit "session_id_welcome=abc")];
     rq_auth := None |}.

Definition second_visit : @Outcome (served rotating) :=
  post (lit "page") DNone None None None (lit "GET") utf_8 first_visit.

(** A non-empty [headers] argument. *)
Definition extra_headers : dict hvalue := [(lit "x-test", HOne (lit "1"))].

(* ------------------------------------------------------------------ *)
(** ** Further vocabulary and examples *)

(** [self.method] as line 135, 137 or 155 sets it. *)
Definition recorded_method (data : Data) (method_ : str) : str :=
  if str_eqb method_ (lit "auto")
  then match data with DNone => lit "GET" | _ => lit "POST" end
  else method_.

(** Whether some header line is named [name], up to case. *)
Definition has_header (name : str) (hs : list (str * str)) : bool :=
  existsb (fun h => str_eqb (lower (fst h)) (lower name)) hs.

(** The characters of a form-encoded body: the ones [quote_plus] leaves
    alone, and [%], [+], [=], [&]. *)
Definition form_safe (c : char) : bool :=
  (always_safe c || (c =? 37) || (c =? 43) || (c =? 61) || (c =? 38))%N.

(** The hidden inputs of a form as [FORM_REGEX] reads them: the [_formkey]
    input, when there is one, right before the [_formname] input. *)
Definition hidden_inputs (key : option str) (name : str) : str :=
  match key with
  | Some k => formkey_open ++ k ++ input_close
  | None => []
  end ++ formname_open ++ name ++ input_close.

(** What both inputs start with. *)
Definition input_open : str := lit "<input name=".

(** A character of an attribute value: no newline, no double quote. *)
Definition plain (c : char) : bool := dot c && negb (N.eqb c quote_char).

(** A line of the output that is the notice of line 198. *)
Definition is_notice (line : str) : Prop :=
  exists name, line = changed_session_msg name.

(** *** [test_web2py_registration_and_login] (lines 211-238) *)

(** How the script ends, up to its assertion: an exception of one of its
    calls, the assertion failing, or the assertion passing. [NoText] stands
    for a [client.text] that is not there to search. *)
Inductive script_end :=
| Raised (e : exn)
| AssertionError
| NoText
| Checked.

Definition script_app : str := lit "http://127.0.0.1:8000/welcome/default/".

Definition script_register : dict field :=
  [(lit "first_name", FStr (lit "Homer"));
   (lit "last_name", FStr (lit "Simpson"));
   (lit "email", FStr (lit "homer@web2py.com"));
   (lit "password", FStr (lit "test"));
   (lit "password_two", FStr (lit "test"));
   (lit "_formname", FStr (lit "register"))].

Definition script_login : dict field :=
  [(lit "email", FStr (lit "homer@web2py.com"));
   (lit "password", FStr (lit "test"));
   (lit "_formname", FStr (lit "login"))].

Section ClientVocabulary.
Context {lib : Library}.

(** An entry of the history without its method. *)
Definition sans_method_entry (e : entry) : entry :=
  ([], url_of e, snd (fst e), snd e).

(** A client with [self.method] and the methods of the history erased. *)
Definition sans_method_client (c : WebClient) : WebClient :=
  set_history (List.map sans_method_entry (history c)) (set_method None c).

Definition sans_method_sys (s : Sys) : Sys :=
  on_self sans_method_client s.

(** An outcome with every trace of the methods erased. *)
Definition sans_method (o : Outcome) : Outcome :=
  {| sys := sans_method_sys (sys o);
     caller_data := caller_data o;
     caller_headers := caller_headers o;
     raised := raised o |}.

(** The session table has kept its names, and the output its lines; what
    was added to the output are notices. *)
Definition only_adds (s s' : Sys) : Prop :=
  (forall name, dict_mem name (sessions (self s)) = true ->
                dict_mem name (sessions (self s')) = true)
  /\ exists more, stdout s' = stdout s ++ more /\ Forall is_notice more.

(** Without a session pattern, the table and the output are as they
    were. *)
Definition quiet (s s' : Sys) : Prop :=
  session_regex (self s) = None ->
  session_regex (self s') = None
  /\ sessions (self s') = sessions (self s)
  /\ stdout s' = stdout s.

(** A statement of the script: the call, and the rest unless it raises. *)
Definition and_then (o : Outcome) (k : Sys -> Sys * script_end)
  : Sys * script_end :=
  match raised o with
  | Some e => (sys o, Raised e)
  | None => k (sys o)
  end.

(** Lines 215-238, in a world [w] where nothing has been printed. The
    assertion searches [client.text]: a string in decoded text; searching
    bytes for a string raises [TypeError]. *)
Definition test_web2py_registration_and_login (w : World) : Sys * script_end :=
  let client := init script_app true DEFAULT_HEADERS (Some SESSION_REGEX) in
  let s := {| self := client; world := w; stdout := [] |} in
  and_then (get (lit "index") None None None s) (fun s =>
  and_then (post (lit "user/register") (DDict script_register) None None None
                 (lit "auto") utf_8 s) (fun s =>
  and_then (get (lit "user/logout") None None None s) (fun s =>
  and_then (post (lit "user/login") (DDict script_login) None None None
                 (lit "auto") utf_8 s) (fun s =>
  and_then (get (lit "user/profile") None None None s) (fun s =>
  match text (self s) with
  | Some (Text t) =>
      if contains (lit "Welcome Homer") t then (s, Checked)
      else (s, AssertionError)
  | Some (Raw _) => (s, Raised TypeError)
  | None => (s, NoText)
  end))))).

(** The methods and URLs of the history, in order. *)
Definition trace (c : WebClient) : list (str * str) :=
  List.map (fun e => (method_of e, url_of e)) (history c).

(** The postback condition of lines 82-88, from the trace. *)
Definition primes (postbacks_ : bool) (t : list (str * str)) (data : Data)
  (full : str) : bool :=
  data_truthy data && mentions_formname data && postbacks_
  && match rev t with
     | [] => false
     | (_, u) :: _ => negb (str_eqb u full)
     end.

End ClientVocabulary.

(** *** Further servers *)

(** A page with the form [register] under the key [key]. *)
Definition keyed_page (key : string) : Response :=
  {| getcode := Some 200;
     resp_headers := html_headers "abc";
     body := List.map byte_of
               (lit "<html>" ++ formkey_open ++ lit key ++ input_close
                ++ formname_open ++ lit "register" ++ input_close
                ++ lit "</html>") |}.

(** The form gets a new key with every exchange after the first. *)
Definition rekeying (n : nat) (rq : Request) : Response + exn :=
  inl (keyed_page (match n with O => "K1" | _ => "K2" end)).

(** A page without a form. *)
Definition plain_page : Response :=
  {| getcode := Some 200;
     resp_headers := html_headers "abc";
     body := List.map byte_of (lit "<html></html>") |}.

(** The form is on the first page only. *)
Definition forgetful (n : nat) (rq : Request) : Response + exn :=
  inl (match n with O => keyed_page "K1" | _ => plain_page end).

(** The request of [post("submit", register_data)] with the body [b]. *)
Definition submit_request (b : string) : Request :=
  {| rq_url := base ++ lit "submit";
     rq_data := Some (List.map byte_of (lit b));
     rq_headers := [(lit "user-agent", lit "Mozilla/4.0");
                    (lit "accept-language", lit "en");
                    (lit "Cookie", lit "session_id_welcome=abc")];
     rq_auth := None |}.

(** A header with a list of values. *)
Definition accept_headers : dict hvalue :=
  [(lit "accept", HMany [lit "text/html"; lit "text/plain"])].

(** The request of [submit_register] under [accept_headers]. *)
Definition accept_request : Request :=
  {| rq_url := base ++ lit "submit";
     rq_data := rq_data register_request;
     rq_headers := [(lit "accept", lit "text/html");
                    (lit "accept", lit "text/plain");
                    (lit "user-agent", lit "Mozilla/4.0");
                    (lit "accept-language", lit "en");
                    (lit "Cookie", lit "session_id_welcome=abc")];
     rq_auth := None |}.


(** A server that cannot be reached. *)
Definition unreachable (n : nat) (rq : Request) : Response + exn :=
  inr (URLError (lit "Connection refused")).

(** A site that greets Homer on every page. *)
Definition homer_page : Response :=
  {| getcode := Some 200;
     resp_headers := html_headers "abc";
     body := List.map byte_of (lit "<html>Welcome Homer</html>") |}.

Definition homer_site (n : nat) (rq : Request) : Response + exn :=
  inl homer_page.

(* ================================================================== *)
(** * Properties *)

(** The answers of the opener, case by case: a response, the HTTP error
    that is caught, or one of the exceptions that pass through. *)
Ltac by_answer res := destruct res as [?r|[?r|?m|?m|?cs| | |]].

(** A closed call of the concrete client, run. *)
Ltac run := vm_compute; reflexivity.

(* ------------------------------------------------------------------ *)
(** ** Strings and dictionaries *)

Lemma str_eqb_refl (a : str) : str_eqb a a = true.
Proof.
  induction a as [|x a IH]; simpl; [reflexivity|].
  now rewrite N.eqb_refl, IH.
Qed.

Lemma str_eqb_eq (a b : str) : str_eqb a b = true <-> a = b.
Proof.
  split.
  - revert b. induction a as [|x a IH]; intros [|y b] H; simpl in H;
      try discriminate; [reflexivity|].
    apply andb_true_iff in H. destruct H as [Hx Hab].
    apply N.eqb_eq in Hx. subst y. f_equal. now apply IH.
  - intros ->. apply str_eqb_refl.
Qed.

Lemma str_eqb_neq (a b : str) : str_eqb a b = false <-> a <> b.
Proof.
  rewrite <- str_eqb_eq. destruct (str_eqb a b); intuition congruence.
Qed.

Section DictFacts.
Variable V : Type.
Implicit Types (d : dict V) (k : str) (v : V).

Lemma dict_get_set_same k v d : dict_get k (dict_set k v d) = Some v.
Proof.
  induction d as [|[k' v'] d IH]; simpl.
  - now rewrite str_eqb_refl.
  - destruct (str_eqb k' k) eqn:E; simpl; rewrite E; auto.
Qed.

Lemma dict_get_set_other k k' v d :
  k <> k' -> dict_get k' (dict_set k v d) = dict_get k' d.
Proof.
  intros Hne. induction d as [|[k0 v0] d IH]; simpl.
  - apply str_eqb_neq in Hne. now rewrite Hne.
  - destruct (str_eqb k0 k) eqn:E; simpl.
    + apply str_eqb_eq in E. subst k0.
      apply str_eqb_neq in Hne. now rewrite Hne.
    + destruct (str_eqb k0 k'); auto.
Qed.

Lemma dict_mem_set_same k v d : dict_mem k (dict_set k v d) = true.
Proof. unfold dict_mem. now rewrite dict_get_set_same. Qed.

Lemma dict_mem_set_mono k k' v d :
  dict_mem k' d = true -> dict_mem k' (dict_set k v d) = true.
Proof.
  unfold dict_mem. destruct (str_eqb k k') eqn:E.
  - apply str_eqb_eq in E. subst. now rewrite dict_get_set_same.
  - apply str_eqb_neq in E. now rewrite dict_get_set_other.
Qed.

Lemma dict_get_In k v d : dict_get k d = Some v -> In (k, v) d.
Proof.
  induction d as [|[k' v'] d IH]; simpl; [discriminate|].
  destruct (str_eqb k' k) eqn:E.
  - apply str_eqb_eq in E. intros [= ->]. subst. now left.
  - intros H. right. now apply IH.
Qed.

End DictFacts.

(** ** [find] and slices *)

Lemma find_char_absent (c : char) (s : str) :
  ~ In c s -> find_char c s = -1.
Proof.
  induction s as [|x s IH]; simpl; intros H; [reflexivity|].
  destruct (N.eqb x c) eqn:E.
  - apply N.eqb_eq in E. tauto.
  - rewrite IH by tauto. reflexivity.
Qed.

Lemma find_char_first (c : char) (a b : str) :
  ~ In c a -> find_char c (a ++ c :: b) = Z.of_nat (List.length a).
Proof.
  induction a as [|x a IH]; simpl; intros H.
  - now rewrite N.eqb_refl.
  - destruct (N.eqb x c) eqn:E.
    + apply N.eqb_eq in E. tauto.
    + rewrite IH by tauto.
      destruct (Z.of_nat (List.length a) <? 0) eqn:L; [apply Z.ltb_lt in L|]; lia.
Qed.

(** The slices the parser takes. *)
Lemma slice_to_minus_one (s : str) : slice_to s (-1) = removelast s.
Proof.
  unfold slice_to, slice_bound. simpl.
  rewrite removelast_firstn_len. f_equal. lia.
Qed.

Lemma slice_to_prefix (a b : str) :
  slice_to (a ++ b) (Z.of_nat (List.length a)) = a.
Proof.
  unfold slice_to, slice_bound.
  destruct (Z.of_nat (List.length a) <? 0) eqn:L; [apply Z.ltb_lt in L; lia|].
  rewrite length_app, Z.min_l by lia. rewrite Nat2Z.id.
  rewrite firstn_app, firstn_all, Nat.sub_diag. simpl. apply app_nil_r.
Qed.

Lemma slice_from_suffix (a b : str) :
  slice_from (a ++ b) (Z.of_nat (List.length a)) = b.
Proof.
  unfold slice_from, slice_bound.
  destruct (Z.of_nat (List.length a) <? 0) eqn:L; [apply Z.ltb_lt in L; lia|].
  rewrite length_app, Z.min_l by lia. rewrite Nat2Z.id.
  rewrite skipn_app, skipn_all, Nat.sub_diag. reflexivity.
Qed.

(* ------------------------------------------------------------------ *)
(** ** The cookie parser *)

Lemma before_not_in (c : char) (s : str) : ~ In c (before c s).
Proof.
  induction s as [|x s IH]; simpl; [tauto|].
  destruct (N.eqb x c) eqn:E; simpl; [tauto|].
  apply N.eqb_neq in E. intros [H|H]; [congruence | tauto].
Qed.

Lemma before_after (c : char) (s : str) :
  In c s -> s = before c s ++ c :: after c s.
Proof.
  induction s as [|x s IH]; simpl; [tauto|].
  destruct (N.eqb x c) eqn:E.
  - apply N.eqb_eq in E. now subst.
  - apply N.eqb_neq in E. intros [H|H]; [congruence|].
    simpl. f_equal. now apply IH.
Qed.



(** The loop body on an item whose first [;] and first [=] are where the
    rule expects them. *)
Lemma parse_cookie_item_cut (k v rest : str) :
  ~ In semicolon (k ++ equals :: v) -> ~ In equals k ->
  parse_cookie_item ((k ++ equals :: v) ++ semicolon :: rest)
  = (strip k, strip v).
Proof.
  intros Hs He. unfold parse_cookie_item. cbv zeta.
  rewrite find_char_first by assumption. rewrite slice_to_prefix.
  rewrite find_char_first by assumption. rewrite slice_to_prefix.
  replace (Z.of_nat (List.length k) + 1)
    with (Z.of_nat (List.length (k ++ [equals])))
    by (rewrite length_app; simpl; lia).
  change (k ++ equals :: v) with (k ++ [equals] ++ v).
  rewrite app_assoc, slice_from_suffix. reflexivity.
Qed.



(** The rule and the code agree on every item that has a [;] and whose
    prefix before it has an [=]. *)
Lemma parse_cookie_item_rule (item : str) :
  In semicolon item -> In equals (before semicolon item) ->
  parse_cookie_item item = spec_cookie_item item.
Proof.
  intros Hs He. unfold spec_cookie_item.
  pose proof (before_after semicolon item Hs) as Hi.
  pose proof (before_after equals _ He) as Hp.
  set (p := before semicolon item) in *.
  rewrite Hi at 1. rewrite Hp at 1.
  apply parse_cookie_item_cut.
  - rewrite <- Hp. apply before_not_in.
  - apply before_not_in.
Qed.

(** On a [Set-Cookie] header all of whose comma-separated items hold a
    [;] with an [=] before it, the cookie map is the one the rule gives:
    the prefix up to the first [;], cut at the first [=], both sides
    trimmed, later items overwriting earlier ones of the same name. *)
Theorem parse_cookies_rule (hs : dict str) :
  (forall h, dict_get (lit "set-cookie") hs = Some h ->
             Forall (fun item => In semicolon item
                                 /\ In equals (before semicolon item))
                    (split comma h)) ->
  parse_headers_in_cookies hs = spec_cookies hs.
Proof.
  unfold parse_headers_in_cookies, spec_cookies.
  destruct (dict_get (lit "set-cookie") hs) as [h|]; [|reflexivity].
  intros H. specialize (H h eq_refl). generalize (@nil (str * str)).
  induction H as [|item items [Hs He] _ IH]; intros acc; cbn [fold_left];
    [reflexivity|].
  rewrite parse_cookie_item_rule by assumption. apply IH.
Qed.

(** The rule and the code on a header whose items all have attributes. *)
Lemma parse_cookies_rule_witness :
  parse_headers_in_cookies
    [(lit "set-cookie", lit "a=1; Path=/, b=2; HttpOnly")]
  = spec_cookies [(lit "set-cookie", lit "a=1; Path=/, b=2; HttpOnly")]
  /\ spec_cookies [(lit "set-cookie", lit "a=1; Path=/, b=2; HttpOnly")]
     = [(lit "a", lit "1"); (lit "b", lit "2")].
Proof.
  split; [|run].
  apply parse_cookies_rule. intros h [= <-].
  vm_compute.
  repeat first [ apply Forall_nil | apply Forall_cons | split
               | left; reflexivity | right ].
Defined.

(** C2, at the input where the code leaves the rule: for the header
    [a=1; Path=/, k=v] the rule (prefix up to the first [;], cut at the
    first [=], trimmed) gives [a -> 1] and [k -> v]; the code gives [k] the
    empty value, because the last item has no [;]. *)
Theorem cookie_rule_misses_last_item :
  parse_headers_in_cookies [(lit "set-cookie", lit "a=1; Path=/, k=v")]
  = [(lit "a", lit "1"); (lit "k", lit "")]
  /\ spec_cookies [(lit "set-cookie", lit "a=1; Path=/, k=v")]
     = [(lit "a", lit "1"); (lit "k", lit "v")].
Proof. split; run. Qed.

(* ------------------------------------------------------------------ *)
(** ** The session table *)

Lemma check_sessions_app (re : str -> option str) (a b : dict str)
  (ss : dict str) (out : list str) :
  check_sessions (Some re) (a ++ b) ss out
  = check_sessions (Some re) b
      (fst (check_sessions (Some re) a ss out))
      (snd (check_sessions (Some re) a ss out)).
Proof.
  unfold check_sessions. rewrite fold_left_app.
  now destruct (fold_left (session_step re) a (ss, out)).
Qed.

(** A value recorded for [name] stays while no cookie matches with
    [name]. *)
Lemma check_sessions_keeps (re : str -> option str) (name v : str)
  (rest : dict str) (ss : dict str) (out : list str) :
  (forall c' v', In (c', v') rest -> re c' <> Some name) ->
  dict_get name ss = Some v ->
  dict_get name (fst (check_sessions (Some re) rest ss out)) = Some v.
Proof.
  unfold check_sessions. revert ss out.
  induction rest as [|[c' v'] rest IH]; intros ss out Hno Hg; [exact Hg|].
  cbn [fold_left]. unfold session_step at 2. cbn [fst snd].
  destruct (re c') as [n|] eqn:E.
  - apply IH; [intros c2 v2 H2; apply (Hno c2 v2); now right|]. cbn [fst].
    rewrite dict_get_set_other; [exact Hg|].
    intros ->. apply (Hno c' v'); [now left | exact E].
  - apply IH; [intros c2 v2 H2; apply (Hno c2 v2); now right | exact Hg].
Qed.

Lemma check_sessions_untouched (re : str -> option str) (name : str)
  (cs : dict str) (ss : dict str) (out : list str) :
  (forall k' v', In (k', v') cs -> re k' <> Some name) ->
  dict_get name (fst (check_sessions (Some re) cs ss out)) = dict_get name ss.
Proof.
  unfold check_sessions. revert ss out.
  induction cs as [|[c' v'] cs IH]; intros ss out Hno; [reflexivity|].
  cbn [fold_left]. unfold session_step at 2. cbn [fst snd].
  destruct (re c') as [n|] eqn:E.
  - rewrite IH by (intros c2 v2 H2; apply (Hno c2 v2); now right). cbn [fst].
    apply dict_get_set_other.
    intros ->. apply (Hno c' v'); [now left | exact E].
  - apply IH. intros c2 v2 H2. apply (Hno c2 v2). now right.
Qed.

(** The loop only adds to what was printed. *)
Lemma check_sessions_prints (re : str -> option str) (cs : dict str)
  (ss : dict str) (out : list str) :
  exists more, snd (check_sessions (Some re) cs ss out) = out ++ more.
Proof.
  unfold check_sessions. revert ss out.
  induction cs as [|[c v] cs IH]; intros ss out.
  - exists []. cbn. now rewrite app_nil_r.
  - cbn [fold_left].
    destruct (session_step re (ss, out) (c, v)) as [ss1 out1] eqn:E.
    destruct (IH ss1 out1) as [more Hm]. rewrite Hm.
    unfold session_step in E. cbn [fst snd] in E.
    destruct (re c) as [n|]; [|injection E as <- <-; now exists more].
    injection E as <- <-.
    destruct (dict_get n ss) as [old|]; [|now exists more].
    destruct (str_eqb old v); [now exists more|].
    exists ([changed_session_msg n] ++ more). now rewrite app_assoc.
Qed.

(** The loop on one matching cookie. *)
Lemma check_sessions_step (re : str -> option str) (c v name : str)
  (ss : dict str) (out : list str) :
  re c = Some name ->
  check_sessions (Some re) [(c, v)] ss out
  = (dict_set name v ss, out ++ rotation_notice name v ss).
Proof.
  intros E. unfold check_sessions, rotation_notice. cbn [fold_left].
  unfold session_step. cbn [fst snd]. rewrite E. f_equal.
  destruct (dict_get name ss) as [old|]; [|now rewrite app_nil_r].
  destruct (str_eqb old v); [now rewrite app_nil_r | reflexivity].
Qed.

(* ------------------------------------------------------------------ *)
(** ** [urlencode] *)

Lemma sequence_In {A : Type} (l : list (option A)) (xs : list A) (x : A) :
  sequence l = Some xs -> In (Some x) l -> In x xs.
Proof.
  revert xs. induction l as [|[y|] l IH]; intros xs; simpl;
    [tauto | | discriminate].
  destruct (sequence l) as [ys|]; [|discriminate].
  intros [= <-] [[= ->]|H]; [now left | right; now apply IH].
Qed.

Lemma sequence_total {A : Type} (l : list (option A)) (xs : list A)
  (o : option A) :
  sequence l = Some xs -> In o l -> exists x, o = Some x.
Proof.
  revert xs. induction l as [|[y|] l IH]; intros xs; simpl;
    [tauto | | discriminate].
  destruct (sequence l) as [ys|]; [|discriminate].
  intros _ [<-|H]; [now exists y | now apply (IH ys)].
Qed.

(** A scalar entry of the mapping is a parameter of the encoded body. *)
Lemma urlencode_params_In (d : dict field) (ps : list str) (k v : str)
  (f : field) :
  urlencode_params d = Some ps -> In (k, f) d -> scalar_text f = Some v ->
  exists qk qv, quote_plus k = Some qk /\ quote_plus v = Some qv
                /\ In (qk ++ [equals] ++ qv) ps.
Proof.
  unfold urlencode_params. intros Hp Hin Hf.
  destruct (sequence (List.map urlencode_entry d)) as [es|] eqn:Hs;
    [|discriminate]. injection Hp as <-.
  destruct (sequence_total _ _ (urlencode_entry (k, f)) Hs) as [e He].
  { apply in_map. exact Hin. }
  assert (Hine : In e es).
  { apply (sequence_In _ _ _ Hs). rewrite <- He. apply in_map. exact Hin. }
  unfold urlencode_entry in He. cbn [fst snd] in He.
  destruct (quote_plus k) as [qk|]; [|discriminate].
  assert (Hv : sequence [option_map (fun q => qk ++ [equals] ++ q)
                                    (quote_plus v)] = Some e).
  { destruct f; cbn in Hf; try discriminate; injection Hf as <-; exact He. }
  cbn in Hv. destruct (quote_plus v) as [qv|]; [|discriminate].
  injection Hv as <-. exists qk, qv. repeat split.
  apply in_concat. exists [qk ++ [equals] ++ qv]. split; [exact Hine | now left].
Qed.

(** ** The injections of lines 139-150 *)

Lemma formname_neq_formkey : formname <> formkey.
Proof. discriminate. Qed.

Lemma dict_mem_get {V : Type} (k : str) (d : dict V) :
  dict_mem k d = false <-> dict_get k d = None.
Proof. unfold dict_mem. destruct (dict_get k d); split; congruence. Qed.

(** With one form known and no [_formname] given, the name is injected,
    and after it the key of that form. *)
Lemma inject_form_sole (name : str) (key : option str) (d : dict field) :
  dict_mem formname d = false ->
  let d1 := dict_set formname (FStr name) d in
  inject_form [(name, key)] d
  = (if dict_mem formkey d then d1
     else dict_set formkey (field_of_key key) d1, None).
Proof.
  intros Hn. cbv zeta. unfold inject_form. fold formname formkey.
  rewrite Hn. cbn [negb andb List.length Nat.eqb dict_keys List.map fst].
  rewrite dict_mem_set_same. cbn [andb].
  assert (Hk : dict_mem formkey (dict_set formname (FStr name) d)
               = dict_mem formkey d).
  { unfold dict_mem.
    now rewrite (dict_get_set_other _ _ _ _ _ formname_neq_formkey). }
  rewrite Hk. destruct (dict_mem formkey d); cbn [negb]; [reflexivity|].
  rewrite dict_get_set_same. cbn [dict_get]. now rewrite str_eqb_refl.
Qed.

(** With a [_formname] given that [forms] knows and no [_formkey], the key
    is injected. *)
Lemma inject_form_known (forms_ : dict (option str)) (n : str)
  (key : option str) (d : dict field) :
  dict_get formname d = Some (FStr n) -> dict_mem formkey d = false ->
  dict_get n forms_ = Some key ->
  inject_form forms_ d = (dict_set formkey (field_of_key key) d, None).
Proof.
  intros Hn Hk Hf. unfold inject_form. fold formname formkey.
  assert (Hm : dict_mem formname d = true) by (unfold dict_mem; now rewrite Hn).
  rewrite Hm. cbn [negb andb]. rewrite Hm, Hk. cbn [negb andb].
  now rewrite Hn, Hf.
Qed.

(* ------------------------------------------------------------------ *)
(** ** The merge of the default headers (lines 113-115) *)

Lemma In_dict_mem {V : Type} (k : str) (v : V) (d : dict V) :
  In (k, v) d -> dict_mem k d = true.
Proof.
  unfold dict_mem. induction d as [|[k' v'] d IH]; simpl; [tauto|].
  intros [[= -> ->]|H]; [now rewrite str_eqb_refl|].
  destruct (str_eqb k' k); [reflexivity | now apply IH].
Qed.

(** The caller wins: the merge keeps every entry of the mapping ... *)
Lemma merge_defaults_keeps (defaults hdrs : dict hvalue) (k : str) :
  dict_mem k hdrs = true ->
  dict_get k (merge_defaults defaults hdrs) = dict_get k hdrs.
Proof.
  unfold merge_defaults. revert hdrs.
  induction defaults as [|[k' v'] defaults IH]; intros hdrs Hm; [reflexivity|].
  cbn [fold_left fst snd].
  destruct (dict_mem k' hdrs) eqn:E; [now apply IH|].
  rewrite IH by now apply dict_mem_set_mono.
  apply dict_get_set_other. intros ->. congruence.
Qed.

(** ... and fills in the default for every key it lacks. *)
Lemma merge_defaults_fills (defaults hdrs : dict hvalue) (k : str) :
  dict_mem k hdrs = false ->
  dict_get k (merge_defaults defaults hdrs) = dict_get k defaults.
Proof.
  unfold merge_defaults. revert hdrs.
  induction defaults as [|[k' v'] defaults IH]; intros hdrs Hm.
  - now apply dict_mem_get.
  - cbn [fold_left fst snd dict_get].
    destruct (str_eqb k' k) eqn:E.
    + apply str_eqb_eq in E. subst k'. rewrite Hm.
      fold (merge_defaults defaults (dict_set k v' hdrs)).
      rewrite merge_defaults_keeps by apply dict_mem_set_same.
      apply dict_get_set_same.
    + apply str_eqb_neq in E.
      destruct (dict_mem k' hdrs); [now apply IH|].
      apply IH. unfold dict_mem in *.
      now rewrite dict_get_set_other.
Qed.

Lemma merge_defaults_covers (defaults hdrs : dict hvalue) (k : str) :
  dict_mem k defaults = true ->
  dict_mem k (merge_defaults defaults hdrs) = true.
Proof.
  intros Hd. destruct (dict_mem k hdrs) eqn:E; unfold dict_mem in *.
  - rewrite merge_defaults_keeps by (unfold dict_mem; exact E). exact E.
  - rewrite merge_defaults_fills by (unfold dict_mem; exact E). exact Hd.
Qed.

Lemma merge_defaults_fixed (defaults hdrs : dict hvalue) :
  (forall kv, In kv defaults -> dict_mem (fst kv) hdrs = true) ->
  merge_defaults defaults hdrs = hdrs.
Proof.
  unfold merge_defaults.
  induction defaults as [|kv defaults IH]; intros H; [reflexivity|].
  cbn [fold_left]. rewrite (H kv) by now left.
  apply IH. intros kv' Hin. apply H. now right.
Qed.

(** Merging twice is merging once: the priming GET and the call itself
    merge into the same mapping. *)
Lemma merge_defaults_idempotent (defaults hdrs : dict hvalue) :
  merge_defaults defaults (merge_defaults defaults hdrs)
  = merge_defaults defaults hdrs.
Proof.
  apply merge_defaults_fixed. intros [k v] Hin.
  apply merge_defaults_covers. now apply In_dict_mem with (v := v).
Qed.

Lemma merge_defaults_nonempty (defaults hdrs : dict hvalue) :
  hdrs <> [] -> merge_defaults defaults hdrs <> [].
Proof.
  destruct hdrs as [|[k v] hdrs]; [congruence|]. intros _ H.
  assert (Hm : dict_mem k ((k, v) :: hdrs) = true)
    by (apply In_dict_mem with (v := v); now left).
  pose proof (merge_defaults_keeps defaults _ k Hm) as Hk.
  rewrite H in Hk. unfold dict_mem in Hm.
  destruct (dict_get k ((k, v) :: hdrs)); [discriminate Hk | discriminate Hm].
Qed.

(* ------------------------------------------------------------------ *)
(** ** The calls *)

Section ClientProperties.
Context {lib : Library}.
Implicit Types (s : Sys) (c : WebClient) (r : Response) (dt : Elapsed).

(** Under a truthy charset, what the decoding step leaves is text, decoded
    under that charset, which is not [auto]. *)
Lemma decode_body_text (charset : option str) r (txt : Body) :
  decode_body charset r = inr txt -> opt_truthy charset = true ->
  exists cs t, charset = Some cs /\ cs <> lit "auto"
               /\ decode cs (body r) = Some t /\ txt = Text t.
Proof.
  unfold decode_body. destruct charset as [cs|]; [|discriminate].
  cbn [opt_truthy]. intros H Ht. rewrite Ht in H.
  destruct (str_eqb cs (lit "auto")) eqn:E; [discriminate|].
  apply str_eqb_neq in E.
  destruct (decode cs (body r)) as [t|] eqn:D; [|discriminate].
  injection H as <-. now exists cs, t.
Qed.

(** Under a falsy charset, the text stays the bytes read. *)
Lemma decode_body_raw (charset : option str) r :
  opt_truthy charset = false -> decode_body charset r = inr (Raw (body r)).
Proof.
  unfold decode_body. destruct charset as [cs|]; [|reflexivity].
  cbn [opt_truthy]. now intros ->.
Qed.

(** [receive] on a response that was not an HTTP error and whose body
    decodes: every step runs, and nothing is raised. *)
Lemma receive_ok (m full : str) (charset : option str) r dt s (txt : Body) :
  decode_body charset r = inr txt ->
  let hs := normalise_headers (resp_headers r) in
  let cs := parse_headers_in_cookies hs in
  let so := check_sessions (session_regex (self s)) cs
                           (sessions (self s)) (stdout s) in
  receive m full charset r dt None s
  = ({| self :=
          {| app := app (self s);
             postbacks := postbacks (self s);
             forms := forms_after charset txt (forms (self s));
             history := history (self s) ++ [(m, full, getcode r, dt)];
             cookies := cs;
             default_headers := default_headers (self s);
             sessions := fst so;
             session_regex := session_regex (self s);
             headers := hs;
             url := url (self s);
             method := method (self s);
             response := Some r;
             time := Some dt;
             status := getcode r;
             text := Some txt |};
        world := world s;
        stdout := snd so |}, None).
Proof.
  intros Hd. unfold receive, forms_after. rewrite Hd. cbv zeta.
  destruct (opt_truthy charset) eqn:E.
  - destruct (decode_body_text _ _ _ Hd E) as (c' & t & _ & _ & _ & ->).
    reflexivity.
  - reflexivity.
Qed.

(** When the decoding raises, only the scratch fields set before it have
    changed. *)
Lemma receive_decode_error (m full : str) (charset : option str) r dt
  (error : option exn) s (ex : exn) :
  decode_body charset r = inl ex ->
  receive m full charset r dt error s
  = (on_self (set_text (Some (Raw (body r))))
       (on_self (set_status (getcode r))
          (on_self (set_time (Some dt))
             (on_self (set_response (Some r)) s))),
     Some ex).
Proof. intros Hd. unfold receive. now rewrite Hd. Qed.

(** Lines 183-187, once the body is through the decoding step. *)
Lemma receive_http_error (m full : str) (charset : option str) r dt s
  (er : exn) (txt : Body) :
  decode_body charset r = inr txt ->
  snd (receive m full charset r dt (Some er) s)
  = Some (match dict_get (lit "web2py_error")
                         (normalise_headers (resp_headers r)) with
          | Some msg => RuntimeError msg
          | None => er
          end).
Proof.
  intros Hd. unfold receive. rewrite Hd. cbv zeta.
  destruct (dict_get (lit "web2py_error") _); reflexivity.
Qed.

(** *** From the call to its own exchange *)

Lemma post_unfold url_ data cookies_ headers_ auth method_ charset s :
  post url_ data cookies_ headers_ auth method_ charset s
  = let o := primed url_ data cookies_ headers_ auth s in
    match raised o with
    | Some _ => o
    | None => exchange url_ data cookies_ (caller_headers o) auth method_
                       charset (sys o)
    end.
Proof. reflexivity. Qed.

(** Line 83: no data, no postback. *)
Lemma needs_postback_no_data c (full : str) :
  needs_postback DNone c full = false.
Proof. reflexivity. Qed.

(** Line 67, the equation of the source: [get] is [post] without data and
    without [auth]. *)
Lemma get_is_post url_ cookies_ headers_ auth s :
  get url_ cookies_ headers_ auth s
  = post url_ DNone cookies_ headers_ None (lit "GET") utf_8 s.
Proof.
  unfold get, post, post_with, postback.
  rewrite needs_postback_no_data. reflexivity.
Qed.

(** The request goes to the base URL followed by [url]. *)
Lemma prepare_url url_ data cookies_ headers_ auth method_ c rq :
  p_request (prepare url_ data cookies_ headers_ auth method_ c) = inr rq ->
  rq_url rq = app c ++ url_.
Proof.
  unfold prepare.
  destruct (encode_data data method_ c) as [[m d'] [ex|body_]]; cbn;
    [discriminate|].
  destruct (match body_ with
            | Some b => option_map Some (encode_utf8 b)
            | None => Some None
            end); [|discriminate].
  now intros [= <-].
Qed.

(** What the call's own exchange makes of the answer. *)
Lemma post_answered url_ data cookies_ headers_ auth method_ charset s
  rq w dt res :
  answered url_ data cookies_ headers_ auth method_ s rq w dt res ->
  let o := primed url_ data cookies_ headers_ auth s in
  let p := prepare url_ data cookies_ (caller_headers o) auth method_
                   (self (sys o)) in
  let s2 := arrival url_ data cookies_ headers_ auth method_ s w in
  let se := match res with
            | inl r => receive (p_method p) (rq_url rq) charset r dt None s2
            | inr (HTTPError r) =>
                receive (p_method p) (rq_url rq) charset r dt
                        (Some (HTTPError r)) s2
            | inr ex => (s2, Some ex)
            end in
  post url_ data cookies_ headers_ auth method_ charset s
  = {| sys := fst se; caller_data := p_data p;
       caller_headers := p_headers p; raised := snd se |}.
Proof.
  intros ((Hp & Hrq) & Hopen). rewrite post_unfold. cbv zeta.
  rewrite Hp. unfold exchange, arrival. cbv zeta. rewrite Hrq. cbn [world on_self].
  rewrite Hopen. cbn [self stdout on_self].
  by_answer res; reflexivity.
Qed.

(** A call that raises nothing got an answer that was no HTTP error and
    whose body decoded. *)
Lemma post_completed url_ data cookies_ headers_ auth method_ charset s :
  raised (post url_ data cookies_ headers_ auth method_ charset s) = None ->
  exists rq w dt r txt,
    answered url_ data cookies_ headers_ auth method_ s rq w dt (inl r)
    /\ decode_body charset r = inr txt.
Proof.
  rewrite post_unfold. cbv zeta.
  destruct (raised (primed url_ data cookies_ headers_ auth s)) eqn:Hp.
  - now rewrite Hp.
  - unfold exchange. cbv zeta.
    destruct (p_request _) as [ex|rq] eqn:Hrq; [discriminate|].
    cbn [world on_self].
    destruct (open_url _ rq) as [[w dt] res] eqn:Hopen.
    destruct res as [r|ex].
    + cbn [raised]. intros Hr.
      destruct (decode_body charset r) as [ex|txt] eqn:Hd.
      * rewrite (receive_decode_error _ _ _ _ _ _ _ _ Hd) in Hr. discriminate.
      * exists rq, w, dt, r, txt. repeat split; assumption.
    + destruct ex as [r|m|m|cs| | |]; cbn [raised snd]; try discriminate.
      intros Hr. exfalso.
      destruct (decode_body charset r) as [ex|txt] eqn:Hd.
      * rewrite (receive_decode_error _ _ _ _ _ _ _ _ Hd) in Hr. discriminate.
      * rewrite (receive_http_error _ _ _ _ _ _ _ _ Hd) in Hr. discriminate.
Qed.

(** *** What no call changes: the configuration of the client *)

Lemma same_config_refl c : same_config c c.
Proof. repeat split. Qed.

Lemma same_config_trans c1 c2 c3 :
  same_config c1 c2 -> same_config c2 c3 -> same_config c1 c3.
Proof.
  intros (A1 & B1 & C1 & D1) (A2 & B2 & C2 & D2).
  repeat split; congruence.
Qed.

Lemma receive_config (m full : str) (charset : option str) r dt
  (error : option exn) s :
  same_config (self (fst (receive m full charset r dt error s))) (self s).
Proof.
  unfold receive. cbv zeta.
  destruct (decode_body charset r) as [ex|txt]; [repeat split|].
  destruct error as [er|].
  - destruct (dict_get (lit "web2py_error") _); repeat split.
  - destruct (opt_truthy charset); [|repeat split].
    destruct (forms_of_body txt); repeat split.
Qed.

Lemma exchange_config url_ data cookies_ headers_ auth method_ charset s :
  same_config
    (self (sys (exchange url_ data cookies_ headers_ auth method_ charset s)))
    (self s).
Proof.
  unfold exchange. cbv zeta.
  destruct (p_request _) as [ex|rq]; [repeat split|].
  destruct (open_url _ rq) as [[w dt] res].
  by_answer res; cbn [sys fst]; try (repeat split);
    match goal with
    | |- context [receive ?m ?f ?c ?r ?dt ?e ?s] =>
        apply (receive_config m f c r dt e s)
    end.
Qed.

Lemma post_with_config get_ url_ data cookies_ headers_ auth method_ charset s :
  (forall u cs hs a s', same_config (self (sys (get_ u cs hs a s'))) (self s')) ->
  same_config
    (self (sys (post_with get_ url_ data cookies_ headers_ auth method_
                          charset s)))
    (self s).
Proof.
  intros Hget. unfold post_with.
  assert (Hp : same_config
                 (self (sys (postback get_ url_ data cookies_ headers_ auth s)))
                 (self s)).
  { unfold postback. cbv zeta.
    destruct (needs_postback _ _ _); cbn [sys].
    - eapply same_config_trans; [apply Hget|]. repeat split.
    - repeat split. }
  destruct (raised _); [exact Hp|].
  eapply same_config_trans; [apply exchange_config | exact Hp].
Qed.

Lemma get_config url_ cookies_ headers_ auth s :
  same_config (self (sys (get url_ cookies_ headers_ auth s))) (self s).
Proof. apply post_with_config. intros. apply same_config_refl. Qed.

Lemma post_config url_ data cookies_ headers_ auth method_ charset s :
  same_config
    (self (sys (post url_ data cookies_ headers_ auth method_ charset s)))
    (self s).
Proof. apply post_with_config. intros. apply get_config. Qed.

Lemma primed_config url_ data cookies_ headers_ auth s :
  same_config (self (sys (primed url_ data cookies_ headers_ auth s))) (self s).
Proof.
  unfold primed, postback. cbv zeta.
  destruct (needs_postback _ _ _); cbn [sys].
  - eapply same_config_trans; [apply get_config|]. repeat split.
  - repeat split.
Qed.

(** *** The history entry of a completed call *)

Lemma post_own_entry url_ data cookies_ headers_ auth method_ charset s :
  raised (post url_ data cookies_ headers_ auth method_ charset s) = None ->
  let o1 := primed url_ data cookies_ headers_ auth s in
  let o := post url_ data cookies_ headers_ auth method_ charset s in
  exists (m : str) (st : option Z) dt,
    history (self (sys o))
    = history (self (sys o1)) ++ [(m, app (self s) ++ url_, st, dt)]
    /\ m = p_method (prepare url_ data cookies_ (caller_headers o1) auth
                             method_ (self (sys o1)))
    /\ method (self (sys o)) = Some m
    /\ status (self (sys o)) = st
    /\ time (self (sys o)) = Some dt.
Proof.
  intros Hr. cbv zeta.
  destruct (post_completed _ _ _ _ _ _ _ _ Hr) as (rq & w & dt & r & txt & Ha & Hd).
  rewrite (post_answered _ _ _ _ _ _ charset _ _ _ _ _ Ha). cbv zeta. cbn [sys].
  rewrite (receive_ok _ _ _ _ _ _ _ Hd).
  cbn [fst self history method status time].
  destruct Ha as ((_ & Hrq) & _). rewrite (prepare_url _ _ _ _ _ _ _ _ Hrq).
  destruct (primed_config url_ data cookies_ headers_ auth s) as (-> & _).
  eexists _, _, _. repeat split.
Qed.

(** The entry the postback phase appends, when it primes the form. *)
Lemma primed_history url_ data cookies_ headers_ auth s :
  raised (primed url_ data cookies_ headers_ auth s) = None ->
  if needs_postback data (self s) (app (self s) ++ url_)
  then exists (st : option Z) dt,
         history (self (sys (primed url_ data cookies_ headers_ auth s)))
         = history (self s) ++ [(lit "GET", app (self s) ++ url_, st, dt)]
  else history (self (sys (primed url_ data cookies_ headers_ auth s)))
       = history (self s).
Proof.
  unfold primed, postback. cbv zeta. cbn [self on_self app history].
  change (app (set_url (Some (app (self s) ++ url_)) (self s)))
    with (app (self s)).
  destruct (needs_postback _ _ _); cbn [sys raised]; [|reflexivity].
  rewrite get_is_post. intros Hr.
  destruct (post_own_entry _ _ _ _ _ _ _ _ Hr) as (m & st & dt & H & -> & _).
  exists st, dt. exact H.
Qed.

(** Lines 82-88, spelled out. *)
Lemma needs_postback_iff (data : Data) c (full : str) :
  needs_postback data c full = true <->
  ((exists d, data = DDict d /\ dict_mem formname d = true)
   \/ (exists b, data = DStr b /\ contains formname b = true))
  /\ postbacks c = true
  /\ exists h e, history c = h ++ [e] /\ url_of e <> full.
Proof.
  unfold needs_postback. rewrite !andb_true_iff. split.
  - intros [[[Ht Hm] Hp] Hh]. split; [|split; [exact Hp|]].
    + destruct data as [|b|d]; [discriminate| right | left]; eauto.
    + destruct (rev (history c)) as [|[[[m u] st] dt] l] eqn:E; [discriminate|].
      exists (rev l), (m, u, st, dt). split.
      * rewrite <- (rev_involutive (history c)), E. reflexivity.
      * apply negb_true_iff, str_eqb_neq in Hh. exact Hh.
  - intros (Hd & Hp & h & [[[m u] st] dt] & Hh & Hu).
    split; [split; [|exact Hp]|].
    + destruct Hd as [(d & -> & Hm) | (b & -> & Hm)]; split; try exact Hm.
      * destruct d; [discriminate | reflexivity].
      * destruct b; [discriminate | reflexivity].
    + rewrite Hh, rev_unit. apply negb_true_iff, str_eqb_neq. exact Hu.
Qed.

(** C1, amended: the priming GET is needed exactly when [data] is a mapping
    with the key [_formname] or a string containing [_formname], postbacks
    are enabled, and the history ends with an entry for another URL than
    [app + url]. A call that raises nothing has appended one entry of its
    own, made of [self.method], [app + url], [self.status] and [self.time]
    as the call leaves them, after one GET entry for the same URL when the
    priming was needed: the history grows by 1, or by 2. *)
Theorem postback_and_history url_ data cookies_ headers_ auth method_
  charset s :
  let full := app (self s) ++ url_ in
  let o := post url_ data cookies_ headers_ auth method_ charset s in
  (needs_postback data (self s) full = true <->
   ((exists d, data = DDict d /\ dict_mem formname d = true)
    \/ (exists b, data = DStr b /\ contains formname b = true))
   /\ postbacks (self s) = true
   /\ exists h e, history (self s) = h ++ [e] /\ url_of e <> full)
  /\ (raised o = None ->
      exists (m : str) (st : option Z) (dt : Elapsed),
        method (self (sys o)) = Some m
        /\ status (self (sys o)) = st
        /\ time (self (sys o)) = Some dt
        /\ if needs_postback data (self s) full
           then exists primer : entry,
                  method_of primer = lit "GET" /\ url_of primer = full
                  /\ history (self (sys o))
                     = history (self s) ++ [primer; (m, full, st, dt)]
           else history (self (sys o))
                = history (self s) ++ [(m, full, st, dt)]).
Proof.
  cbv zeta. split; [apply needs_postback_iff|].
  intros Hr.
  destruct (post_own_entry _ _ _ _ _ _ _ _ Hr)
    as (m & st & dt & H & _ & Hm & Hst & Ht).
  cbv zeta in H. rewrite H. exists m, st, dt.
  split; [exact Hm|]. split; [exact Hst|]. split; [exact Ht|].
  assert (Hp : raised (primed url_ data cookies_ headers_ auth s) = None).
  { destruct (post_completed _ _ _ _ _ _ _ _ Hr)
      as (rq & w & dt' & r & txt & ((Hp & _) & _) & _). exact Hp. }
  pose proof (primed_history _ _ _ _ _ _ Hp) as Hh.
  destruct (needs_postback data (self s) (app (self s) ++ url_)).
  - destruct Hh as (st' & dt' & ->). eexists (_, _, _, _).
    split; [reflexivity|]. split; [reflexivity|].
    rewrite <- app_assoc. reflexivity.
  - rewrite Hh. reflexivity.
Qed.

(** Without a postback, the phase only sets [self.url]. *)
Lemma primed_no_postback url_ data cookies_ headers_ auth s :
  needs_postback data (self s) (app (self s) ++ url_) = false ->
  primed url_ data cookies_ headers_ auth s
  = {| sys := on_self (set_url (Some (app (self s) ++ url_))) s;
       caller_data := data; caller_headers := headers_; raised := None |}.
Proof.
  intros H. unfold primed, postback. cbv zeta. cbn [self on_self app].
  change (app (set_url (Some (app (self s) ++ url_)) (self s)))
    with (app (self s)).
  change (needs_postback data (set_url (Some (app (self s) ++ url_)) (self s)))
    with (needs_postback data (self s)).
  now rewrite H.
Qed.

(** C3, amended: when the call's own request is answered by an HTTP error
    and the body of that answer is left undecoded or decodes, the call
    raises [RuntimeError] with the value of the [web2py_error] header if
    the lower-cased headers hold one, and the HTTP error itself
    otherwise. *)
Theorem http_error_classified url_ data cookies_ headers_ auth method_
  charset s rq w dt r (txt : Body) :
  answered url_ data cookies_ headers_ auth method_ s rq w dt
           (inr (HTTPError r)) ->
  decode_body charset r = inr txt ->
  raised (post url_ data cookies_ headers_ auth method_ charset s)
  = Some (match dict_get (lit "web2py_error")
                         (normalise_headers (resp_headers r)) with
          | Some msg => RuntimeError msg
          | None => HTTPError r
          end).
Proof.
  intros Ha Hd. rewrite (post_answered _ _ _ _ _ _ charset _ _ _ _ _ Ha).
  cbv zeta. cbn [raised]. apply receive_http_error with (txt := txt). exact Hd.
Qed.

(** A call whose answer is no HTTP error and decodes raises nothing, and
    leaves the cookies of the answer and the session table checked against
    them. *)
Lemma post_ok url_ data cookies_ headers_ auth method_ charset s rq w dt r
  (txt : Body) :
  answered url_ data cookies_ headers_ auth method_ s rq w dt (inl r) ->
  decode_body charset r = inr txt ->
  let o := post url_ data cookies_ headers_ auth method_ charset s in
  let o1 := primed url_ data cookies_ headers_ auth s in
  raised o = None
  /\ cookies (self (sys o))
     = parse_headers_in_cookies (normalise_headers (resp_headers r))
  /\ (sessions (self (sys o)), stdout (sys o))
     = check_sessions (session_regex (self s)) (cookies (self (sys o)))
                      (sessions (self (sys o1))) (stdout (sys o1)).
Proof.
  cbv zeta. intros Ha Hd.
  rewrite (post_answered _ _ _ _ _ _ charset _ _ _ _ _ Ha). cbv zeta.
  cbn [sys raised].
  rewrite (receive_ok _ _ _ _ _ _ _ Hd).
  cbn [fst snd self stdout sessions cookies].
  destruct (primed_config url_ data cookies_ headers_ auth s) as (_ & _ & _ & <-).
  unfold arrival. cbn [self stdout].
  split; [reflexivity|]. split; [reflexivity|].
  now destruct (check_sessions _ _ _ _).
Qed.

(** C6: when the answer is no HTTP error and decodes, the call raises
    nothing, whatever the cookies are. For a cookie of the re-derived map
    whose name matches the session pattern with group [name]: processing it
    records its value for [name], and prints the notice exactly once if a
    different value was recorded for [name] until then, not at all
    otherwise; what is printed stays printed, and the value is still the
    one recorded after the call unless a later cookie of the map matches
    with the same [name]. What was recorded until then is what the table
    held when the call's own request was made (at the call, when no
    postback was needed), unless an earlier cookie of the map matches with
    the same [name]. *)
Theorem session_rotation url_ data cookies_ headers_ auth method_ charset s
  rq w dt r (txt : Body)
  (re : str -> option str) (earlier later : dict str) (cookie v name : str) :
  let o := post url_ data cookies_ headers_ auth method_ charset s in
  let o1 := primed url_ data cookies_ headers_ auth s in
  answered url_ data cookies_ headers_ auth method_ s rq w dt (inl r) ->
  decode_body charset r = inr txt ->
  session_regex (self s) = Some re ->
  parse_headers_in_cookies (normalise_headers (resp_headers r))
  = earlier ++ (cookie, v) :: later ->
  re cookie = Some name ->
  let before_ := check_sessions (Some re) earlier
                                (sessions (self (sys o1))) (stdout (sys o1)) in
  let at_ := check_sessions (Some re) (earlier ++ [(cookie, v)])
                            (sessions (self (sys o1))) (stdout (sys o1)) in
  raised o = None
  /\ cookies (self (sys o)) = earlier ++ (cookie, v) :: later
  /\ dict_get name (fst at_) = Some v
  /\ snd at_ = snd before_ ++ rotation_notice name v (fst before_)
  /\ (exists more, stdout (sys o) = snd at_ ++ more)
  /\ ((forall k' v', In (k', v') later -> re k' <> Some name) ->
      dict_get name (sessions (self (sys o))) = Some v)
  /\ ((forall k' v', In (k', v') earlier -> re k' <> Some name) ->
      dict_get name (fst before_) = dict_get name (sessions (self (sys o1))))
  /\ (needs_postback data (self s) (app (self s) ++ url_) = false ->
      sessions (self (sys o1)) = sessions (self s)
      /\ stdout (sys o1) = stdout s).
Proof.
  cbv zeta. intros Ha Hd Hre Hc Hm.
  destruct (post_ok url_ data cookies_ headers_ auth method_ charset s
                    rq w dt r txt Ha Hd) as (Hr & Hck & H).
  cbv zeta in H. rewrite Hck, Hre, Hc in H.
  split; [exact Hr|]. split; [now rewrite Hck|].
  set (ss0 := sessions (self (sys (primed url_ data cookies_ headers_ auth s))))
    in *.
  set (out0 := stdout (sys (primed url_ data cookies_ headers_ auth s))) in *.
  assert (HA : check_sessions (Some re) (earlier ++ [(cookie, v)]) ss0 out0
               = (dict_set name v (fst (check_sessions (Some re) earlier ss0 out0)),
                  snd (check_sessions (Some re) earlier ss0 out0)
                  ++ rotation_notice name v
                       (fst (check_sessions (Some re) earlier ss0 out0)))).
  { rewrite check_sessions_app. apply check_sessions_step. exact Hm. }
  change (earlier ++ (cookie, v) :: later)
    with (earlier ++ [(cookie, v)] ++ later) in H.
  rewrite app_assoc, check_sessions_app, HA in H. rewrite HA.
  cbn [fst snd] in *.
  split; [apply dict_get_set_same|]. split; [reflexivity|].
  split; [|split; [|split]].
  - match type of H with
    | _ = check_sessions _ _ ?ss ?out =>
        destruct (check_sessions_prints re later ss out) as [more Hmore]
    end.
    exists more. rewrite <- Hmore, <- H. reflexivity.
  - intros Hno.
    match type of H with
    | (?a, ?b) = _ => change a with (fst (a, b))
    end.
    rewrite H. apply check_sessions_keeps; [exact Hno|].
    apply dict_get_set_same.
  - intros Hno. now apply check_sessions_untouched.
  - intros Hn. subst ss0 out0.
    now rewrite (primed_no_postback _ _ _ _ _ _ Hn).
Qed.

(** The request of a mapping carries the encoding of the mapping as the
    injections left it. *)
Lemma prepare_mapping url_ (d : dict field) cookies_ headers_ auth method_
  (c : WebClient) rq :
  p_request (prepare url_ (DDict d) cookies_ headers_ auth method_ c) = inr rq ->
  exists ps,
    inject_form (forms c) d = (fst (inject_form (forms c) d), None)
    /\ urlencode_params (fst (inject_form (forms c) d)) = Some ps
    /\ rq_data rq = encode_utf8 (join [ampersand] ps).
Proof.
  unfold prepare, encode_data.
  destruct (inject_form (forms c) d) as [d' [ex|]]; cbn; [discriminate|].
  unfold urlencode.
  destruct (urlencode_params d') as [ps|]; cbn; [|discriminate].
  destruct (encode_utf8 (join [ampersand] ps)) as [b|] eqn:E; cbn;
    [|discriminate].
  intros [= <-]. exists ps. cbn. now rewrite E.
Qed.

Lemma prepare_data url_ (d : dict field) cookies_ headers_ auth method_
  (c : WebClient) :
  p_data (prepare url_ (DDict d) cookies_ headers_ auth method_ c)
  = DDict (fst (inject_form (forms c) d)).
Proof.
  unfold prepare, encode_data.
  now destruct (inject_form (forms c) d) as [d' e].
Qed.

Lemma mapping_without_formname_no_postback (d : dict field) (c : WebClient)
  (full : str) :
  dict_mem formname d = false -> needs_postback (DDict d) c full = false.
Proof.
  intros H. unfold needs_postback. cbn [mentions_formname].
  fold formname. rewrite H. now rewrite andb_false_r.
Qed.

(** C4, amended: when [post] is given a mapping and sends its request, the
    body is the UTF-8 encoding of [name=value] parameters joined by [&], among
    which: [_formname=] the sole form's name, if the mapping had no
    [_formname] and [forms] had exactly one entry; and [_formkey=] the
    token [forms] holds for the mapping's [_formname] when the body is
    encoded, if the mapping had no [_formkey]. [forms] is then what the
    priming GET left, or, when no priming was needed, what it was at the
    call. *)
Theorem form_name_and_key_sent url_ (d : dict field) cookies_ headers_ auth
  method_ s rq :
  sends url_ (DDict d) cookies_ headers_ auth method_ s rq ->
  let o1 := primed url_ (DDict d) cookies_ headers_ auth s in
  exists ps,
    rq_data rq = encode_utf8 (join [ampersand] ps)
    /\ (forall name key,
          dict_mem formname d = false -> forms (self s) = [(name, key)] ->
          exists q, quote_plus name = Some q
                    /\ In (lit "_formname=" ++ q) ps)
    /\ (forall n key,
          dict_get formname d = Some (FStr n) -> dict_mem formkey d = false ->
          dict_get n (forms (self (sys o1))) = Some key ->
          exists q, quote_plus (match key with
                                | Some k => k
                                | None => lit "None"
                                end) = Some q
                    /\ In (lit "_formkey=" ++ q) ps)
    /\ (needs_postback (DDict d) (self s) (app (self s) ++ url_) = false ->
        forms (self (sys o1)) = forms (self s)).
Proof.
  intros (Hp & Hrq). cbv zeta.
  destruct (prepare_mapping _ _ _ _ _ _ _ _ Hrq) as (ps & Hi & Hu & Hb).
  exists ps. split; [exact Hb|]. split; [|split].
  - intros name key Hn Hf.
    rewrite (primed_no_postback _ _ _ _ _ _
               (mapping_without_formname_no_postback d (self s) _ Hn)) in Hu.
    cbn [sys self on_self forms] in Hu.
    change (forms (set_url (Some (app (self s) ++ url_)) (self s)))
      with (forms (self s)) in Hu.
    rewrite Hf, (inject_form_sole name key d Hn) in Hu. cbn [fst] in Hu.
    destruct (urlencode_params_In _ ps formname name (FStr name) Hu)
      as (qk & q & Hqk & Hq & Hin); [|reflexivity|].
    + apply dict_get_In.
      destruct (dict_mem formkey d).
      * apply dict_get_set_same.
      * rewrite (dict_get_set_other _ _ _ _ _ (not_eq_sym formname_neq_formkey)).
        apply dict_get_set_same.
    + injection Hqk as <-. exists q. split; [exact Hq | exact Hin].
  - intros n key Hn Hk Hf.
    rewrite (inject_form_known _ n key d Hn Hk Hf) in Hu. cbn [fst] in Hu.
    destruct (urlencode_params_In _ ps formkey
                (match key with Some k => k | None => lit "None" end)
                (field_of_key key) Hu)
      as (qk & q & Hqk & Hq & Hin).
    + apply dict_get_In, dict_get_set_same.
    + now destruct key.
    + injection Hqk as <-. exists q. split; [exact Hq | exact Hin].
  - intros Hn. now rewrite (primed_no_postback _ _ _ _ _ _ Hn).
Qed.

(** What an exchange does to the caller's [headers], whatever else
    happens in it. *)
Lemma exchange_caller_headers url_ data cookies_ headers_ auth method_
  charset s :
  caller_headers (exchange url_ data cookies_ headers_ auth method_ charset s)
  = match headers_ with
    | Some ((_ :: _) as h) => Some (merge_defaults (default_headers (self s)) h)
    | _ => headers_
    end.
Proof.
  unfold exchange. cbv zeta.
  assert (Hp : p_headers (prepare url_ data cookies_ headers_ auth method_
                                  (self s))
               = match headers_ with
                 | Some ((_ :: _) as h) =>
                     Some (merge_defaults (default_headers (self s)) h)
                 | _ => headers_
                 end).
  { unfold prepare. destruct (encode_data data method_ (self s)) as [[m d'] e].
    cbn [p_headers]. destruct headers_ as [[|kv h]|]; reflexivity. }
  destruct (p_request _) as [ex|rq]; [exact Hp|].
  destruct (open_url _ rq) as [[w dt] res].
  by_answer res; exact Hp.
Qed.

(** ... and to the caller's [data]. *)
Lemma exchange_caller_data url_ data cookies_ headers_ auth method_
  charset s :
  caller_data (exchange url_ data cookies_ headers_ auth method_ charset s)
  = p_data (prepare url_ data cookies_ headers_ auth method_ (self s)).
Proof.
  unfold exchange. cbv zeta.
  destruct (p_request _) as [ex|rq]; [reflexivity|].
  destruct (open_url _ rq) as [[w dt] res].
  by_answer res; reflexivity.
Qed.

Lemma primed_caller_headers url_ data cookies_ (h : dict hvalue) auth s :
  h <> [] ->
  caller_headers (primed url_ data cookies_ (Some h) auth s)
  = Some (if needs_postback data (self s) (app (self s) ++ url_)
          then merge_defaults (default_headers (self s)) h
          else h).
Proof.
  intros Hh. unfold primed, postback. cbv zeta. cbn [self on_self].
  change (app (set_url (Some (app (self s) ++ url_)) (self s)))
    with (app (self s)).
  change (needs_postback data (set_url (Some (app (self s) ++ url_)) (self s)))
    with (needs_postback data (self s)).
  destruct (needs_postback _ _ _); cbn [caller_headers]; [|reflexivity].
  unfold get, post_with, postback. cbv zeta. cbn [raised sys caller_headers].
  rewrite needs_postback_no_data. cbn [raised sys caller_headers].
  rewrite exchange_caller_headers. destruct h; [congruence | reflexivity].
Qed.

(** C9, amended: a non-empty [headers] mapping of the caller is, after the
    call, its merge with the default headers (its own entries unchanged,
    every default key it lacked added), and differs from what was passed
    whenever a key was added; and once the postback phase has raised
    nothing, the caller's [data] mapping is the mapping that was encoded:
    it holds the injected [_formname] and [_formkey], and differs from what
    was passed whenever one was injected. *)
Theorem caller_mappings_mutated url_ data cookies_ headers_ auth method_
  charset s :
  let o := post url_ data cookies_ headers_ auth method_ charset s in
  let o1 := primed url_ data cookies_ headers_ auth s in
  let defaults := default_headers (self s) in
  (forall h, headers_ = Some h -> h <> [] ->
     caller_headers o = Some (merge_defaults defaults h)
     /\ (forall k, dict_mem k h = true ->
                   dict_get k (merge_defaults defaults h) = dict_get k h)
     /\ (forall k, dict_mem k defaults = true -> dict_mem k h = false ->
                   dict_get k (merge_defaults defaults h) = dict_get k defaults
                   /\ merge_defaults defaults h <> h))
  /\ (forall d, data = DDict d -> raised o1 = None ->
        let d' := fst (inject_form (forms (self (sys o1))) d) in
        caller_data o = DDict d'
        /\ (forall rq, sends url_ data cookies_ headers_ auth method_ s rq ->
                       option_map encode_utf8 (urlencode d')
                       = Some (rq_data rq))
        /\ (forall name key,
              dict_mem formname d = false ->
              forms (self (sys o1)) = [(name, key)] ->
              dict_get formname d' = Some (FStr name) /\ d' <> d)
        /\ (forall n key,
              dict_get formname d = Some (FStr n) ->
              dict_mem formkey d = false ->
              dict_get n (forms (self (sys o1))) = Some key ->
              dict_get formkey d' = Some (field_of_key key) /\ d' <> d)).
Proof.
  cbv zeta. split.
  - intros h -> Hh. split; [|split].
    + rewrite post_unfold. cbv zeta.
      destruct (needs_postback data (self s) (app (self s) ++ url_)) eqn:E.
      * pose proof (primed_caller_headers url_ data cookies_ h auth s Hh) as Hp.
        rewrite E in Hp.
        destruct (raised (primed url_ data cookies_ (Some h) auth s));
          [exact Hp|].
        rewrite exchange_caller_headers, Hp.
        destruct (primed_config url_ data cookies_ (Some h) auth s)
          as (_ & _ & -> & _).
        pose proof (merge_defaults_nonempty (default_headers (self s)) h Hh).
        destruct (merge_defaults (default_headers (self s)) h) eqn:M;
          [congruence|].
        rewrite <- M. now rewrite merge_defaults_idempotent.
      * rewrite (primed_no_postback _ _ _ _ _ _ E). cbn [raised sys caller_headers].
        rewrite exchange_caller_headers. cbn [self on_self].
        destruct h; [congruence | reflexivity].
    + intros k. apply merge_defaults_keeps.
    + intros k Hd Hk. split; [now apply merge_defaults_fills|].
      intros Heq.
      pose proof (merge_defaults_covers (default_headers (self s)) h k Hd) as Hc.
      rewrite Heq in Hc. congruence.
  - intros d -> Hp.
    assert (Hdata : caller_data (post url_ (DDict d) cookies_ headers_ auth
                                      method_ charset s)
                    = DDict (fst (inject_form
                                    (forms (self (sys (primed url_ (DDict d)
                                       cookies_ headers_ auth s)))) d))).
    { rewrite post_unfold. cbv zeta. rewrite Hp.
      rewrite exchange_caller_data. apply prepare_data. }
    split; [exact Hdata|]. split; [|split].
    + intros rq (_ & Hrq).
      destruct (prepare_mapping _ _ _ _ _ _ _ _ Hrq) as (ps & _ & Hu & Hb).
      unfold urlencode. rewrite Hu. cbn. now rewrite Hb.
    + intros name key Hn Hf. rewrite Hf, (inject_form_sole name key d Hn).
      cbn [fst].
      assert (Hg : dict_get formname
                     (if dict_mem formkey d
                      then dict_set formname (FStr name) d
                      else dict_set formkey (field_of_key key)
                             (dict_set formname (FStr name) d))
                   = Some (FStr name)).
      { destruct (dict_mem formkey d); [apply dict_get_set_same|].
        rewrite (dict_get_set_other _ _ _ _ _ (not_eq_sym formname_neq_formkey)).
        apply dict_get_set_same. }
      split; [exact Hg|]. intros Heq. rewrite Heq in Hg.
      apply dict_mem_get in Hn. congruence.
    + intros n key Hn Hk Hf. rewrite (inject_form_known _ n key d Hn Hk Hf).
      cbn [fst]. split; [apply dict_get_set_same|].
      intros Heq. pose proof (dict_get_set_same _ formkey (field_of_key key) d) as Hg.
      rewrite Heq in Hg. apply dict_mem_get in Hk. congruence.
Qed.

(** *** Further properties of the calls *)

(** No call changes what the constructor fixed: the base URL, the
    postback switch, the default headers, the session pattern. *)
Theorem configuration_is_kept url_ data cookies_ headers_ auth method_
  charset s :
  same_config
    (self (sys (post url_ data cookies_ headers_ auth method_ charset s)))
    (self s)
  /\ same_config (self (sys (get url_ cookies_ headers_ auth s))) (self s).
Proof. split; [apply post_config | apply get_config]. Qed.

(** A call whose own request is answered by an HTTP error (with a body
    that decodes) updates the scratch fields from that answer and leaves
    the cookies, the session table, the forms, the history and the output
    as they were when the request was made. *)
Theorem http_error_leaves_tables url_ data cookies_ headers_ auth method_
  charset s rq w dt r (txt : Body) :
  answered url_ data cookies_ headers_ auth method_ s rq w dt
           (inr (HTTPError r)) ->
  decode_body charset r = inr txt ->
  let o := post url_ data cookies_ headers_ auth method_ charset s in
  let o1 := primed url_ data cookies_ headers_ auth s in
  headers (self (sys o)) = normalise_headers (resp_headers r)
  /\ status (self (sys o)) = getcode r
  /\ text (self (sys o)) = Some txt
  /\ response (self (sys o)) = Some r
  /\ cookies (self (sys o)) = cookies (self (sys o1))
  /\ sessions (self (sys o)) = sessions (self (sys o1))
  /\ forms (self (sys o)) = forms (self (sys o1))
  /\ history (self (sys o)) = history (self (sys o1))
  /\ stdout (sys o) = stdout (sys o1).
Proof.
  intros Ha Hd. cbv zeta.
  rewrite (post_answered _ _ _ _ _ _ charset _ _ _ _ _ Ha). cbv zeta.
  cbn [sys]. unfold receive. rewrite Hd. cbv zeta.
  destruct (dict_get (lit "web2py_error") _); repeat split.
Qed.

(** One entry per string value, one entry per element of a sequence value,
    in the order of the mapping. *)
Lemma headers_list_of_app (h1 h2 : dict hvalue) :
  headers_list_of (h1 ++ h2) = headers_list_of h1 ++ headers_list_of h2.
Proof. unfold headers_list_of. apply flat_map_app. Qed.

Lemma headers_list_of_In (h : dict hvalue) (k v : str) :
  In (k, v) (headers_list_of h) <->
  exists hv, In (k, hv) h
             /\ match hv with HOne v' => v' = v | HMany vs => In v vs end.
Proof.
  unfold headers_list_of. rewrite in_flat_map. split.
  - intros ([k' hv] & Hin & H). cbn [fst snd] in H. destruct hv as [v'|vs].
    + destruct H as [[= -> ->]|[]]. now exists (HOne v).
    + apply in_map_iff in H. destruct H as (x & [= -> ->] & Hx).
      now exists (HMany vs).
  - intros (hv & Hin & H). exists (k, hv). split; [exact Hin|].
    cbn [fst snd]. destruct hv as [v'|vs].
    + subst v'. now left.
    + apply in_map_iff. now exists v.
Qed.

(** What a call hands to the opener: the URL is the base URL followed by
    [url] and the credentials are the caller's; the entries appended to
    [opener.addheaders] are those of the caller's headers merged under the
    defaults, followed by one [Cookie] entry per cookie, the cookies being
    the caller's or, when none are given, the client's own. A header whose
    value is a string gives one entry; a header whose value is a sequence
    gives one entry per element, in order, where the header stands; there
    are no other entries. *)
Theorem request_sent url_ data cookies_ headers_ auth method_ s rq :
  sends url_ data cookies_ headers_ auth method_ s rq ->
  let o1 := primed url_ data cookies_ headers_ auth s in
  let merged := merge_defaults (default_headers (self s))
                               (match caller_headers o1 with
                                | Some h => h
                                | None => []
                                end) in
  rq_url rq = app (self s) ++ url_
  /\ rq_auth rq = auth
  /\ rq_headers rq
     = headers_list_of merged
       ++ List.map (fun kv => (lit "Cookie", fst kv ++ [equals] ++ snd kv))
                   (match cookies_ with
                    | Some cs => cs
                    | None => cookies (self (sys o1))
                    end)
  /\ (forall k v,
        In (k, v) (headers_list_of merged) <->
        exists hv, In (k, hv) merged
                   /\ match hv with
                      | HOne v' => v' = v
                      | HMany vs => In v vs
                      end)
  /\ (forall h1 k v h2,
        merged = h1 ++ (k, HOne v) :: h2 ->
        headers_list_of merged
        = headers_list_of h1 ++ (k, v) :: headers_list_of h2)
  /\ (forall h1 k vs h2,
        merged = h1 ++ (k, HMany vs) :: h2 ->
        headers_list_of merged
        = headers_list_of h1 ++ List.map (fun v => (k, v)) vs
          ++ headers_list_of h2).
Proof.
  intros (_ & Hrq). cbv zeta.
  split; [|split; [|split; [|split; [|split]]]].
  - destruct (primed_config url_ data cookies_ headers_ auth s) as (<- & _).
    exact (prepare_url _ _ _ _ _ _ _ _ Hrq).
  - unfold prepare in Hrq.
    destruct (encode_data data method_ _) as [[m d'] [ex|body_]]; cbn in Hrq;
      [discriminate|].
    destruct (match body_ with
              | Some b => option_map Some (encode_utf8 b)
              | None => Some None
              end); [|discriminate].
    now injection Hrq as <-.
  - destruct (primed_config url_ data cookies_ headers_ auth s)
      as (_ & _ & Hdh & _).
    rewrite <- Hdh. unfold prepare in Hrq.
    destruct (encode_data data method_ _) as [[m d'] [ex|body_]]; cbn in Hrq;
      [discriminate|].
    destruct (match body_ with
              | Some b => option_map Some (encode_utf8 b)
              | None => Some None
              end); [|discriminate].
    injection Hrq as <-. cbn [rq_headers].
    unfold cookie_headers. now destruct cookies_.
  - intros k v. apply headers_list_of_In.
  - intros h1 k v h2 ->. now rewrite headers_list_of_app.
  - intros h1 k vs h2 ->. now rewrite headers_list_of_app.
Qed.

End ClientProperties.

(* ------------------------------------------------------------------ *)
(** ** The examples *)

(** C1 at [submit_register]: a mapping that names a form, posted to
    another URL than the last one, is primed by a GET. *)
Lemma postback_and_history_witness :
  raised submit_register = None
  /\ exists (primer : @entry (served welcome)) (st : option Z) (dt : nat),
       method_of primer = lit "GET"
       /\ history (self (sys submit_register))
          = history (self after_index)
            ++ [primer; (lit "POST", base ++ lit "submit", st, dt)].
Proof.
  split; [run|].
  pose proof (proj2 (postback_and_history (lit "submit") (DDict register_data)
                       None None None (lit "auto") utf_8 after_index)
                    ltac:(run)) as H.
  cbv zeta in H. destruct H as (m & st & dt & Hm & _ & _ & H).
  set (b := needs_postback _ _ _) in H. vm_compute in b. subst b. cbv iota in H.
  destruct H as (primer & Hp & _ & H).
  exists primer, st, dt. split; [exact Hp|].
  assert (E : m = lit "POST") by (injection Hm as <-; run).
  rewrite <- E. exact H.
Defined.

(** C1 as stated fails at [submit_encoded]: the data is a string, not a
    mapping, so the stated condition does not hold; still the call is
    primed, and the history grows by 2. *)
Lemma string_data_is_primed :
  spec_needs_postback (DStr login_body) (self after_index)
                      (app (self after_index) ++ lit "submit") = false
  /\ raised submit_encoded = None
  /\ List.length (history (self (sys submit_encoded)))
     = (List.length (history (self after_index)) + 2)%nat
  /\ List.map method_of (history (self (sys submit_encoded)))
     = [lit "GET"; lit "GET"; lit "POST"].
Proof. repeat split; run. Qed.

(** C3 at a ticket whose body decodes. *)
Lemma http_error_classified_witness :
  @answered (served failing) (lit "page") DNone None None None (lit "GET")
            (start failing base) page_request 1%nat 0%nat
            (failing 0%nat page_request)
  /\ raised (@post (served failing) (lit "page") DNone None None None
                   (lit "GET") utf_8 (start failing base))
     = Some (RuntimeError (lit "ticket welcome/1")).
Proof.
  assert (Ha : @answered (served failing) (lit "page") DNone None None None
                 (lit "GET") (start failing base) page_request 1%nat 0%nat
                 (failing 0%nat page_request)).
  { repeat split; run. }
  split; [exact Ha|].
  exact (http_error_classified (lit "page") DNone None None None (lit "GET")
           utf_8 (start failing base) page_request 1%nat 0%nat _
           (Text (lit "Internal error")) Ha ltac:(run)).
Defined.

(** C3 as stated fails at a ticket whose body is not UTF-8: the answer is
    an HTTP error with the marker header, and the call raises the decode
    error, not the application fault. *)
Lemma undecodable_ticket_is_no_fault :
  @answered (served garbled) (lit "page") DNone None None None (lit "GET")
            (start garbled base) page_request 1%nat 0%nat
            (inr (HTTPError (ticket [Byte.xff])))
  /\ dict_get (lit "web2py_error")
              (normalise_headers (resp_headers (ticket [Byte.xff])))
     = Some (lit "ticket welcome/1")
  /\ raised (@post (served garbled) (lit "page") DNone None None None
                   (lit "GET") utf_8 (start garbled base))
     = Some (DecodeError utf_8).
Proof. repeat split; run. Qed.

(** C4 at [submit_register]: the body carries the key of the form. *)
Lemma form_name_and_key_sent_witness :
  @sends (served welcome) (lit "submit") (DDict register_data) None None None
         (lit "auto") after_index register_request
  /\ exists ps, rq_data register_request = encode_utf8 (join [ampersand] ps)
                /\ In (lit "_formkey=K1") ps.
Proof.
  assert (Hs : @sends (served welcome) (lit "submit") (DDict register_data)
                 None None None (lit "auto") after_index register_request).
  { split; run. }
  split; [exact Hs|].
  destruct (form_name_and_key_sent _ _ _ _ _ _ _ _ Hs)
    as (ps & Hb & _ & Hk & _).
  destruct (Hk (lit "register") (Some (lit "K1")) eq_refl eq_refl
               ltac:(run)) as (q & Hq & Hin).
  exists ps. split; [exact Hb|].
  injection Hq as <-. exact Hin.
Defined.

(** C5 as stated fails at [reload_raw]: the body is not decoded, and
    [forms] still holds the form of the page before. *)
Lemma undecoded_call_keeps_forms :
  raised reload_raw = None
  /\ text (self (sys reload_raw)) = Some (Raw (body (ok_page "abc")))
  /\ forms (self (sys reload_raw)) = [(lit "register", Some (lit "K1"))].
Proof. repeat split; run. Qed.

(** C6 at [second_visit]: the session [welcome] goes from [abc] to [xyz];
    the call raises nothing, records [xyz] and prints the notice. *)
Lemma session_rotation_witness :
  @answered (served rotating) (lit "page") DNone None None None (lit "GET")
            first_visit second_request 2%nat 1%nat (inl (ok_page "xyz"))
  /\ dict_get (lit "welcome") (sessions (self first_visit)) = Some (lit "abc")
  /\ raised second_visit = None
  /\ dict_get (lit "welcome") (sessions (self (sys second_visit)))
     = Some (lit "xyz")
  /\ exists more,
       stdout (sys second_visit)
       = [lit "Changed session ID welcome"] ++ more.
Proof.
  assert (Ha : @answered (served rotating) (lit "page") DNone None None None
                 (lit "GET") first_visit second_request 2%nat 1%nat
                 (inl (ok_page "xyz"))).
  { repeat split; run. }
  split; [exact Ha|]. split; [run|].
  destruct (session_rotation (lit "page") DNone None None None (lit "GET")
              utf_8 first_visit second_request 2%nat 1%nat (ok_page "xyz")
              (Text register_page) SESSION_REGEX [] [] session_cookie
              (lit "xyz") (lit "welcome") Ha
              ltac:(run) ltac:(run)
              ltac:(run) ltac:(run))
    as (Hr & _ & _ & Hat & Hout & Hfinal & _).
  split; [exact Hr|]. split.
  - apply Hfinal. intros k' v' [].
  - destruct Hout as [more Hmore]. exists more.
    unfold second_visit. rewrite Hmore, Hat. vm_compute. reflexivity.
Defined.

(** C8: the code does not do what the claim says. With the charset [auto],
    line 175 asks the headers of the response for [getparam], which they do
    not have: on a page whose content type declares no charset the call
    raises [AttributeError], not a decode error, and leaves the raw bytes
    as text. It does so on a page that declares [utf-8] too, a page the
    same call decodes when it is given [utf-8]: the lookup the claim
    speaks of never takes place. *)
Theorem auto_charset_raises_attribute_error :
  raised (@post (served undeclared) (lit "page") DNone None None None
                (lit "GET") (Some (lit "auto")) (start undeclared base))
  = Some AttributeError
  /\ text (self (sys (@post (served undeclared) (lit "page") DNone None None
                            None (lit "GET") (Some (lit "auto"))
                            (start undeclared base))))
     = Some (Raw (body undeclared_page))
  /\ raised (@post (served welcome) (lit "page") DNone None None None
                   (lit "GET") (Some (lit "auto")) (start welcome base))
     = Some AttributeError
  /\ raised (@post (served welcome) (lit "page") DNone None None None
                   (lit "GET") utf_8 (start welcome base))
     = None.
Proof. repeat split; run. Qed.

(** C9 at [submit_register] with one header of the caller's: the mapping
    comes back with the two default headers after it, and the data with
    the key of the form. *)
Lemma caller_mappings_mutated_witness :
  extra_headers <> []
  /\ caller_headers
       (@post (served welcome) (lit "submit") (DDict register_data) None
              (Some extra_headers) None (lit "auto") utf_8 after_index)
     = Some (extra_headers ++ DEFAULT_HEADERS)
  /\ caller_data
       (@post (served welcome) (lit "submit") (DDict register_data) None
              (Some extra_headers) None (lit "auto") utf_8 after_index)
     = DDict (register_data ++ [(formkey, FStr (lit "K1"))]).
Proof.
  pose proof (caller_mappings_mutated (lit "submit") (DDict register_data)
                None (Some extra_headers) None (lit "auto") utf_8 after_index)
    as [Hh Hd].
  split; [discriminate|]. split.
  - destruct (Hh extra_headers eq_refl ltac:(discriminate)) as (H & _).
    rewrite H. vm_compute. reflexivity.
  - destruct (Hd register_data eq_refl ltac:(run))
      as (H & _).
    rewrite H. vm_compute. reflexivity.
Defined.

(** C9 as stated fails at an empty [headers] mapping: it lacks the default
    key [user-agent], the call completes, and the mapping is still
    empty. *)
Lemma empty_headers_stay_empty :
  raised (@post (served welcome) (lit "page") DNone None (Some []) None
                (lit "GET") utf_8 (start welcome base)) = None
  /\ dict_mem (lit "user-agent")
              (default_headers (self (start welcome base))) = true
  /\ caller_headers
       (@post (served welcome) (lit "page") DNone None (Some []) None
              (lit "GET") utf_8 (start welcome base))
     = Some [].
Proof. repeat split; run. Qed.

(** C7, at the input where [get] and [post] part: behind basic auth, [get]
    with credentials is refused (it never installs them), and
    [post(url, data=None, auth=..., method="GET")] with the same
    credentials completes. *)
Theorem get_drops_auth :
  raised (@get (served guarded) (lit "page") None None (Some homer)
               (start guarded base))
  = Some (HTTPError unauthorized)
  /\ raised (@post (served guarded) (lit "page") DNone None None (Some homer)
                   (lit "GET") utf_8 (start guarded base))
     = None.
Proof. split; run. Qed.

(** A ticket on a fresh client: the status is recorded, the history stays
    empty. *)
Lemma http_error_leaves_tables_witness :
  @answered (served failing) (lit "page") DNone None None None (lit "GET")
            (start failing base) page_request 1%nat 0%nat
            (failing 0%nat page_request)
  /\ status (self (sys (@post (served failing) (lit "page") DNone None None
                              None (lit "GET") utf_8 (start failing base))))
     = Some 500
  /\ history (self (sys (@post (served failing) (lit "page") DNone None None
                               None (lit "GET") utf_8 (start failing base))))
     = [].
Proof.
  assert (Ha : @answered (served failing) (lit "page") DNone None None None
                 (lit "GET") (start failing base) page_request 1%nat 0%nat
                 (failing 0%nat page_request)).
  { repeat split; run. }
  split; [exact Ha|].
  destruct (http_error_leaves_tables (lit "page") DNone None None None
              (lit "GET") utf_8 (start failing base) page_request 1%nat 0%nat
              _ (Text (lit "Internal error")) Ha
              ltac:(run))
    as (_ & Hst & _ & _ & _ & _ & _ & Hh & _).
  split; [exact Hst | exact Hh].
Defined.

(** The request of a [submit_register] that is given a list-valued header:
    one entry per element, then the default headers, then the cookie of the
    first page recycled. *)
Lemma request_sent_witness :
  @sends (served welcome) (lit "submit") (DDict register_data) None
         (Some accept_headers) None (lit "auto") after_index accept_request
  /\ rq_headers accept_request
     = [(lit "accept", lit "text/html"); (lit "accept", lit "text/plain");
        (lit "user-agent", lit "Mozilla/4.0"); (lit "accept-language", lit "en");
        (lit "Cookie", lit "session_id_welcome=abc")].
Proof.
  assert (Hs : @sends (served welcome) (lit "submit") (DDict register_data)
                 None (Some accept_headers) None (lit "auto") after_index
                 accept_request).
  { split; run. }
  split; [exact Hs|].
  destruct (request_sent _ _ _ _ _ _ _ _ Hs) as (_ & _ & H & _).
  rewrite H. vm_compute. reflexivity.
Defined.

(* ================================================================== *)
(** * Further properties *)

(* ------------------------------------------------------------------ *)
(** ** The history and the method of a call *)

Section History.
Context {lib : Library}.
Implicit Types (s : Sys) (c : WebClient) (r : Response) (dt : Elapsed).

(** What [receive] appends to the history: its entry when it raises
    nothing, and nothing otherwise. *)
Lemma receive_history (m full : str) (charset : option str) r dt
  (error : option exn) s :
  history (self (fst (receive m full charset r dt error s)))
  = history (self s)
    ++ match snd (receive m full charset r dt error s) with
       | None => [(m, full, getcode r, dt)]
       | Some _ => []
       end.
Proof.
  unfold receive. cbv zeta.
  destruct (decode_body charset r) as [ex|txt]; cbn [fst snd];
    [now rewrite app_nil_r|].
  destruct error as [er|].
  - destruct (dict_get (lit "web2py_error") _); cbn [fst snd];
      now rewrite app_nil_r.
  - destruct (opt_truthy charset); [|reflexivity].
    destruct (forms_of_body txt); cbn [fst snd]; [now rewrite app_nil_r|].
    reflexivity.
Qed.

Lemma exchange_history url_ data cookies_ headers_ auth method_ charset s :
  let o := exchange url_ data cookies_ headers_ auth method_ charset s in
  exists l : list entry,
    history (self (sys o)) = history (self s) ++ l
    /\ Forall (fun e => url_of e = app (self s) ++ url_) l
    /\ List.length l = match raised o with None => 1%nat | Some _ => 0%nat end.
Proof.
  cbv zeta. unfold exchange. cbv zeta.
  destruct (p_request _) as [ex|rq] eqn:Hrq.
  { exists []. cbn. rewrite app_nil_r. repeat split. constructor. }
  pose proof (prepare_url _ _ _ _ _ _ _ _ Hrq) as Hu.
  destruct (open_url _ rq) as [[w dt] res].
  by_answer res; cbn [sys raised fst snd];
    try (exists []; cbn; rewrite app_nil_r; repeat split; constructor).
  all: rewrite receive_history; cbn [self history];
    match goal with
    | |- context [snd (receive ?m ?f ?c ?r ?dt ?e ?s)] =>
        destruct (snd (receive m f c r dt e s))
    end;
    [ exists []; repeat split; constructor
    | eexists; split; [reflexivity|]; split; [|reflexivity];
      constructor; [exact Hu | constructor] ].
Qed.

Lemma get_history url_ cookies_ headers_ auth s :
  let o := get url_ cookies_ headers_ auth s in
  exists l : list entry,
    history (self (sys o)) = history (self s) ++ l
    /\ Forall (fun e => url_of e = app (self s) ++ url_) l
    /\ List.length l = match raised o with None => 1%nat | Some _ => 0%nat end.
Proof.
  cbv zeta. rewrite get_is_post, post_unfold. cbv zeta.
  rewrite (primed_no_postback _ DNone _ _ _ _ (needs_postback_no_data _ _)).
  cbn [raised sys caller_headers].
  apply (exchange_history url_ DNone cookies_ headers_ None (lit "GET") utf_8
           (on_self (set_url (Some (app (self s) ++ url_))) s)).
Qed.

(** The history is append-only: whatever a call does, completed or not, it
    keeps the entries it found and adds at most two, all for [app + url];
    it adds at most one when it raises, and none when it raises without
    having primed the form. *)
Theorem history_is_append_only url_ data cookies_ headers_ auth method_
  charset s :
  let o := post url_ data cookies_ headers_ auth method_ charset s in
  exists l : list entry,
    history (self (sys o)) = history (self s) ++ l
    /\ Forall (fun e => url_of e = app (self s) ++ url_) l
    /\ (List.length l <= 2)%nat
    /\ (raised o <> None -> List.length l <= 1)%nat
    /\ (raised o <> None ->
        needs_postback data (self s) (app (self s) ++ url_) = false ->
        l = []).
Proof.
  cbv zeta. rewrite post_unfold. cbv zeta.
  destruct (needs_postback data (self s) (app (self s) ++ url_)) eqn:E.
  - assert (Hp : primed url_ data cookies_ headers_ auth s
                 = let o := get url_ cookies_ headers_ auth
                                (on_self (set_url (Some (app (self s) ++ url_))) s)
                   in {| sys := sys o; caller_data := data;
                         caller_headers := caller_headers o;
                         raised := raised o |}).
    { unfold primed, postback. cbv zeta. cbn [self on_self].
      change (app (set_url (Some (app (self s) ++ url_)) (self s)))
        with (app (self s)).
      change (needs_postback data
                (set_url (Some (app (self s) ++ url_)) (self s)))
        with (needs_postback data (self s)).
      now rewrite E. }
    rewrite Hp. cbv zeta. cbn [raised sys caller_headers].
    destruct (get_history url_ cookies_ headers_ auth
                (on_self (set_url (Some (app (self s) ++ url_))) s))
      as (l1 & H1 & F1 & L1).
    cbv zeta in H1, L1. cbn [self on_self] in H1, F1.
    change (history (set_url (Some (app (self s) ++ url_)) (self s)))
      with (history (self s)) in H1.
    change (app (set_url (Some (app (self s) ++ url_)) (self s)))
      with (app (self s)) in F1.
    destruct (raised (get url_ cookies_ headers_ auth _)) as [ex|] eqn:Hr.
    + exists l1. cbn [sys raised]. split; [exact H1|]. split; [exact F1|].
      rewrite L1. repeat split; try lia; try discriminate; congruence.
    + match goal with
      | |- context [exchange ?u ?d ?c ?h ?a ?m ?cs ?s0] =>
          destruct (exchange_history u d c h a m cs s0) as (l2 & H2 & F2 & L2)
      end.
      cbv zeta in H2, L2.
      destruct (get_config url_ cookies_ headers_ auth
                  (on_self (set_url (Some (app (self s) ++ url_))) s))
        as (Happ & _).
      cbn [self on_self] in Happ.
      change (app (set_url (Some (app (self s) ++ url_)) (self s)))
        with (app (self s)) in Happ.
      rewrite Happ in F2.
      exists (l1 ++ l2). rewrite H2, H1, app_assoc.
      split; [reflexivity|]. split; [apply Forall_app; now split|].
      rewrite length_app, L1, L2.
      destruct (raised (exchange _ _ _ _ _ _ _ _)); repeat split; try lia;
        try discriminate; congruence.
  - rewrite (primed_no_postback _ _ _ _ _ _ E). cbn [raised sys caller_headers].
    match goal with
    | |- context [exchange ?u ?d ?c ?h ?a ?m ?cs ?s0] =>
        destruct (exchange_history u d c h a m cs s0) as (l2 & H2 & F2 & L2)
    end.
    cbv zeta in H2, L2. cbn [self on_self] in H2, F2.
    change (history (set_url (Some (app (self s) ++ url_)) (self s)))
      with (history (self s)) in H2.
    change (app (set_url (Some (app (self s) ++ url_)) (self s)))
      with (app (self s)) in F2.
    exists l2. split; [exact H2|]. split; [exact F2|]. rewrite L2.
    destruct (raised (exchange _ _ _ _ _ _ _ _)) eqn:Hr.
    + repeat split; try lia. intros _ _. now destruct l2.
    + repeat split; try lia; congruence.
Qed.

(** After a call to [url] that raises nothing, no call to the same [url]
    is primed, whatever its data: the last entry of the history is for
    that URL. *)
Theorem repeat_is_not_primed url_ data cookies_ headers_ auth method_
  charset s (data' : Data) :
  let o := post url_ data cookies_ headers_ auth method_ charset s in
  raised o = None ->
  needs_postback data' (self (sys o)) (app (self (sys o)) ++ url_) = false.
Proof.
  cbv zeta. intros Hr.
  destruct (post_own_entry _ _ _ _ _ _ _ _ Hr) as (m & st & dt & H & _).
  cbv zeta in H.
  destruct (post_config url_ data cookies_ headers_ auth method_ charset s)
    as (-> & _).
  unfold needs_postback. rewrite H, rev_unit, str_eqb_refl.
  cbn [negb]. now rewrite andb_false_r.
Qed.

(** [receive] does not touch [self.method]. *)
Lemma receive_method (m full : str) (charset : option str) r dt
  (error : option exn) s :
  method (self (fst (receive m full charset r dt error s))) = method (self s).
Proof.
  unfold receive. cbv zeta.
  destruct (decode_body charset r) as [ex|txt]; [reflexivity|].
  destruct error as [er|].
  - destruct (dict_get (lit "web2py_error") _); reflexivity.
  - destruct (opt_truthy charset); [|reflexivity].
    destruct (forms_of_body txt); reflexivity.
Qed.

(** The method [prepare] records. *)
Lemma prepare_method url_ data cookies_ headers_ auth method_ c :
  p_method (prepare url_ data cookies_ headers_ auth method_ c)
  = recorded_method data method_.
Proof.
  unfold prepare, encode_data, recorded_method.
  destruct data as [|b|d]; [reflexivity | reflexivity |].
  now destruct (inject_form (forms c) d).
Qed.

(** Once the postback phase has raised nothing, the call records its
    method, whether or not it raises afterwards: the argument as given, or
    for [auto], POST when [data] is a string or a mapping (empty ones
    included) and GET when there is none. *)
Theorem method_is_recorded url_ data cookies_ headers_ auth method_
  charset s :
  raised (primed url_ data cookies_ headers_ auth s) = None ->
  method (self (sys (post url_ data cookies_ headers_ auth method_ charset s)))
  = Some (recorded_method data method_).
Proof.
  intros Hp. rewrite post_unfold. cbv zeta. rewrite Hp.
  unfold exchange. cbv zeta. rewrite prepare_method.
  destruct (p_request _) as [ex|rq]; [reflexivity|].
  destruct (open_url _ rq) as [[w dt] res].
  by_answer res; cbn [sys fst]; try reflexivity; now rewrite receive_method.
Qed.

End History.

(* ------------------------------------------------------------------ *)
(** ** Calls that fail after the request was sent *)

Section Failures.
Context {lib : Library}.
Implicit Types (s : Sys) (c : WebClient) (r : Response) (dt : Elapsed).

(** When the decoding step raises: under [auto] line 175 raises whatever
    the body is, and under any other truthy charset the codec decides. *)
Lemma decode_body_error (cs : str) r :
  truthy cs = true ->
  cs = lit "auto" \/ decode cs (body r) = None ->
  decode_body (Some cs) r
  = inl (if str_eqb cs (lit "auto") then AttributeError
         else DecodeError (Some cs)).
Proof.
  intros Ht Hf. unfold decode_body. rewrite Ht.
  destruct (str_eqb cs (lit "auto")) eqn:E; [reflexivity|].
  destruct Hf as [->|Hf]; [now rewrite str_eqb_refl in E|].
  now rewrite Hf.
Qed.

(** When the decoding step raises on the answer to the call's own request
    (an HTTP error or not), the call raises what that step raised, and the
    HTTP error is lost: [AttributeError] when the charset is [auto], whatever
    the answer declares, and the decode error of the charset given when the
    codec fails under it. The call has recorded the response, its status,
    the elapsed time and the raw body; [self.headers] is still that of the
    response before, and cookies, sessions, forms, history and output are
    untouched. *)
Theorem decode_failure_leaves_tables url_ data cookies_ headers_ auth method_
  (cs : str) s rq w dt (res : Response + exn) r :
  answered url_ data cookies_ headers_ auth method_ s rq w dt res ->
  res = inl r \/ res = inr (HTTPError r) ->
  truthy cs = true ->
  cs = lit "auto" \/ decode cs (body r) = None ->
  let o := post url_ data cookies_ headers_ auth method_ (Some cs) s in
  let o1 := primed url_ data cookies_ headers_ auth s in
  raised o = Some (if str_eqb cs (lit "auto") then AttributeError
                   else DecodeError (Some cs))
  /\ response (self (sys o)) = Some r
  /\ status (self (sys o)) = getcode r
  /\ time (self (sys o)) = Some dt
  /\ text (self (sys o)) = Some (Raw (body r))
  /\ headers (self (sys o)) = headers (self (sys o1))
  /\ cookies (self (sys o)) = cookies (self (sys o1))
  /\ sessions (self (sys o)) = sessions (self (sys o1))
  /\ forms (self (sys o)) = forms (self (sys o1))
  /\ history (self (sys o)) = history (self (sys o1))
  /\ stdout (sys o) = stdout (sys o1).
Proof.
  intros Ha Hres Ht Hf. cbv zeta.
  pose proof (decode_body_error cs r Ht Hf) as Hd.
  rewrite (post_answered _ _ _ _ _ _ (Some cs) _ _ _ _ _ Ha). cbv zeta.
  cbn [raised sys].
  destruct Hres as [-> | ->];
    rewrite (receive_decode_error _ _ _ _ _ _ _ _ Hd); repeat split.
Qed.

(** [self.url] is set on line 79 and by nothing after it. *)
Lemma receive_url (m full : str) (charset : option str) r dt
  (error : option exn) s :
  url (self (fst (receive m full charset r dt error s))) = url (self s).
Proof.
  unfold receive. cbv zeta.
  destruct (decode_body charset r) as [ex|txt]; [reflexivity|].
  destruct error as [er|].
  - destruct (dict_get (lit "web2py_error") _); reflexivity.
  - destruct (opt_truthy charset); [|reflexivity].
    destruct (forms_of_body txt); reflexivity.
Qed.

Lemma exchange_url url_ data cookies_ headers_ auth method_ charset s :
  url (self (sys (exchange url_ data cookies_ headers_ auth method_ charset s)))
  = url (self s).
Proof.
  unfold exchange. cbv zeta.
  destruct (p_request _) as [ex|rq]; [reflexivity|].
  destruct (open_url _ rq) as [[w dt] res].
  by_answer res; cbn [sys fst]; try reflexivity; now rewrite receive_url.
Qed.

Lemma primed_url url_ data cookies_ headers_ auth s :
  url (self (sys (primed url_ data cookies_ headers_ auth s)))
  = Some (app (self s) ++ url_).
Proof.
  unfold primed, postback. cbv zeta.
  destruct (needs_postback _ _ _); cbn [sys]; [|reflexivity].
  rewrite get_is_post, post_unfold. cbv zeta.
  rewrite (primed_no_postback _ DNone _ _ _ _ (needs_postback_no_data _ _)).
  cbn [raised sys caller_headers]. rewrite exchange_url. reflexivity.
Qed.

(** After any call, [self.url] is [app + url]. *)
Lemma post_url url_ data cookies_ headers_ auth method_ charset s :
  url (self (sys (post url_ data cookies_ headers_ auth method_ charset s)))
  = Some (app (self s) ++ url_).
Proof.
  rewrite post_unfold. cbv zeta.
  destruct (raised (primed url_ data cookies_ headers_ auth s));
    [apply primed_url|].
  rewrite exchange_url. apply primed_url.
Qed.

(** When the opener raises anything but an HTTP error, the call raises it
    too; of the client only [self.url] and [self.method] have changed
    since the postback phase. *)
Theorem transport_failure_passes_through url_ data cookies_ headers_ auth
  method_ charset s rq w dt (ex : exn) :
  answered url_ data cookies_ headers_ auth method_ s rq w dt (inr ex) ->
  (forall r, ex <> HTTPError r) ->
  let o := post url_ data cookies_ headers_ auth method_ charset s in
  let o1 := primed url_ data cookies_ headers_ auth s in
  raised o = Some ex
  /\ self (sys o)
     = set_method (Some (recorded_method data method_)) (self (sys o1))
  /\ url (self (sys o)) = Some (app (self s) ++ url_)
  /\ world (sys o) = w
  /\ stdout (sys o) = stdout (sys o1).
Proof.
  intros Ha Hne. cbv zeta.
  split; [|split; [|split; [apply post_url|]]].
  - rewrite (post_answered _ _ _ _ _ _ charset _ _ _ _ _ Ha). cbv zeta.
    destruct ex as [r|m|m|cs| | |]; [now destruct (Hne r)|..]; reflexivity.
  - rewrite (post_answered _ _ _ _ _ _ charset _ _ _ _ _ Ha). cbv zeta.
    cbn [sys]. unfold arrival. rewrite prepare_method.
    destruct ex as [r|m|m|cs| | |]; [now destruct (Hne r)|..]; reflexivity.
  - rewrite (post_answered _ _ _ _ _ _ charset _ _ _ _ _ Ha). cbv zeta.
    destruct ex as [r|m|m|cs| | |]; [now destruct (Hne r)|..]; split; reflexivity.
Qed.

End Failures.

(* ------------------------------------------------------------------ *)
(** ** What the method argument reaches *)

Section Method.
Context {lib : Library}.
Implicit Types (s : Sys) (c : WebClient) (r : Response) (dt : Elapsed).

(** The assignments, computed by need. *)
Ltac erase_setters :=
  lazy beta iota delta
    [fst sans_method_sys sans_method_client on_self set_history set_method
     set_forms set_sessions set_cookies set_headers set_text set_status
     set_time set_response self world stdout app postbacks forms history
     cookies default_headers sessions session_regex headers url method
     response time status text].

Lemma prepare_sans_method url_ data cookies_ headers_ auth (m1 m2 : str) c :
  p_request (prepare url_ data cookies_ headers_ auth m1 c)
  = p_request (prepare url_ data cookies_ headers_ auth m2 c)
  /\ p_data (prepare url_ data cookies_ headers_ auth m1 c)
     = p_data (prepare url_ data cookies_ headers_ auth m2 c)
  /\ p_headers (prepare url_ data cookies_ headers_ auth m1 c)
     = p_headers (prepare url_ data cookies_ headers_ auth m2 c).
Proof.
  unfold prepare, encode_data.
  destruct data as [|b|d]; [repeat split | repeat split |].
  destruct (inject_form (forms c) d) as [d' e]. repeat split.
Qed.

Lemma receive_sans_method (m1 m2 full : str) (x1 x2 : option str)
  (charset : option str) r dt (error : option exn) c (w : World)
  (out : list str) :
  let s1 := {| self := set_method x1 c; world := w; stdout := out |} in
  let s2 := {| self := set_method x2 c; world := w; stdout := out |} in
  sans_method_sys (fst (receive m1 full charset r dt error s1))
  = sans_method_sys (fst (receive m2 full charset r dt error s2))
  /\ snd (receive m1 full charset r dt error s1)
     = snd (receive m2 full charset r dt error s2).
Proof.
  cbv zeta. unfold receive. cbv zeta.
  destruct (decode_body charset r) as [ex|txt]; [split; reflexivity|].
  destruct error as [er|].
  - destruct (dict_get (lit "web2py_error") _); split; reflexivity.
  - destruct (opt_truthy charset).
    + destruct (forms_of_body txt); (split; [|reflexivity]); erase_setters;
        [reflexivity | now rewrite !map_app].
    + split; [|reflexivity]. erase_setters. now rewrite !map_app.
Qed.

(** The [method] argument reaches nothing but [self.method] and the method
    of the history entry: two calls that differ in it only send the same
    request and end alike in everything else. *)
Theorem method_is_only_recorded url_ data cookies_ headers_ auth
  (m1 m2 : str) charset s :
  sans_method (post url_ data cookies_ headers_ auth m1 charset s)
  = sans_method (post url_ data cookies_ headers_ auth m2 charset s)
  /\ forall rq, sends url_ data cookies_ headers_ auth m1 s rq
                <-> sends url_ data cookies_ headers_ auth m2 s rq.
Proof.
  split.
  - rewrite !post_unfold. cbv zeta.
    destruct (raised (primed url_ data cookies_ headers_ auth s));
      [reflexivity|].
    unfold exchange. cbv zeta.
    destruct (prepare_sans_method url_ data cookies_
                (caller_headers (primed url_ data cookies_ headers_ auth s))
                auth m1 m2 (self (sys (primed url_ data cookies_ headers_ auth s))))
      as (-> & -> & ->).
    destruct (p_request _) as [ex|rq]; [reflexivity|].
    cbn [world on_self].
    destruct (open_url _ rq) as [[w dt] res].
    cbn [self stdout on_self].
    by_answer res; unfold sans_method; cbn [sys raised caller_data caller_headers fst snd];
      try reflexivity.
    all: match goal with
         | |- context [receive ?a ?f ?cs ?r ?dt ?e
                         {| self := set_method ?x1 ?c; world := ?w; stdout := ?o |}] =>
             destruct (receive_sans_method
                         (p_method (prepare url_ data cookies_
                            (caller_headers (primed url_ data cookies_ headers_ auth s))
                            auth m1 c))
                         (p_method (prepare url_ data cookies_
                            (caller_headers (primed url_ data cookies_ headers_ auth s))
                            auth m2 c))
                         f
                         (Some (p_method (prepare url_ data cookies_
                            (caller_headers (primed url_ data cookies_ headers_ auth s))
                            auth m1 c)))
                         (Some (p_method (prepare url_ data cookies_
                            (caller_headers (primed url_ data cookies_ headers_ auth s))
                            auth m2 c)))
                         cs r dt e c w o) as [H1 H2]
         end; cbv zeta in H1, H2; now rewrite H1, H2.
  - intros rq. unfold sends. cbv zeta.
    destruct (prepare_sans_method url_ data cookies_
                (caller_headers (primed url_ data cookies_ headers_ auth s))
                auth m1 m2 (self (sys (primed url_ data cookies_ headers_ auth s))))
      as (-> & _). tauto.
Qed.

End Method.

(* ------------------------------------------------------------------ *)
(** ** The response headers, lower-cased (lines 178-180) *)

Lemma lower_char_idempotent (c : char) : lower_char (lower_char c) = lower_char c.
Proof.
  unfold lower_char.
  destruct ((65 <=? c) && (c <=? 90))%N eqn:A.
  - apply andb_true_iff in A. destruct A as [A1 A2].
    apply N.leb_le in A1, A2.
    replace ((65 <=? c + 32) && (c + 32 <=? 90))%N with false
      by (symmetry; apply andb_false_iff; right; apply N.leb_gt; lia).
    replace ((192 <=? c + 32) && (c + 32 <=? 222) && negb (c + 32 =? 215))%N
      with false; [reflexivity|].
    symmetry. apply andb_false_iff. left. apply andb_false_iff. left.
    apply N.leb_gt. lia.
  - destruct ((192 <=? c) && (c <=? 222) && negb (c =? 215))%N eqn:B.
    + apply andb_true_iff in B. destruct B as [B _].
      apply andb_true_iff in B. destruct B as [B1 B2].
      apply N.leb_le in B1, B2.
      replace ((65 <=? c + 32) && (c + 32 <=? 90))%N with false
        by (symmetry; apply andb_false_iff; right; apply N.leb_gt; lia).
      replace ((192 <=? c + 32) && (c + 32 <=? 222) && negb (c + 32 =? 215))%N
        with false; [reflexivity|].
      symmetry. apply andb_false_iff. left. apply andb_false_iff. right.
      apply N.leb_gt. lia.
    + now rewrite A, B.
Qed.

Lemma lower_idempotent (s : str) : lower (lower s) = lower s.
Proof.
  unfold lower. rewrite map_map. apply map_ext. apply lower_char_idempotent.
Qed.

Lemma first_ci_has_header (name : str) (hs : list (str * str)) :
  has_header name hs = match first_ci name hs with Some _ => true | None => false end.
Proof.
  unfold has_header. induction hs as [|[k v] hs IH]; [reflexivity|].
  cbn [existsb first_ci fst]. destruct (str_eqb (lower k) (lower name)); auto.
Qed.

Lemma first_ci_lower (name : str) (hs : list (str * str)) :
  first_ci (lower name) hs = first_ci name hs.
Proof.
  induction hs as [|[k v] hs IH]; [reflexivity|].
  cbn [first_ci]. now rewrite lower_idempotent, IH.
Qed.

Lemma normalise_headers_fold (hs l : list (str * str)) (acc : dict str)
  (name : str) :
  incl l hs ->
  dict_get (lower name)
    (fold_left (fun d h =>
                  dict_set (lower (fst h))
                           (match first_ci (fst h) hs with
                            | Some v => v
                            | None => snd h
                            end) d) l acc)
  = if has_header name l then first_ci name hs else dict_get (lower name) acc.
Proof.
  revert acc. induction l as [|[k v] l IH]; intros acc Hin; [reflexivity|].
  cbn [fold_left]. rewrite IH by (intros x Hx; apply Hin; now right).
  unfold has_header. cbn [existsb fst snd].
  fold (has_header name l).
  destruct (has_header name l); [now rewrite orb_true_r|].
  rewrite orb_false_r.
  destruct (str_eqb (lower k) (lower name)) eqn:E.
  - apply str_eqb_eq in E. rewrite E, dict_get_set_same.
    assert (Hk : first_ci k hs = first_ci name hs)
      by (rewrite <- (first_ci_lower k), E; apply first_ci_lower).
    rewrite Hk.
    assert (Hh : has_header name hs = true).
    { unfold has_header. apply existsb_exists. exists (k, v).
      split; [apply Hin; now left|]. cbn [fst]. rewrite E. apply str_eqb_refl. }
    rewrite first_ci_has_header in Hh.
    now destruct (first_ci name hs).
  - apply str_eqb_neq in E. now rewrite dict_get_set_other.
Qed.

(** Looking a header up by its lower-cased name gives the value of the
    first line of the response with that name, up to case. *)
Lemma normalise_headers_get (hs : list (str * str)) (name : str) :
  dict_get (lower name) (normalise_headers hs) = first_ci name hs.
Proof.
  unfold normalise_headers.
  rewrite normalise_headers_fold by apply incl_refl.
  pose proof (first_ci_has_header name hs) as H.
  destruct (has_header name hs); [reflexivity|].
  now destruct (first_ci name hs).
Qed.

(** ** The cookie map *)

Lemma split_not_nil (c : char) (s : str) : split c s <> [].
Proof.
  destruct s as [|x s]; cbn; [discriminate|].
  destruct (N.eqb x c); [discriminate|].
  destruct (split c s); discriminate.
Qed.

Lemma dict_set_not_nil {V : Type} (k : str) (v : V) (d : dict V) :
  dict_set k v d <> [].
Proof.
  destruct d as [|[k' v'] d]; cbn; [discriminate|].
  destruct (str_eqb k' k); discriminate.
Qed.

Lemma fold_cookies_not_nil (f : str -> str * str) (items : list str)
  (acc : dict str) :
  acc <> [] ->
  fold_left (fun cookies item => let '(k, v) := f item in dict_set k v cookies)
            items acc <> [].
Proof.
  revert acc. induction items as [|item items IH]; intros acc H; [exact H|].
  cbn [fold_left]. apply IH. destruct (f item). apply dict_set_not_nil.
Qed.

(** The cookie map is empty exactly when [self.headers] has no
    [set-cookie]: a header that is there, even empty, gives a cookie. *)
Lemma parse_headers_in_cookies_nil (hs : dict str) :
  parse_headers_in_cookies hs = [] <-> dict_get (lit "set-cookie") hs = None.
Proof.
  unfold parse_headers_in_cookies.
  destruct (dict_get (lit "set-cookie") hs) as [h|]; [|tauto].
  split; [|discriminate]. intros H. exfalso.
  destruct (split comma h) as [|item items] eqn:E;
    [now apply (split_not_nil comma h)|].
  cbn [fold_left] in H. revert H. apply fold_cookies_not_nil.
  destruct (parse_cookie_item item). apply dict_set_not_nil.
Qed.

Lemma slice_from_zero (s : str) : slice_from s 0 = s.
Proof.
  unfold slice_from, slice_bound. simpl. rewrite Z.min_l by lia. reflexivity.
Qed.

(** An item whose part before the first [;] has no [=]: [find] returns
    [-1] on line 61, so the name is that part without its last character
    and the value is that part whole (both trimmed). *)
Theorem cookie_item_without_equals (p rest : str) :
  ~ In semicolon p -> ~ In equals p ->
  parse_cookie_item (p ++ semicolon :: rest)
  = (strip (removelast p), strip p).
Proof.
  intros Hs He. unfold parse_cookie_item. cbv zeta.
  rewrite find_char_first by assumption. rewrite slice_to_prefix.
  rewrite find_char_absent by assumption.
  rewrite slice_to_minus_one. change (-1 + 1) with 0.
  now rewrite slice_from_zero.
Qed.

Lemma cookie_item_without_equals_witness :
  ~ In semicolon (lit "HttpOnly") /\ ~ In equals (lit "HttpOnly")
  /\ parse_cookie_item (lit "HttpOnly; Path=/")
     = (lit "HttpOnl", lit "HttpOnly").
Proof.
  assert (Hs : ~ In semicolon (lit "HttpOnly"))
    by (vm_compute; intuition discriminate).
  assert (He : ~ In equals (lit "HttpOnly"))
    by (vm_compute; intuition discriminate).
  split; [exact Hs|]. split; [exact He|].
  exact (cookie_item_without_equals (lit "HttpOnly") (lit " Path=/") Hs He).
Defined.

(* ------------------------------------------------------------------ *)
(** ** What the injections leave of the caller's mapping (lines 139-150) *)

Lemma dict_set_absent {V : Type} (k : str) (v : V) (d : dict V) :
  dict_mem k d = false -> dict_set k v d = d ++ [(k, v)].
Proof.
  unfold dict_mem. induction d as [|[k' v'] d IH]; cbn; [reflexivity|].
  destruct (str_eqb k' k); [discriminate|].
  intros H. now rewrite IH.
Qed.

Lemma dict_get_app_l {V : Type} (k : str) (v : V) (d e : dict V) :
  dict_get k d = Some v -> dict_get k (d ++ e) = Some v.
Proof.
  induction d as [|[k' v'] d IH]; cbn; [discriminate|].
  destruct (str_eqb k' k); auto.
Qed.

Lemma dict_mem_app_l {V : Type} (k : str) (d e : dict V) :
  dict_mem k (d ++ e) = false -> dict_mem k d = false.
Proof.
  unfold dict_mem. destruct (dict_get k d) as [v|] eqn:E; [|reflexivity].
  now rewrite (dict_get_app_l k v d e E).
Qed.

(** The injections only append: the mapping keeps the caller's entries,
    their values and their order, and gains at most the two fields
    [_formname] and [_formkey], each only where the caller gave none. *)
Theorem injection_only_appends (forms_ : dict (option str)) (d : dict field) :
  exists extra : dict field,
    fst (inject_form forms_ d) = d ++ extra
    /\ (List.length extra <= 2)%nat
    /\ Forall (fun kv => (fst kv = formname \/ fst kv = formkey)
                         /\ dict_mem (fst kv) d = false) extra
    /\ (forall k v, dict_get k d = Some v ->
                    dict_get k (fst (inject_form forms_ d)) = Some v).
Proof.
  assert (H : exists extra : dict field,
             fst (inject_form forms_ d) = d ++ extra
             /\ (List.length extra <= 2)%nat
             /\ Forall (fun kv => (fst kv = formname \/ fst kv = formkey)
                                  /\ dict_mem (fst kv) d = false) extra).
  { unfold inject_form. fold formname formkey.
    set (d1 := if negb (dict_mem formname d) && Nat.eqb (List.length forms_) 1
               then match dict_keys forms_ with
                    | name :: _ => dict_set formname (FStr name) d
                    | [] => d
                    end
               else d).
    assert (H1 : exists e1 : dict field,
               d1 = d ++ e1 /\ (List.length e1 <= 1)%nat
               /\ Forall (fun kv => (fst kv = formname \/ fst kv = formkey)
                                    /\ dict_mem (fst kv) d = false) e1).
    { subst d1. destruct (dict_mem formname d) eqn:Hn; cbn [negb andb].
      - exists []. rewrite app_nil_r. repeat split; [cbn; lia | constructor].
      - destruct (Nat.eqb (List.length forms_) 1);
          [|exists []; rewrite app_nil_r; repeat split; [cbn; lia | constructor]].
        destruct (dict_keys forms_) as [|name ks];
          [exists []; rewrite app_nil_r; repeat split; [cbn; lia | constructor]|].
        exists [(formname, FStr name)]. rewrite (dict_set_absent _ _ _ Hn).
        repeat split; [cbn; lia|]. constructor; [|constructor].
        split; [now left | exact Hn]. }
    destruct H1 as (e1 & -> & Hl & Hf).
    assert (Hsame : exists extra : dict field,
               d ++ e1 = d ++ extra /\ (List.length extra <= 2)%nat
               /\ Forall (fun kv => (fst kv = formname \/ fst kv = formkey)
                                    /\ dict_mem (fst kv) d = false) extra)
      by (exists e1; repeat split; [lia | exact Hf]).
    destruct (dict_mem formname (d ++ e1)); cbn [andb fst]; [|exact Hsame].
    destruct (dict_mem formkey (d ++ e1)) eqn:Hk; cbn [negb fst]; [exact Hsame|].
    destruct (dict_get formname (d ++ e1)) as [[n| |l]|]; cbn [fst];
      try exact Hsame.
    destruct (dict_get n forms_) as [key|]; cbn [fst]; [|exact Hsame].
    exists (e1 ++ [(formkey, field_of_key key)]).
    rewrite (dict_set_absent _ _ _ Hk), <- app_assoc.
    split; [reflexivity|]. split; [rewrite length_app; cbn; lia|].
    apply Forall_app. split; [exact Hf|]. constructor; [|constructor].
    split; [now right|]. exact (dict_mem_app_l _ _ _ Hk). }
  destruct H as (extra & He & Hl & Hf). exists extra.
  split; [exact He|]. split; [exact Hl|]. split; [exact Hf|].
  intros k v Hg. rewrite He. now apply dict_get_app_l.
Qed.

(** A [_formname] that is a list cannot be looked up in [forms]. *)
Lemma inject_form_unhashable (forms_ : dict (option str)) (l : list str)
  (d : dict field) :
  dict_get formname d = Some (FList l) -> dict_mem formkey d = false ->
  inject_form forms_ d = (d, Some TypeError).
Proof.
  intros Hn Hk. unfold inject_form. fold formname formkey.
  assert (Hm : dict_mem formname d = true) by (unfold dict_mem; now rewrite Hn).
  rewrite Hm. cbn [negb andb]. rewrite Hm, Hk. cbn [negb andb].
  now rewrite Hn.
Qed.

Section Injections.
Context {lib : Library}.
Implicit Types (s : Sys) (c : WebClient) (r : Response) (dt : Elapsed).

(** A mapping whose [_formname] is a list and which has no [_formkey]: once
    the postback phase is through, line 148 raises [TypeError]; the method
    is recorded, and nothing is sent, injected or logged. *)
Theorem list_formname_is_rejected url_ (d : dict field) (l : list str)
  cookies_ headers_ auth method_ charset s :
  let o := post url_ (DDict d) cookies_ headers_ auth method_ charset s in
  let o1 := primed url_ (DDict d) cookies_ headers_ auth s in
  dict_get formname d = Some (FList l) -> dict_mem formkey d = false ->
  raised o1 = None ->
  raised o = Some TypeError
  /\ caller_data o = DDict d
  /\ sys o = on_self (set_method (Some (recorded_method (DDict d) method_)))
                     (sys o1)
  /\ forall rq, ~ sends url_ (DDict d) cookies_ headers_ auth method_ s rq.
Proof.
  cbv zeta. intros Hn Hk Hp.
  assert (Hprep : forall h c,
             prepare url_ (DDict d) cookies_ h auth method_ c
             = {| p_method := recorded_method (DDict d) method_;
                  p_data := DDict d;
                  p_headers := match h with
                               | Some (_ :: _) =>
                                   Some (merge_defaults (default_headers c)
                                           (match h with
                                            | Some h' => h'
                                            | None => []
                                            end))
                               | _ => h
                               end;
                  p_request := inl TypeError |}).
  { intros h c. unfold prepare, encode_data.
    rewrite (inject_form_unhashable _ l d Hn Hk). reflexivity. }
  split; [|split; [|split]].
  - rewrite post_unfold. cbv zeta. rewrite Hp. unfold exchange. cbv zeta.
    rewrite Hprep. reflexivity.
  - rewrite post_unfold. cbv zeta. rewrite Hp. unfold exchange. cbv zeta.
    rewrite Hprep. reflexivity.
  - rewrite post_unfold. cbv zeta. rewrite Hp. unfold exchange. cbv zeta.
    rewrite Hprep. reflexivity.
  - intros rq (_ & Hrq). rewrite Hprep in Hrq. discriminate.
Qed.

End Injections.

(** ** The headers and the cookies of a completed call *)

Lemma dict_set_keys_all {V : Type} (P : str -> Prop) (k : str) (v : V)
  (d : dict V) :
  P k -> Forall (fun kv => P (fst kv)) d ->
  Forall (fun kv => P (fst kv)) (dict_set k v d).
Proof.
  intros Hk. induction d as [|[k' v'] d IH]; cbn; intros H.
  - constructor; [exact Hk | constructor].
  - inversion H as [|x y Hx Hy]; subst.
    destruct (str_eqb k' k); constructor; auto.
Qed.

Lemma normalise_headers_keys (hs : list (str * str)) :
  Forall (fun kv => lower (fst kv) = fst kv) (normalise_headers hs).
Proof.
  unfold normalise_headers.
  generalize hs at 1. intros hs0.
  assert (G : forall (l : list (str * str)) (acc : dict str),
             Forall (fun kv => lower (fst kv) = fst kv) acc ->
             Forall (fun kv => lower (fst kv) = fst kv)
               (fold_left (fun d h =>
                  dict_set (lower (fst h))
                           (match first_ci (fst h) hs0 with
                            | Some v => v
                            | None => snd h
                            end) d) l acc)).
  { induction l as [|h l IH]; intros acc Ha; [exact Ha|].
    cbn [fold_left]. apply IH.
    apply (dict_set_keys_all (fun k => lower k = k)); [|exact Ha].
    apply lower_idempotent. }
  apply G. constructor.
Qed.

Lemma normalise_headers_exact_case (hs : list (str * str)) (k : str) :
  lower k <> k -> dict_get k (normalise_headers hs) = None.
Proof.
  intros Hk. destruct (dict_get k (normalise_headers hs)) as [v|] eqn:E;
    [|reflexivity].
  apply dict_get_In in E.
  pose proof (normalise_headers_keys hs) as F.
  rewrite Forall_forall in F. apply F in E. cbn in E. contradiction.
Qed.

Section HeadersAndCookies.
Context {lib : Library}.
Implicit Types (s : Sys) (c : WebClient) (r : Response) (dt : Elapsed).

(** After a call that raises nothing, [self.headers] answers a lower-cased
    name with the first header line of the response that has that name up to
    case, and answers no name that is not lower-cased; [self.cookies] holds
    what that response set and nothing of what it held before: the items of
    the first [Set-Cookie] line, and nothing when there is no such line. *)
Theorem completed_call_headers_and_cookies url_ data cookies_ headers_ auth
  method_ charset s :
  let o := post url_ data cookies_ headers_ auth method_ charset s in
  raised o = None ->
  exists r,
    response (self (sys o)) = Some r
    /\ (forall name, dict_get (lower name) (headers (self (sys o)))
                     = first_ci name (resp_headers r))
    /\ (forall k, lower k <> k -> dict_get k (headers (self (sys o))) = None)
    /\ cookies (self (sys o))
       = match first_ci (lit "set-cookie") (resp_headers r) with
         | None => []
         | Some h =>
             fold_left (fun cookies item =>
                          let '(k, v) := parse_cookie_item item in
                          dict_set k v cookies)
                       (split comma h) []
         end
    /\ (cookies (self (sys o)) = []
        <-> first_ci (lit "set-cookie") (resp_headers r) = None).
Proof.
  cbv zeta. intros Hr.
  destruct (post_completed _ _ _ _ _ _ _ _ Hr)
    as (rq & w & dt & r & txt & Ha & Hd).
  rewrite (post_answered _ _ _ _ _ _ charset _ _ _ _ _ Ha). cbv zeta.
  cbn [sys]. rewrite (receive_ok _ _ _ _ _ _ _ Hd).
  cbn [fst self response headers cookies].
  exists r. split; [reflexivity|].
  split; [intros name; apply normalise_headers_get|].
  split; [intros k; apply normalise_headers_exact_case|].
  assert (Hc : dict_get (lit "set-cookie") (normalise_headers (resp_headers r))
               = first_ci (lit "set-cookie") (resp_headers r))
    by apply (normalise_headers_get (resp_headers r) (lit "set-cookie")).
  split.
  - unfold parse_headers_in_cookies. now rewrite Hc.
  - rewrite <- Hc. apply parse_headers_in_cookies_nil.
Qed.

End HeadersAndCookies.

(* ------------------------------------------------------------------ *)
(** ** The body of the request *)

Lemma sequence_from {A : Type} (l : list (option A)) (xs : list A) (x : A) :
  sequence l = Some xs -> In x xs -> In (Some x) l.
Proof.
  revert xs. induction l as [|[y|] l IH]; intros xs; simpl.
  - intros [= <-] [].
  - destruct (sequence l) as [ys|]; [|discriminate].
    intros [= <-] [->|H]; [now left | right; now apply (IH ys)].
  - discriminate.
Qed.

Lemma utf8_char_bytes (c : char) (bs : list N) :
  utf8_char c = Some bs -> Forall (fun b => (b < 256)%N) bs.
Proof.
  unfold utf8_char.
  destruct (c <? 128)%N eqn:E1.
  { intros H. assert (bs = [c]) by congruence. subst bs.
    apply N.ltb_lt in E1. apply Forall_cons; [lia | apply Forall_nil]. }
  destruct (c <? 2048)%N eqn:E2.
  { intros H.
    assert (bs = [(192 + c / 64)%N; (128 + c mod 64)%N]) by congruence.
    subst bs. apply N.ltb_lt in E2.
    assert (c / 64 < 32)%N by (apply N.Div0.div_lt_upper_bound; lia).
    assert (c mod 64 < 64)%N by (apply N.mod_lt; lia).
    repeat (apply Forall_cons; [lia|]). apply Forall_nil. }
  destruct (c <? 65536)%N eqn:E3.
  { destruct ((55296 <=? c) && (c <? 57344))%N; [discriminate|].
    intros H.
    assert (bs = [(224 + c / 4096)%N; (128 + (c / 64) mod 64)%N;
                  (128 + c mod 64)%N]) by congruence.
    subst bs. apply N.ltb_lt in E3.
    assert (c / 4096 < 16)%N by (apply N.Div0.div_lt_upper_bound; lia).
    assert ((c / 64) mod 64 < 64)%N by (apply N.mod_lt; lia).
    assert (c mod 64 < 64)%N by (apply N.mod_lt; lia).
    repeat (apply Forall_cons; [lia|]). apply Forall_nil. }
  destruct (c <? 1114112)%N eqn:E4; [|discriminate].
  intros H.
  assert (bs = [(240 + c / 262144)%N; (128 + (c / 4096) mod 64)%N;
                (128 + (c / 64) mod 64)%N; (128 + c mod 64)%N]) by congruence.
  subst bs. apply N.ltb_lt in E4.
  assert (c / 262144 < 5)%N by (apply N.Div0.div_lt_upper_bound; lia).
  assert ((c / 4096) mod 64 < 64)%N by (apply N.mod_lt; lia).
  assert ((c / 64) mod 64 < 64)%N by (apply N.mod_lt; lia).
  assert (c mod 64 < 64)%N by (apply N.mod_lt; lia).
  repeat (apply Forall_cons; [lia|]). apply Forall_nil.
Qed.

Lemma utf8_bytes (s : str) (bs : list N) :
  utf8 s = Some bs -> Forall (fun b => (b < 256)%N) bs.
Proof.
  revert bs. induction s as [|c s IH]; intros bs; cbn [utf8].
  - intros [= <-]. constructor.
  - destruct (utf8_char c) as [cs|] eqn:E; [|discriminate].
    destruct (utf8 s) as [r|]; [|discriminate].
    intros [= <-]. apply Forall_app. split; [|now apply IH].
    exact (utf8_char_bytes c cs E).
Qed.

Lemma hex_digit_safe (n : N) : (n < 16)%N -> always_safe (hex_digit n) = true.
Proof.
  intros H. destruct n as [|p]; [reflexivity|].
  do 4 (destruct p as [p|p|]; try reflexivity); lia.
Qed.

Lemma always_safe_form_safe (c : char) :
  always_safe c = true -> form_safe c = true.
Proof. unfold form_safe. now intros ->. Qed.

Lemma quote_byte_safe (b : N) :
  (b < 256)%N -> Forall (fun ch => form_safe ch = true) (quote_byte b).
Proof.
  intros H. unfold quote_byte.
  destruct (always_safe b) eqn:E.
  { constructor; [now apply always_safe_form_safe | constructor]. }
  destruct (b =? 32)%N; [repeat constructor|].
  constructor; [reflexivity|].
  constructor; [|constructor; [|constructor]];
    apply always_safe_form_safe, hex_digit_safe.
  - apply N.Div0.div_lt_upper_bound. lia.
  - apply N.mod_lt. lia.
Qed.

Lemma quote_plus_safe (s q : str) :
  quote_plus s = Some q -> Forall (fun ch => form_safe ch = true) q.
Proof.
  unfold quote_plus. destruct (utf8 s) as [bs|] eqn:E; [|discriminate].
  intros [= <-]. apply utf8_bytes in E.
  induction E as [|b bs Hb _ IH]; cbn; [constructor|].
  apply Forall_app. split; [now apply quote_byte_safe | exact IH].
Qed.

Lemma urlencode_entry_safe (kv : str * field) (ps : list str) :
  urlencode_entry kv = Some ps ->
  Forall (Forall (fun ch => form_safe ch = true)) ps.
Proof.
  unfold urlencode_entry.
  destruct (quote_plus (fst kv)) as [k|] eqn:Ek; [|discriminate].
  apply quote_plus_safe in Ek.
  assert (P : forall (l : list str),
             sequence (List.map (fun v => option_map (fun q => k ++ [equals] ++ q)
                                                     (quote_plus v)) l)
             = Some ps ->
             Forall (Forall (fun ch => form_safe ch = true)) ps).
  { intros l Hs. apply Forall_forall. intros p Hp.
    apply (sequence_from _ _ _ Hs) in Hp.
    apply in_map_iff in Hp. destruct Hp as (v & Hv & _).
    destruct (quote_plus v) as [q|] eqn:Eq; [|discriminate].
    injection Hv as <-. apply quote_plus_safe in Eq.
    apply Forall_app. split; [exact Ek|].
    apply Forall_cons; [reflexivity | exact Eq]. }
  destruct (snd kv) as [s| |l]; intros H.
  - apply (P [s]). exact H.
  - apply (P [lit "None"]). exact H.
  - apply (P l). exact H.
Qed.

Lemma urlencode_params_safe (d : dict field) (ps : list str) :
  urlencode_params d = Some ps ->
  Forall (Forall (fun ch => form_safe ch = true)) ps.
Proof.
  unfold urlencode_params.
  destruct (sequence (List.map urlencode_entry d)) as [es|] eqn:Hs;
    [|discriminate].
  intros [= <-]. apply Forall_forall. intros p Hp.
  apply in_concat in Hp. destruct Hp as (e & He & Hp).
  apply (sequence_from _ _ _ Hs) in He.
  apply in_map_iff in He. destruct He as (kv & Hkv & _).
  apply urlencode_entry_safe in Hkv.
  rewrite Forall_forall in Hkv. now apply Hkv.
Qed.

Lemma join_safe (ps : list str) :
  Forall (Forall (fun ch => form_safe ch = true)) ps ->
  Forall (fun ch => form_safe ch = true) (join [ampersand] ps).
Proof.
  induction 1 as [|p ps Hp Hps IH]; [constructor|].
  cbn [join]. destruct ps as [|p' ps']; [exact Hp|].
  apply Forall_app. split; [exact Hp|].
  apply Forall_app. split; [repeat constructor | exact IH].
Qed.

Lemma form_safe_ascii (c : char) : form_safe c = true -> (c < 128)%N.
Proof.
  unfold form_safe, always_safe. rewrite !orb_true_iff, !andb_true_iff.
  rewrite !N.leb_le, !N.eqb_eq. lia.
Qed.

Lemma utf8_ascii (s : str) :
  Forall (fun c => (c < 128)%N) s -> utf8 s = Some s.
Proof.
  induction 1 as [|c s Hc _ IH]; [reflexivity|].
  cbn [utf8]. unfold utf8_char.
  apply N.ltb_lt in Hc. rewrite Hc, IH. reflexivity.
Qed.

(** What [urlencode] returns is made of unreserved characters and of
    [%], [+], [=] and [&] only, so encoding it (line 158) cannot fail and
    gives one byte per character. *)
Lemma urlencode_safe (d : dict field) (b : str) :
  urlencode d = Some b ->
  Forall (fun ch => form_safe ch = true) b
  /\ encode_utf8 b = Some (List.map byte_of b).
Proof.
  unfold urlencode.
  destruct (urlencode_params d) as [ps|] eqn:E; [|discriminate].
  intros [= <-]. apply urlencode_params_safe, join_safe in E.
  split; [exact E|].
  unfold encode_utf8. rewrite utf8_ascii; [reflexivity|].
  eapply Forall_impl; [|exact E]. apply form_safe_ascii.
Qed.

Section Body.
Context {lib : Library}.
Implicit Types (s : Sys) (c : WebClient) (r : Response) (dt : Elapsed).

(** The body of the request a call sends: none without data; the UTF-8
    encoding of a string given as data; for a mapping, the characters of
    its form encoding, one byte each, all of them unreserved characters or
    [%], [+], [=], [&]. *)
Theorem request_body url_ data cookies_ headers_ auth method_ s rq :
  sends url_ data cookies_ headers_ auth method_ s rq ->
  let o1 := primed url_ data cookies_ headers_ auth s in
  match data with
  | DNone => rq_data rq = None
  | DStr b => exists bs, encode_utf8 b = Some bs /\ rq_data rq = Some bs
  | DDict d =>
      exists b, urlencode (fst (inject_form (forms (self (sys o1))) d)) = Some b
                /\ rq_data rq = Some (List.map byte_of b)
                /\ Forall (fun ch => form_safe ch = true) b
  end.
Proof.
  intros (_ & Hrq). cbv zeta. unfold prepare, encode_data in Hrq.
  destruct data as [|b|d].
  - cbn in Hrq. now injection Hrq as <-.
  - cbn in Hrq. destruct (encode_utf8 b) as [bs|]; cbn in Hrq; [|discriminate].
    injection Hrq as <-. now exists bs.
  - destruct (inject_form _ d) as [d' [ex|]]; cbn in Hrq; [discriminate|].
    cbn [fst].
    destruct (urlencode d') as [b|] eqn:E; cbn in Hrq; [|discriminate].
    destruct (urlencode_safe d' b E) as (Hs & He).
    rewrite He in Hrq. cbn in Hrq. injection Hrq as <-.
    exists b. repeat split. exact Hs.
Qed.

(** A body that cannot be encoded (a string, or a field of the mapping,
    with a lone surrogate): once the postback phase is through, the call
    raises [UnicodeEncodeError]; the method is recorded, the mapping keeps
    what was injected, and nothing is sent or logged. *)
Theorem unencodable_body_is_not_sent url_ data cookies_ headers_ auth method_
  charset s :
  let o := post url_ data cookies_ headers_ auth method_ charset s in
  let o1 := primed url_ data cookies_ headers_ auth s in
  raised o1 = None ->
  match data with
  | DNone => False
  | DStr b => encode_utf8 b = None
  | DDict d =>
      snd (inject_form (forms (self (sys o1))) d) = None
      /\ urlencode (fst (inject_form (forms (self (sys o1))) d)) = None
  end ->
  raised o = Some UnicodeEncodeError
  /\ sys o = on_self (set_method (Some (recorded_method data method_))) (sys o1)
  /\ caller_data o
     = match data with
       | DDict d => DDict (fst (inject_form (forms (self (sys o1))) d))
       | _ => data
       end
  /\ forall rq, ~ sends url_ data cookies_ headers_ auth method_ s rq.
Proof.
  cbv zeta. intros Hp Hd.
  assert (Hrq : forall h,
             p_request (prepare url_ data cookies_ h auth method_
                          (self (sys (primed url_ data cookies_ headers_ auth s))))
             = inl UnicodeEncodeError).
  { intros h. unfold prepare, encode_data. destruct data as [|b|d]; [easy| |].
    - cbn. now rewrite Hd.
    - destruct Hd as [H1 H2].
      destruct (inject_form _ d) as [d' e]. cbn [fst snd] in H1, H2.
      subst e. cbn. now rewrite H2. }
  assert (Hdata : forall h,
             p_data (prepare url_ data cookies_ h auth method_
                       (self (sys (primed url_ data cookies_ headers_ auth s))))
             = match data with
               | DDict d =>
                   DDict (fst (inject_form
                                 (forms (self (sys (primed url_ data cookies_
                                                      headers_ auth s)))) d))
               | _ => data
               end).
  { intros h. unfold prepare, encode_data. destruct data as [|b|d];
      [reflexivity | reflexivity |].
    now destruct (inject_form _ d) as [d' e]. }
  rewrite post_unfold. cbv zeta. rewrite Hp. unfold exchange. cbv zeta.
  rewrite Hrq, Hdata, prepare_method. cbn [raised sys caller_data fst snd].
  repeat split. intros rq (_ & H). rewrite Hrq in H. discriminate.
Qed.

End Body.

(* ------------------------------------------------------------------ *)
(** ** The forms of a page (lines 30-32 and 202-205) *)

Lemma eat_app (p q s : str) :
  eat (p ++ q) s = match eat p s with Some t => eat q t | None => None end.
Proof.
  revert s. induction p as [|x p IH]; intros s; [reflexivity|].
  destruct s as [|y s]; cbn [eat List.app]; [reflexivity|].
  destruct (N.eqb x y); [apply IH | reflexivity].
Qed.

Lemma eat_self (p s : str) : eat p (p ++ s) = Some s.
Proof.
  induction p as [|x p IH]; [now destruct s|].
  cbn [eat List.app]. now rewrite N.eqb_refl.
Qed.

Lemma eat_sound (p s t : str) : eat p s = Some t -> s = p ++ t.
Proof.
  revert s. induction p as [|x p IH]; intros s.
  - destruct s; cbn; now intros [= <-].
  - destruct s as [|y s]; cbn [eat]; [discriminate|].
    destruct (N.eqb x y) eqn:E; [|discriminate].
    apply N.eqb_eq in E. subst y. intros H. cbn. f_equal. now apply IH.
Qed.

Lemma eat_mismatch (l p : str) (x : char) (t : str) :
  ~ In x l -> startswith l p = false -> eat l (p ++ x :: t) = None.
Proof.
  revert p. induction l as [|y l IH]; intros p Hx; [discriminate|].
  destruct p as [|z p]; cbn [startswith eat List.app].
  - intros _. destruct (N.eqb y x) eqn:E; [|reflexivity].
    apply N.eqb_eq in E. subst. exfalso. apply Hx. now left.
  - destruct (N.eqb y z); cbn [andb]; [|reflexivity].
    apply IH. intros H. apply Hx. now right.
Qed.

Lemma eat_startswith (l s : str) : startswith l s = false -> eat l s = None.
Proof.
  revert s. induction l as [|y l IH]; intros s; [discriminate|].
  destruct s as [|z s]; cbn [startswith eat]; [reflexivity|].
  destruct (N.eqb y z); cbn [andb]; [apply IH | reflexivity].
Qed.

Lemma FORM_REGEX_needs_input (s : str) :
  eat input_open s = None -> FORM_REGEX s = None.
Proof.
  intros H. unfold FORM_REGEX, formname_part.
  change formkey_open with (input_open ++ [quote_char] ++ lit "_formkey"
    ++ [quote_char] ++ lit " type=" ++ [quote_char] ++ lit "hidden"
    ++ [quote_char] ++ lit " value=" ++ [quote_char]).
  change formname_open with (input_open ++ [quote_char] ++ lit "_formname"
    ++ [quote_char] ++ lit " type=" ++ [quote_char] ++ lit "hidden"
    ++ [quote_char] ++ lit " value=" ++ [quote_char]).
  rewrite !eat_app, H. reflexivity.
Qed.

Lemma lazy_plus_exact {R : Type} (k : str -> option R) (g s' : str) (r : R) :
  g <> [] -> Forall (fun c => dot c = true) g ->
  (forall c t, In c g -> k (c :: t) = None) ->
  k s' = Some r ->
  lazy_plus k (g ++ s') = Some (g, r).
Proof.
  intros Hg Hd Hk Hs. induction g as [|c g IH]; [congruence|].
  inversion Hd as [|x y Hc Hd']; subst.
  cbn [lazy_plus List.app]. rewrite Hc.
  destruct g as [|c2 g'].
  - cbn [List.app]. now rewrite Hs.
  - cbn [List.app]. rewrite (Hk c2 (g' ++ s') (or_intror (or_introl eq_refl))).
    change (c2 :: g' ++ s') with ((c2 :: g') ++ s').
    rewrite IH; [reflexivity | discriminate | exact Hd' |].
    intros c' t Hin. apply Hk. now right.
Qed.

Lemma lazy_plus_sound {R : Type} (k : str -> option R) (s g : str) (r : R) :
  lazy_plus k s = Some (g, r) ->
  g <> [] /\ Forall (fun c => dot c = true) g
  /\ exists s', s = g ++ s' /\ k s' = Some r.
Proof.
  revert g. induction s as [|c s IH]; intros g; cbn [lazy_plus]; [discriminate|].
  destruct (dot c) eqn:Hc; [|discriminate].
  destruct (k s) as [r'|] eqn:Hk.
  - intros [= <- <-]. split; [discriminate|].
    split; [constructor; [exact Hc | constructor]|].
    exists s. split; [reflexivity | exact Hk].
  - destruct (lazy_plus k s) as [[g' r']|]; [|discriminate].
    intros [= <- <-]. destruct (IH g' eq_refl) as (_ & Hd & s' & -> & Hs).
    split; [discriminate|]. split; [constructor; assumption|].
    exists s'. split; [reflexivity | exact Hs].
Qed.

Lemma plain_dot (g : str) :
  Forall (fun c => plain c = true) g -> Forall (fun c => dot c = true) g.
Proof.
  apply Forall_impl. intros c H. unfold plain in H.
  now apply andb_true_iff in H.
Qed.

Lemma plain_not_quote (g : str) (c : char) :
  Forall (fun c => plain c = true) g -> In c g -> N.eqb quote_char c = false.
Proof.
  intros H Hin. rewrite Forall_forall in H. apply H in Hin.
  unfold plain in Hin. apply andb_true_iff in Hin. destruct Hin as [_ Hq].
  apply negb_true_iff in Hq. now rewrite N.eqb_sym.
Qed.

Lemma formname_part_exact (name rest : str) :
  name <> [] -> Forall (fun c => plain c = true) name ->
  formname_part (formname_open ++ name ++ input_close ++ rest)
  = Some (name, rest).
Proof.
  intros Hn Hp. unfold formname_part. rewrite eat_self.
  apply lazy_plus_exact; [exact Hn | now apply plain_dot | | apply eat_self].
  intros c t Hin. unfold input_close. cbn [eat List.app].
  now rewrite (plain_not_quote name c Hp Hin).
Qed.

Lemma FORM_REGEX_exact (key : option str) (name rest : str) :
  name <> [] -> Forall (fun c => plain c = true) name ->
  (forall k, key = Some k -> k <> [] /\ Forall (fun c => plain c = true) k) ->
  FORM_REGEX (hidden_inputs key name ++ rest) = Some (key, name, rest).
Proof.
  intros Hn Hp Hk. unfold FORM_REGEX, hidden_inputs.
  destruct key as [k|].
  - destruct (Hk k eq_refl) as [Hk1 Hk2].
    rewrite <- !app_assoc. rewrite eat_self.
    rewrite (lazy_plus_exact _ k _ (name, rest)); [reflexivity | exact Hk1 | | |].
    + now apply plain_dot.
    + intros c t Hin. unfold input_close. cbn [eat List.app].
      now rewrite (plain_not_quote k c Hk2 Hin).
    + rewrite eat_self. now apply formname_part_exact.
  - cbn [List.app]. rewrite <- !app_assoc.
    replace (eat formkey_open (formname_open ++ name ++ input_close ++ rest))
      with (@None str) by reflexivity.
    now rewrite formname_part_exact.
Qed.

Lemma finditer_from_skip (a rest : str) :
  finditer_from (List.length a) (a ++ rest) = finditer_from 0 rest.
Proof.
  induction a as [|x a IH]; [now destruct rest|].
  cbn [List.length List.app finditer_from]. exact IH.
Qed.

Lemma hidden_inputs_head (key : option str) (name rest : str) :
  exists t, hidden_inputs key name ++ rest = 60%N :: t.
Proof. destruct key; eexists; reflexivity. Qed.

Lemma finditer_prefix (pre t : str) :
  contains input_open pre = false ->
  finditer_from 0 (pre ++ 60%N :: t) = finditer_from 0 (60%N :: t).
Proof.
  induction pre as [|x pre IH]; [reflexivity|].
  intros H. cbn [contains] in H. apply orb_false_iff in H. destruct H as [Hs Hc].
  cbn [List.app finditer_from].
  rewrite (FORM_REGEX_needs_input (x :: pre ++ 60%N :: t)); [now apply IH|].
  change (x :: pre ++ 60%N :: t) with ((x :: pre) ++ 60%N :: t).
  unfold input_open in *. change (lit "<input name=") with (60%N :: lit "input name=") in *.
  cbn [startswith] in Hs. cbn [eat List.app].
  destruct (N.eqb 60 x); [|reflexivity]. cbn [andb] in Hs.
  apply eat_mismatch; [|exact Hs].
  vm_compute. intuition discriminate.
Qed.

Lemma finditer_none (s : str) :
  contains input_open s = false -> finditer_from 0 s = [].
Proof.
  induction s as [|x s IH]; [reflexivity|].
  intros H. cbn [contains] in H. apply orb_false_iff in H. destruct H as [Hs Hc].
  cbn [finditer_from].
  rewrite (FORM_REGEX_needs_input (x :: s)); [now apply IH|].
  now apply eat_startswith.
Qed.

(** The first match in a page that starts, after text without inputs, with
    the hidden inputs of a form. *)
Lemma finditer_hidden_inputs (pre rest : str) (key : option str) (name : str) :
  contains input_open pre = false ->
  name <> [] -> Forall (fun c => plain c = true) name ->
  (forall k, key = Some k -> k <> [] /\ Forall (fun c => plain c = true) k) ->
  finditer (pre ++ hidden_inputs key name ++ rest)
  = (key, name) :: finditer rest.
Proof.
  intros Hpre Hn Hp Hk. unfold finditer.
  destruct (hidden_inputs_head key name rest) as [t Ht].
  rewrite Ht, (finditer_prefix pre t Hpre), <- Ht.
  destruct (hidden_inputs_head key name []) as [t0 Ht0].
  rewrite app_nil_r in Ht0.
  pose proof (FORM_REGEX_exact key name rest Hn Hp Hk) as HF.
  rewrite Ht0 in HF |- *. cbn [List.app] in HF |- *.
  cbn [finditer_from]. rewrite HF. f_equal.
  match goal with
  | |- finditer_from ?n _ = _ =>
      replace n with (List.length t0)
        by (cbn [List.length]; rewrite length_app; unfold str, char; lia)
  end.
  apply finditer_from_skip.
Qed.

(** The round trip of a form: in a page where the hidden inputs of a form
    come after text without [<input name=], the first match of the pattern
    is that form, with its key and its name as rendered, and the scan goes
    on right after it. A page with nothing else to match gives [forms] that
    one entry. *)
Theorem hidden_inputs_are_scraped (pre rest : str) (key : option str)
  (name : str) :
  contains input_open pre = false ->
  name <> [] -> Forall (fun c => plain c = true) name ->
  (forall k, key = Some k -> k <> [] /\ Forall (fun c => plain c = true) k) ->
  finditer (pre ++ hidden_inputs key name ++ rest)
  = (key, name) :: finditer rest
  /\ (contains input_open rest = false ->
      scrape_forms (pre ++ hidden_inputs key name ++ rest) = [(name, key)]).
Proof.
  intros Hpre Hn Hp Hk.
  pose proof (finditer_hidden_inputs pre rest key name Hpre Hn Hp Hk) as H.
  split; [exact H|].
  intros Hrest. unfold scrape_forms. rewrite H.
  unfold finditer. rewrite (finditer_none rest Hrest). reflexivity.
Qed.

Lemma hidden_inputs_are_scraped_witness :
  contains input_open (lit "<html><form>") = false
  /\ finditer (lit "<html><form>"
               ++ hidden_inputs (Some (lit "K1")) (lit "register")
               ++ lit "</form></html>")
     = [(Some (lit "K1"), lit "register")]
  /\ scrape_forms (lit "<html><form>"
                   ++ hidden_inputs (Some (lit "K1")) (lit "register")
                   ++ lit "</form></html>")
     = [(lit "register", Some (lit "K1"))].
Proof.
  assert (Hpre : contains input_open (lit "<html><form>") = false)
    by (vm_compute; reflexivity).
  assert (Hn : lit "register" <> []) by discriminate.
  assert (Hp : Forall (fun c => plain c = true) (lit "register"))
    by (repeat (apply Forall_cons; [vm_compute; reflexivity|]); apply Forall_nil).
  assert (Hk : forall k, Some (lit "K1") = Some k ->
                         k <> [] /\ Forall (fun c => plain c = true) k).
  { intros k [= <-]. split; [discriminate|].
    repeat (apply Forall_cons; [vm_compute; reflexivity|]). apply Forall_nil. }
  destruct (hidden_inputs_are_scraped (lit "<html><form>")
              (lit "</form></html>") (Some (lit "K1")) (lit "register")
              Hpre Hn Hp Hk) as [H1 H2].
  split; [exact Hpre|]. split.
  - rewrite H1. vm_compute. reflexivity.
  - apply H2. vm_compute. reflexivity.
Defined.

(** *** Every entry of [forms] is in the page *)

Lemma formname_part_sound (s name rest : str) :
  formname_part s = Some (name, rest) ->
  name <> [] /\ Forall (fun c => dot c = true) name
  /\ s = formname_open ++ name ++ input_close ++ rest.
Proof.
  unfold formname_part. destruct (eat formname_open s) as [s1|] eqn:E;
    [|discriminate].
  intros H. apply lazy_plus_sound in H.
  destruct H as (Hn & Hd & s' & -> & Hs).
  apply eat_sound in E, Hs. subst. repeat split; assumption.
Qed.

Lemma FORM_REGEX_sound (s : str) (key : option str) (name rest : str) :
  FORM_REGEX s = Some (key, name, rest) ->
  name <> [] /\ Forall (fun c => dot c = true) name
  /\ (forall k, key = Some k -> k <> [] /\ Forall (fun c => dot c = true) k)
  /\ s = hidden_inputs key name ++ rest.
Proof.
  unfold FORM_REGEX.
  destruct (match eat formkey_open s with
            | Some s1 =>
                lazy_plus (fun s2 => match eat input_close s2 with
                                     | Some s3 => formname_part s3
                                     | None => None
                                     end) s1
            | None => None
            end) as [[k [n r]]|] eqn:E.
  - intros [= <- <- <-].
    destruct (eat formkey_open s) as [s1|] eqn:E1; [|discriminate].
    apply lazy_plus_sound in E. destruct E as (Hk & Hd & s' & -> & Hs).
    destruct (eat input_close s') as [s3|] eqn:E3; [|discriminate].
    apply formname_part_sound in Hs. destruct Hs as (Hn & Hdn & ->).
    apply eat_sound in E1, E3. subst.
    split; [exact Hn|]. split; [exact Hdn|]. split.
    + intros k' [= <-]. split; assumption.
    + unfold hidden_inputs. now rewrite <- !app_assoc.
  - destruct (formname_part s) as [[n r]|] eqn:E2; [|discriminate].
    intros [= <- <- <-]. apply formname_part_sound in E2.
    destruct E2 as (Hn & Hdn & ->).
    split; [exact Hn|]. split; [exact Hdn|]. split; [discriminate|].
    unfold hidden_inputs. cbn [List.app]. now rewrite <- !app_assoc.
Qed.

Lemma finditer_from_sound (s : str) (skip : nat) (key : option str)
  (name : str) :
  In (key, name) (finditer_from skip s) ->
  name <> [] /\ Forall (fun c => dot c = true) name
  /\ (forall k, key = Some k -> k <> [] /\ Forall (fun c => dot c = true) k)
  /\ exists a b, s = a ++ hidden_inputs key name ++ b.
Proof.
  revert skip. induction s as [|x s IH]; intros skip; cbn [finditer_from];
    [intros []|].
  assert (Hlater : forall n, In (key, name) (finditer_from n s) ->
            name <> [] /\ Forall (fun c => dot c = true) name
            /\ (forall k, key = Some k ->
                          k <> [] /\ Forall (fun c => dot c = true) k)
            /\ exists a b, x :: s = a ++ hidden_inputs key name ++ b).
  { intros n H. destruct (IH n H) as (H1 & H2 & H3 & a & b & ->).
    split; [exact H1|]. split; [exact H2|]. split; [exact H3|].
    now exists (x :: a), b. }
  destruct skip as [|n]; [|apply Hlater].
  destruct (FORM_REGEX (x :: s)) as [[[k n] r]|] eqn:E; [|apply Hlater].
  intros [[= <- <-]|H]; [|now apply (Hlater _ H)].
  apply FORM_REGEX_sound in E. destruct E as (H1 & H2 & H3 & ->).
  split; [exact H1|]. split; [exact H2|]. split; [exact H3|].
  now exists [], r.
Qed.

Lemma scrape_fold_get (l : list (option str * str)) (acc : dict (option str))
  (name : str) (key : option str) :
  dict_get name (fold_left (fun forms m => dict_set (snd m) (fst m) forms) l acc)
  = Some key ->
  In (key, name) l \/ dict_get name acc = Some key.
Proof.
  revert acc. induction l as [|[k n] l IH]; intros acc; cbn [fold_left];
    [now right|].
  intros H. apply IH in H. destruct H as [H|H]; [left; now right|].
  cbn [fst snd] in H.
  destruct (str_eqb n name) eqn:E.
  - apply str_eqb_eq in E. subst n. rewrite dict_get_set_same in H.
    injection H as <-. left. now left.
  - apply str_eqb_neq in E. rewrite dict_get_set_other in H by exact E.
    now right.
Qed.

(** Every entry of the table scraped from a text stands in the text: the
    hidden inputs of that name and key occur in it as the pattern reads
    them, and neither the name nor the key is empty or holds a newline. *)
Theorem scraped_forms_are_in_the_page (text name : str) (key : option str) :
  dict_get name (scrape_forms text) = Some key ->
  name <> [] /\ Forall (fun c => dot c = true) name
  /\ (forall k, key = Some k -> k <> [] /\ Forall (fun c => dot c = true) k)
  /\ exists a b, text = a ++ hidden_inputs key name ++ b.
Proof.
  unfold scrape_forms. intros H. apply scrape_fold_get in H.
  destruct H as [H|H]; [|discriminate].
  exact (finditer_from_sound text 0 key name H).
Qed.

Lemma scraped_forms_are_in_the_page_witness :
  dict_get (lit "register") (scrape_forms register_page)
  = Some (Some (lit "K1"))
  /\ exists a b, register_page
                 = a ++ hidden_inputs (Some (lit "K1")) (lit "register") ++ b.
Proof.
  assert (H : dict_get (lit "register") (scrape_forms register_page)
              = Some (Some (lit "K1"))) by (vm_compute; reflexivity).
  split; [exact H|].
  exact (proj2 (proj2 (proj2
           (scraped_forms_are_in_the_page register_page (lit "register")
              (Some (lit "K1")) H)))).
Defined.

Lemma scrape_fold_keeps (l : list (option str * str)) (acc : dict (option str))
  (name : str) (key : option str) :
  dict_get name acc = Some key ->
  (forall k, ~ In (k, name) l) ->
  dict_get name (fold_left (fun forms m => dict_set (snd m) (fst m) forms) l acc)
  = Some key.
Proof.
  revert acc. induction l as [|[k n] l IH]; intros acc Hg Hno; [exact Hg|].
  cbn [fold_left fst snd]. apply IH.
  - rewrite dict_get_set_other; [exact Hg|].
    intros ->. apply (Hno k). now left.
  - intros k' H. apply (Hno k'). now right.
Qed.

(** The form that comes first in a page is in the table, with its key,
    unless a later form of the page has the same name. *)
Lemma scrape_first_form (pre rest : str) (key : option str) (name : str) :
  contains input_open pre = false ->
  name <> [] -> Forall (fun c => plain c = true) name ->
  (forall k, key = Some k -> k <> [] /\ Forall (fun c => plain c = true) k) ->
  (forall k, ~ In (k, name) (finditer rest)) ->
  dict_get name (scrape_forms (pre ++ hidden_inputs key name ++ rest))
  = Some key.
Proof.
  intros Hpre Hn Hp Hk Hno. unfold scrape_forms.
  rewrite (finditer_hidden_inputs pre rest key name Hpre Hn Hp Hk).
  cbn [fold_left fst snd dict_set]. apply scrape_fold_keeps; [|exact Hno].
  cbn [dict_get]. now rewrite str_eqb_refl.
Qed.

(** *** The table of a completed call *)

(** A form that is matched is in the table. *)
Lemma scrape_fold_mem (l : list (option str * str)) (acc : dict (option str))
  (name : str) :
  (exists key, In (key, name) l) \/ dict_mem name acc = true ->
  dict_mem name (fold_left (fun forms m => dict_set (snd m) (fst m) forms) l acc)
  = true.
Proof.
  revert acc. induction l as [|[k n] l IH]; intros acc H.
  - destruct H as [[key []]|H]; exact H.
  - cbn [fold_left fst snd]. apply IH.
    destruct H as [[key [[= -> ->]|H]]|H].
    + right. apply dict_mem_set_same.
    + left. now exists key.
    + right. now apply dict_mem_set_mono.
Qed.

(** What the table holds for a name is the key of the last match of that
    name. *)
Lemma scrape_fold_last (l : list (option str * str)) (acc : dict (option str))
  (name : str) (key : option str) :
  dict_get name (fold_left (fun forms m => dict_set (snd m) (fst m) forms) l acc)
  = Some key ->
  (exists l1 l2, l = l1 ++ (key, name) :: l2 /\ forall k, ~ In (k, name) l2)
  \/ (dict_get name acc = Some key /\ forall k, ~ In (k, name) l).
Proof.
  revert acc. induction l as [|[k0 n0] l IH]; intros acc H.
  - right. split; [exact H | intros k []].
  - cbn [fold_left fst snd] in H. apply IH in H.
    destruct H as [(l1 & l2 & -> & Hno)|[Hg Hno]].
    + left. exists ((k0, n0) :: l1), l2. split; [reflexivity | exact Hno].
    + destruct (str_eqb n0 name) eqn:E.
      * apply str_eqb_eq in E. subst n0. rewrite dict_get_set_same in Hg.
        injection Hg as ->. left. exists [], l. split; [reflexivity | exact Hno].
      * apply str_eqb_neq in E. rewrite dict_get_set_other in Hg by exact E.
        right. split; [exact Hg|].
        intros k [[= _ Hn]|Hin]; [now apply E | now apply (Hno k)].
Qed.

Lemma scrape_forms_last (t name : str) (key : option str) :
  dict_get name (scrape_forms t) = Some key <->
  exists l1 l2, finditer t = l1 ++ (key, name) :: l2
                /\ forall k, ~ In (k, name) l2.
Proof.
  unfold scrape_forms. split.
  - intros H. apply scrape_fold_last in H.
    destruct H as [H|[H _]]; [exact H | discriminate H].
  - intros (l1 & l2 & -> & Hno). rewrite fold_left_app. cbn [fold_left fst snd].
    apply scrape_fold_keeps; [apply dict_get_set_same | exact Hno].
Qed.

Section FormsTable.
Context {lib : Library}.
Implicit Types (s : Sys) (c : WebClient) (r : Response) (dt : Elapsed).

(** C5, amended: after a call that raises nothing, if the charset given is
    truthy, the text is the body decoded under it and [forms] is exactly
    what the matches of the form pattern in that text give: every matched
    name is in it, a name is mapped to a key exactly when its last match
    has that key, the hidden inputs of the first form of the page are a
    match, every entry stands in the text, and the table is empty when
    nothing matches. If the charset is falsy, the text is the bytes read
    and [forms] is what it was when the call's own request was made (what
    the caller left when no postback was needed): it is not emptied. *)
Theorem forms_after_completed_call url_ data cookies_ headers_ auth method_
  charset s :
  let o := post url_ data cookies_ headers_ auth method_ charset s in
  let o1 := primed url_ data cookies_ headers_ auth s in
  raised o = None ->
  exists r,
    response (self (sys o)) = Some r
    /\ (if opt_truthy charset
        then exists cs t,
               charset = Some cs
               /\ decode cs (body r) = Some t
               /\ text (self (sys o)) = Some (Text t)
               /\ forms (self (sys o)) = scrape_forms t
               /\ (finditer t = [] -> forms (self (sys o)) = [])
               /\ (forall key name,
                     In (key, name) (finditer t) ->
                     dict_mem name (forms (self (sys o))) = true)
               /\ (forall name key,
                     dict_get name (forms (self (sys o))) = Some key <->
                     exists l1 l2,
                       finditer t = l1 ++ (key, name) :: l2
                       /\ forall k, ~ In (k, name) l2)
               /\ (forall pre rest key name,
                     t = pre ++ hidden_inputs key name ++ rest ->
                     contains input_open pre = false ->
                     name <> [] -> Forall (fun ch => plain ch = true) name ->
                     (forall k, key = Some k ->
                                k <> [] /\ Forall (fun ch => plain ch = true) k) ->
                     (forall k, ~ In (k, name) (finditer rest)) ->
                     dict_get name (forms (self (sys o))) = Some key)
               /\ (forall name key,
                     dict_get name (forms (self (sys o))) = Some key ->
                     exists a b, t = a ++ hidden_inputs key name ++ b)
        else text (self (sys o)) = Some (Raw (body r))
             /\ forms (self (sys o)) = forms (self (sys o1)))
    /\ (needs_postback data (self s) (app (self s) ++ url_) = false ->
        forms (self (sys o1)) = forms (self s)).
Proof.
  cbv zeta. intros Hr.
  destruct (post_completed _ _ _ _ _ _ _ _ Hr) as (rq & w & dt & r & txt & Ha & Hd).
  rewrite (post_answered _ _ _ _ _ _ charset _ _ _ _ _ Ha). cbv zeta. cbn [sys].
  rewrite (receive_ok _ _ _ _ _ _ _ Hd). cbn [fst self response text forms].
  exists r. split; [reflexivity|]. split.
  - unfold forms_after.
    destruct (opt_truthy charset) eqn:E.
    + destruct (decode_body_text _ _ _ Hd E) as (cs & t & Hc & _ & Hdec & ->).
      exists cs, t.
      split; [exact Hc|]. split; [exact Hdec|]. split; [reflexivity|].
      split; [reflexivity|].
      split; [unfold scrape_forms; now intros ->|].
      split; [|split; [|split]].
      * intros key name Hin. unfold scrape_forms.
        apply scrape_fold_mem. left. now exists key.
      * intros name key. apply scrape_forms_last.
      * intros pre rest key name -> Hpre Hn Hp Hk Hno.
        now apply scrape_first_form.
      * intros name key Hg. unfold scrape_forms in Hg.
        apply scrape_fold_get in Hg. destruct Hg as [Hg|Hg]; [|discriminate].
        exact (proj2 (proj2 (proj2 (finditer_from_sound t 0 key name Hg)))).
    + rewrite (decode_body_raw _ r E) in Hd. injection Hd as <-.
      split; reflexivity.
  - intros Hn. now rewrite (primed_no_postback _ _ _ _ _ _ Hn).
Qed.

End FormsTable.

(* ------------------------------------------------------------------ *)
(** ** The session cookies (lines 34 and 192-199) *)

Lemma greedy_dots_sound (s : str) :
  Forall (fun c => dot c = true) (greedy_dots s)
  /\ exists tail, s = greedy_dots s ++ tail
                  /\ (tail = [] \/ exists t, tail = 10%N :: t).
Proof.
  induction s as [|c s (Hd & tail & Hs & Ht)]; cbn [greedy_dots].
  - split; [constructor|]. exists []. split; [reflexivity | now left].
  - destruct (dot c) eqn:E.
    + split; [constructor; assumption|].
      exists tail. split; [cbn; now f_equal | exact Ht].
    + split; [constructor|]. exists (c :: s). split; [reflexivity|].
      right. exists s. f_equal. unfold dot in E.
      apply negb_false_iff, N.eqb_eq in E. exact E.
Qed.

Lemma greedy_dots_exact (g tail : str) :
  Forall (fun c => dot c = true) g ->
  tail = [] \/ (exists t, tail = 10%N :: t) ->
  greedy_dots (g ++ tail) = g.
Proof.
  intros Hd Ht. induction Hd as [|c g Hc _ IH].
  - destruct Ht as [->|(t & ->)]; reflexivity.
  - cbn [greedy_dots List.app]. now rewrite Hc, IH.
Qed.

(** The default session pattern, spelled out: a cookie is a session cookie
    exactly when its name is [session_id_] followed by at least one
    character that is no newline, and the session name is what follows the
    prefix, up to the first newline. *)
Theorem session_cookie_names (cookie name : str) :
  SESSION_REGEX cookie = Some name <->
  name <> [] /\ Forall (fun c => dot c = true) name
  /\ exists tail, cookie = lit "session_id_" ++ name ++ tail
                  /\ (tail = [] \/ exists t, tail = 10%N :: t).
Proof.
  unfold SESSION_REGEX. split.
  - destruct (eat (lit "session_id_") cookie) as [s|] eqn:E; [|discriminate].
    apply eat_sound in E. subst cookie.
    destruct (greedy_dots_sound s) as (Hd & tail & Hs & Ht).
    destruct (greedy_dots s) as [|c g] eqn:G; [discriminate|].
    intros [= <-]. split; [discriminate|]. split; [exact Hd|].
    exists tail. split; [now rewrite Hs at 1 | exact Ht].
  - intros (Hn & Hd & tail & -> & Ht).
    rewrite eat_self, (greedy_dots_exact name tail Hd Ht).
    destruct name; [congruence | reflexivity].
Qed.

(* ------------------------------------------------------------------ *)
(** ** What the calls do to the session table and to the output *)

Lemma check_sessions_adds (regex : option (str -> option str))
  (cs ss : dict str) (out : list str) :
  (forall name, dict_mem name ss = true ->
                dict_mem name (fst (check_sessions regex cs ss out)) = true)
  /\ exists more, snd (check_sessions regex cs ss out) = out ++ more
                  /\ Forall is_notice more.
Proof.
  destruct regex as [re|]; cbn [check_sessions];
    [|split; [auto | exists []; split; [now rewrite app_nil_r | constructor]]].
  revert ss out. induction cs as [|[c v] cs IH]; intros ss out.
  - split; [auto|]. exists []. split; [cbn; now rewrite app_nil_r | constructor].
  - cbn [fold_left].
    destruct (session_step re (ss, out) (c, v)) as [ss1 out1] eqn:E.
    destruct (IH ss1 out1) as (Hm & more & Hs & Hn).
    unfold session_step in E. cbn [fst snd] in E.
    destruct (re c) as [n|].
    + injection E as <- <-. split.
      * intros name H. apply Hm. now apply dict_mem_set_mono.
      * rewrite Hs.
        destruct (dict_get n ss) as [old|]; [|now exists more].
        destruct (str_eqb old v); [now exists more|].
        exists ([changed_session_msg n] ++ more).
        split; [now rewrite app_assoc|].
        constructor; [now exists n | exact Hn].
    + injection E as <- <-. split; [exact Hm | now exists more].
Qed.

Section Sessions.
Context {lib : Library}.
Implicit Types (s : Sys) (c : WebClient) (r : Response) (dt : Elapsed).

(** A relation between the systems before and after that the steps of a
    call keep is kept by the calls. *)
Section Kept.
Variable R : Sys -> Sys -> Prop.
Hypothesis R_refl : forall s, R s s.
Hypothesis R_trans : forall s1 s2 s3, R s1 s2 -> R s2 s3 -> R s1 s3.
Hypothesis R_self :
  forall s (f : WebClient -> WebClient),
    sessions (f (self s)) = sessions (self s) ->
    session_regex (f (self s)) = session_regex (self s) ->
    R s (on_self f s).
Hypothesis R_world :
  forall s (w : World),
    R s {| self := self s; world := w; stdout := stdout s |}.
Hypothesis R_receive :
  forall (m full : str) (charset : option str) r dt (error : option exn) s,
    R s (fst (receive m full charset r dt error s)).

Lemma exchange_kept url_ data cookies_ headers_ auth method_ charset s :
  R s (sys (exchange url_ data cookies_ headers_ auth method_ charset s)).
Proof.
  unfold exchange. cbv zeta.
  set (p := prepare url_ data cookies_ headers_ auth method_ (self s)).
  assert (H1 : R s (on_self (set_method (Some (p_method p))) s))
    by (apply R_self; reflexivity).
  destruct (p_request p) as [ex|rq]; [exact H1|].
  destruct (open_url _ rq) as [[w dt] res].
  assert (H2 : R s {| self := self (on_self (set_method (Some (p_method p))) s);
                      world := w;
                      stdout := stdout (on_self (set_method (Some (p_method p))) s) |})
    by (eapply R_trans; [exact H1 | apply R_world]).
  by_answer res; cbn [sys fst]; try exact H2;
    (eapply R_trans; [exact H2 | apply R_receive]).
Qed.

Lemma post_with_kept
  (get_ : str -> option (dict str) -> option (dict hvalue) -> option Auth
          -> Sys -> Outcome)
  url_ data cookies_ headers_ auth method_ charset s :
  (forall u k h a s', R s' (sys (get_ u k h a s'))) ->
  R s (sys (post_with get_ url_ data cookies_ headers_ auth method_ charset s)).
Proof.
  intros Hg. unfold post_with, postback. cbv zeta.
  assert (H1 : R s (on_self (set_url (Some (app (self s) ++ url_))) s))
    by (apply R_self; reflexivity).
  destruct (needs_postback _ _ _); cbn [raised sys caller_headers].
  - assert (H2 : R s (sys (get_ url_ cookies_ headers_ auth
                             (on_self (set_url (Some (app (self s) ++ url_))) s))))
      by (eapply R_trans; [exact H1 | apply Hg]).
    destruct (raised _); [exact H2|].
    eapply R_trans; [exact H2 | apply exchange_kept].
  - eapply R_trans; [exact H1 | apply exchange_kept].
Qed.

Lemma post_kept url_ data cookies_ headers_ auth method_ charset s :
  R s (sys (post url_ data cookies_ headers_ auth method_ charset s)).
Proof.
  apply post_with_kept. intros u k h a s'.
  unfold get. apply post_with_kept. intros. apply R_refl.
Qed.

End Kept.

Lemma receive_sessions (m full : str) (charset : option str) r dt
  (error : option exn) s :
  (sessions (self (fst (receive m full charset r dt error s))) = sessions (self s)
   /\ stdout (fst (receive m full charset r dt error s)) = stdout s)
  \/ (sessions (self (fst (receive m full charset r dt error s))),
      stdout (fst (receive m full charset r dt error s)))
     = check_sessions (session_regex (self s))
         (parse_headers_in_cookies (normalise_headers (resp_headers r)))
         (sessions (self s)) (stdout s).
Proof.
  unfold receive. cbv zeta.
  destruct (decode_body charset r) as [ex|txt]; [left; split; reflexivity|].
  destruct error as [er|].
  - destruct (dict_get (lit "web2py_error") _); left; split; reflexivity.
  - right.
    destruct (opt_truthy charset);
      [destruct (forms_of_body txt)|];
      cbn [fst self stdout world on_self sessions session_regex set_history
           set_forms set_sessions];
      now destruct (check_sessions _ _ _ _).
Qed.

Lemma only_adds_receive (m full : str) (charset : option str) r dt
  (error : option exn) s :
  only_adds s (fst (receive m full charset r dt error s)).
Proof.
  destruct (receive_sessions m full charset r dt error s) as [[H1 H2]|H].
  - unfold only_adds. rewrite H1, H2. split; [auto|].
    exists []. split; [now rewrite app_nil_r | constructor].
  - unfold only_adds.
    destruct (check_sessions_adds (session_regex (self s))
                (parse_headers_in_cookies (normalise_headers (resp_headers r)))
                (sessions (self s)) (stdout s)) as (Hm & more & Hs & Hn).
    rewrite <- H in Hm, Hs. cbn [fst snd] in Hm, Hs.
    split; [exact Hm | now exists more].
Qed.

Lemma quiet_receive (m full : str) (charset : option str) r dt
  (error : option exn) s :
  quiet s (fst (receive m full charset r dt error s)).
Proof.
  intros Hre.
  destruct (receive_config m full charset r dt error s) as (_ & _ & _ & Hc).
  split; [now rewrite Hc|].
  destruct (receive_sessions m full charset r dt error s) as [H|H];
    [exact H|].
  rewrite Hre in H. cbn [check_sessions] in H. now injection H as -> ->.
Qed.

(** The session table and the output only grow: whatever a call does,
    completed or not, every session name recorded before it is recorded
    after it, and the output is what it was followed by notices of changed
    session IDs, the only thing a call prints. A client without a session
    pattern records and prints nothing. *)
Theorem sessions_only_grow url_ data cookies_ headers_ auth method_ charset s :
  let o := post url_ data cookies_ headers_ auth method_ charset s in
  only_adds s (sys o)
  /\ (session_regex (self s) = None ->
      sessions (self (sys o)) = sessions (self s)
      /\ stdout (sys o) = stdout s).
Proof.
  cbv zeta. split.
  - apply (post_kept only_adds).
    + intros s0. split; [auto|].
      exists []. split; [now rewrite app_nil_r | constructor].
    + intros s1 s2 s3 (Ha & m1 & Hs1 & Hn1) (Hb & m2 & Hs2 & Hn2).
      split; [auto|]. exists (m1 ++ m2).
      split; [now rewrite Hs2, Hs1, app_assoc | now apply Forall_app].
    + intros s0 f Hf _. split; [cbn [on_self self]; now rewrite Hf|].
      exists []. split; [cbn; now rewrite app_nil_r | constructor].
    + intros s0 w. split; [auto|].
      exists []. split; [cbn; now rewrite app_nil_r | constructor].
    + apply only_adds_receive.
  - intros Hre.
    apply (post_kept quiet); [| | | |apply quiet_receive|exact Hre].
    + intros s0 H0. split; [exact H0|]. split; reflexivity.
    + intros s1 s2 s3 H12 H23 H1.
      destruct (H12 H1) as (Ha & Hb & Hc).
      destruct (H23 Ha) as (Ha' & Hb' & Hc').
      repeat split; congruence.
    + intros s0 f Hf Hg H0. cbn [on_self self stdout].
      repeat split; congruence.
    + intros s0 w H0. split; [exact H0|]. split; reflexivity.
Qed.

End Sessions.

(* ------------------------------------------------------------------ *)
(** ** [test_web2py_registration_and_login] (lines 211-238) *)

Section Script.
Context {lib : Library}.
Implicit Types (s : Sys) (c : WebClient) (r : Response) (dt : Elapsed).

Lemma needs_postback_trace (data : Data) c (full : str) :
  needs_postback data c full = primes (postbacks c) (trace c) data full.
Proof.
  unfold needs_postback, primes, trace. rewrite <- map_rev.
  destruct (rev (history c)) as [|[[[m u] st] dt] l]; reflexivity.
Qed.

(** The trace of a call that raises nothing. *)
Lemma post_trace url_ data cookies_ headers_ auth method_ charset s :
  let o := post url_ data cookies_ headers_ auth method_ charset s in
  let full := app (self s) ++ url_ in
  raised o = None ->
  app (self (sys o)) = app (self s)
  /\ postbacks (self (sys o)) = postbacks (self s)
  /\ trace (self (sys o))
     = trace (self s)
       ++ (if primes (postbacks (self s)) (trace (self s)) data full
           then [(lit "GET", full)] else [])
       ++ [(recorded_method data method_, full)].
Proof.
  cbv zeta. intros Hr.
  destruct (post_config url_ data cookies_ headers_ auth method_ charset s)
    as (Ha & Hb & _).
  split; [exact Ha|]. split; [exact Hb|].
  destruct (post_own_entry _ _ _ _ _ _ _ _ Hr) as (m & st & dt & H & Hm & _).
  cbv zeta in H. rewrite prepare_method in Hm. subst m.
  assert (Hp : raised (primed url_ data cookies_ headers_ auth s) = None).
  { destruct (post_completed _ _ _ _ _ _ _ _ Hr)
      as (rq & w & dt' & r & txt & ((Hp & _) & _) & _). exact Hp. }
  pose proof (primed_history _ _ _ _ _ _ Hp) as Hh.
  rewrite needs_postback_trace in Hh.
  unfold trace at 1. rewrite H, map_app. cbn [List.map].
  destruct (primes _ _ _ _).
  - destruct Hh as (st' & dt' & ->). rewrite map_app, <- app_assoc.
    reflexivity.
  - rewrite Hh. reflexivity.
Qed.

Lemma get_trace url_ cookies_ headers_ auth s :
  let o := get url_ cookies_ headers_ auth s in
  raised o = None ->
  app (self (sys o)) = app (self s)
  /\ postbacks (self (sys o)) = postbacks (self s)
  /\ trace (self (sys o))
     = trace (self s) ++ [(lit "GET", app (self s) ++ url_)].
Proof.
  cbv zeta. rewrite get_is_post. intros Hr.
  destruct (post_trace _ _ _ _ _ _ _ _ Hr) as (Ha & Hb & Ht).
  split; [exact Ha|]. split; [exact Hb|]. rewrite Ht.
  unfold primes. cbn [data_truthy andb List.app]. reflexivity.
Qed.

(** A call that raises nothing and was made under a truthy charset leaves
    decoded text. *)
Lemma get_text url_ cookies_ headers_ auth s :
  raised (get url_ cookies_ headers_ auth s) = None ->
  exists t, text (self (sys (get url_ cookies_ headers_ auth s)))
            = Some (Text t).
Proof.
  rewrite get_is_post. intros Hr.
  destruct (post_completed _ _ _ _ _ _ _ _ Hr)
    as (rq & w & dt & r & txt & Ha & Hd).
  rewrite (post_answered _ _ _ _ _ _ utf_8 _ _ _ _ _ Ha). cbv zeta.
  cbn [sys]. rewrite (receive_ok _ _ _ _ _ _ _ Hd). cbn [fst self text].
  destruct (decode_body_text _ _ _ Hd eq_refl) as (cs & t & _ & _ & _ & ->).
  now exists t.
Qed.

(** The script, when its assertion passes, has made seven exchanges: each
    of the two forms was fetched before it was posted, because the call
    before it was for another URL; and the text it searched was decoded.
    It always has a text to search when it gets to the assertion. *)
Theorem script_exchanges (w : World) :
  snd (test_web2py_registration_and_login w) <> NoText
  /\ (snd (test_web2py_registration_and_login w) = Checked ->
      trace (self (fst (test_web2py_registration_and_login w)))
      = [(lit "GET", script_app ++ lit "index");
         (lit "GET", script_app ++ lit "user/register"); (lit "POST", script_app ++ lit "user/register");
         (lit "GET", script_app ++ lit "user/logout");
         (lit "GET", script_app ++ lit "user/login"); (lit "POST", script_app ++ lit "user/login");
         (lit "GET", script_app ++ lit "user/profile")]
      /\ exists t, text (self (fst (test_web2py_registration_and_login w)))
                   = Some (Text t)
                   /\ contains (lit "Welcome Homer") t = true).
Proof.
  unfold test_web2py_registration_and_login, and_then. cbv zeta.
  set (s0 := {| self := init script_app true DEFAULT_HEADERS (Some SESSION_REGEX);
                world := w; stdout := [] |}).
  destruct (raised (get (lit "index") None None None s0)) eqn:R1;
    [split; [discriminate | discriminate]|].
  destruct (get_trace _ _ _ _ _ R1) as (A1 & B1 & T1).
  set (s1 := sys (get (lit "index") None None None s0)) in *.
  destruct (raised (post (lit "user/register") (DDict script_register) None None
                         None (lit "auto") utf_8 s1)) eqn:R2;
    [split; [discriminate | discriminate]|].
  destruct (post_trace _ _ _ _ _ _ _ _ R2) as (A2 & B2 & T2).
  set (s2 := sys (post (lit "user/register") (DDict script_register) None None
                       None (lit "auto") utf_8 s1)) in *.
  destruct (raised (get (lit "user/logout") None None None s2)) eqn:R3;
    [split; [discriminate | discriminate]|].
  destruct (get_trace _ _ _ _ _ R3) as (A3 & B3 & T3).
  set (s3 := sys (get (lit "user/logout") None None None s2)) in *.
  destruct (raised (post (lit "user/login") (DDict script_login) None None
                         None (lit "auto") utf_8 s3)) eqn:R4;
    [split; [discriminate | discriminate]|].
  destruct (post_trace _ _ _ _ _ _ _ _ R4) as (A4 & B4 & T4).
  set (s4 := sys (post (lit "user/login") (DDict script_login) None None
                       None (lit "auto") utf_8 s3)) in *.
  destruct (raised (get (lit "user/profile") None None None s4)) eqn:R5;
    [split; [discriminate | discriminate]|].
  destruct (get_trace _ _ _ _ _ R5) as (A5 & B5 & T5).
  destruct (get_text _ _ _ _ _ R5) as (t & Ht).
  set (s5 := sys (get (lit "user/profile") None None None s4)) in *.
  rewrite Ht.
  destruct (contains (lit "Welcome Homer") t) eqn:Hc; cbn [fst snd];
    (split; [discriminate|]); [|discriminate].
  intros _. split; [|now exists t].
  rewrite T5, A4, A3, A2, A1, T4, B3, B2, B1, A3, A2, A1, T3, A2, A1, T2, B1,
    A1, T1.
  subst s0. cbn [self app postbacks init]. vm_compute. reflexivity.
Qed.

End Script.

(* ------------------------------------------------------------------ *)
(** ** From one call to the next *)

Section Flows.
Context {lib : Library}.
Implicit Types (s : Sys) (c : WebClient) (r : Response) (dt : Elapsed).

(** What a completed [get] leaves of the page. *)
Lemma get_forms url_ cookies_ headers_ auth s (t : str) :
  raised (get url_ cookies_ headers_ auth s) = None ->
  text (self (sys (get url_ cookies_ headers_ auth s))) = Some (Text t) ->
  forms (self (sys (get url_ cookies_ headers_ auth s))) = scrape_forms t.
Proof.
  rewrite get_is_post. intros Hr.
  destruct (post_completed _ _ _ _ _ _ _ _ Hr)
    as (rq & w & dt & r & txt & Ha & Hd).
  rewrite (post_answered _ _ _ _ _ _ utf_8 _ _ _ _ _ Ha). cbv zeta.
  cbn [sys]. rewrite (receive_ok _ _ _ _ _ _ _ Hd).
  cbn [fst self text forms]. intros [= ->]. reflexivity.
Qed.

(** The flow the client is made for: a page is fetched whose first form has
    the key [key] and the name [name]; a mapping that names this form and
    has no [_formkey] is then posted to the same URL. No postback is made,
    and the body sent carries [_formkey=] followed by the key, quoted. *)
Theorem form_round_trip url_ cookies_ headers_ auth s (pre rest key name : str)
  (d : dict field) cookies2 headers2 auth2 (method2 : str) rq :
  let o := get url_ cookies_ headers_ auth s in
  raised o = None ->
  text (self (sys o)) = Some (Text (pre ++ hidden_inputs (Some key) name ++ rest)) ->
  contains input_open pre = false ->
  (forall k, ~ In (k, name) (finditer rest)) ->
  key <> [] -> Forall (fun ch => plain ch = true) key ->
  name <> [] -> Forall (fun ch => plain ch = true) name ->
  dict_get formname d = Some (FStr name) -> dict_mem formkey d = false ->
  sends url_ (DDict d) cookies2 headers2 auth2 method2 (sys o) rq ->
  needs_postback (DDict d) (self (sys o)) (app (self (sys o)) ++ url_) = false
  /\ dict_get name (forms (self (sys o))) = Some (Some key)
  /\ exists ps qk,
       rq_data rq = encode_utf8 (join [ampersand] ps)
       /\ quote_plus key = Some qk
       /\ In (lit "_formkey=" ++ qk) ps.
Proof.
  cbv zeta. intros Hr Ht Hpre Hno Hk1 Hk2 Hn1 Hn2 Hdn Hdk Hs.
  assert (Hnp : needs_postback (DDict d)
                  (self (sys (get url_ cookies_ headers_ auth s)))
                  (app (self (sys (get url_ cookies_ headers_ auth s))) ++ url_)
                = false).
  { revert Hr. rewrite get_is_post. intros Hr.
    destruct (post_own_entry _ _ _ _ _ _ _ _ Hr) as (m & st & dt & H & _).
    cbv zeta in H.
    destruct (post_config url_ DNone cookies_ headers_ None (lit "GET") utf_8 s)
      as (-> & _).
    unfold needs_postback. rewrite H, rev_unit, str_eqb_refl.
    cbn [negb]. now rewrite andb_false_r. }
  assert (Hf : dict_get name (forms (self (sys (get url_ cookies_ headers_ auth s))))
               = Some (Some key)).
  { rewrite (get_forms _ _ _ _ _ _ Hr Ht).
    apply scrape_first_form; try assumption.
    intros k [= <-]. now split. }
  split; [exact Hnp|]. split; [exact Hf|].
  destruct Hs as (_ & Hrq).
  rewrite (primed_no_postback _ _ _ _ _ _ Hnp) in Hrq.
  cbn [sys caller_headers] in Hrq.
  destruct (prepare_mapping _ _ _ _ _ _ _ _ Hrq) as (ps & _ & Hu & Hb).
  cbn [self on_self] in Hu.
  change (forms (set_url (Some (app (self (sys (get url_ cookies_ headers_ auth s)))
                                ++ url_))
                   (self (sys (get url_ cookies_ headers_ auth s)))))
    with (forms (self (sys (get url_ cookies_ headers_ auth s)))) in Hu.
  rewrite (inject_form_known _ name (Some key) d Hdn Hdk Hf) in Hu.
  cbn [fst] in Hu.
  destruct (urlencode_params_In _ ps formkey key (FStr key) Hu)
    as (qk' & qk & Hqk' & Hqk & Hin).
  - apply dict_get_In, dict_get_set_same.
  - reflexivity.
  - injection Hqk' as <-. exists ps, qk. repeat split; assumption.
Qed.

(** The cookies of one call are the [Cookie] entries of the next: when a
    call raises nothing, a call made after it without [cookies] (and
    without a postback) sends the default-merged headers followed by one
    [Cookie] entry per cookie of the answer just received, and by none when
    that answer had no [Set-Cookie]. *)
Theorem cookies_are_recycled url_ data cookies_ headers_ auth method_ charset s
  (url2 : str) (data2 : Data) headers2 auth2 (method2 : str) rq :
  let o := post url_ data cookies_ headers_ auth method_ charset s in
  let merged := headers_list_of
                  (merge_defaults (default_headers (self s))
                                  (match headers2 with
                                   | Some h => h
                                   | None => []
                                   end)) in
  raised o = None ->
  needs_postback data2 (self (sys o)) (app (self (sys o)) ++ url2) = false ->
  sends url2 data2 None headers2 auth2 method2 (sys o) rq ->
  exists r,
    response (self (sys o)) = Some r
    /\ cookies (self (sys o))
       = parse_headers_in_cookies (normalise_headers (resp_headers r))
    /\ rq_headers rq
       = merged ++ List.map (fun kv => (lit "Cookie", fst kv ++ [equals] ++ snd kv))
                            (cookies (self (sys o)))
    /\ (first_ci (lit "set-cookie") (resp_headers r) = None ->
        rq_headers rq = merged).
Proof.
  cbv zeta. intros Hr Hnp (_ & Hrq).
  rewrite (primed_no_postback _ _ _ _ _ _ Hnp) in Hrq.
  cbn [sys caller_headers self on_self] in Hrq.
  assert (Hh : rq_headers rq
               = headers_list_of
                   (merge_defaults
                      (default_headers
                         (self (sys (post url_ data cookies_ headers_ auth
                                          method_ charset s))))
                      (match headers2 with Some h => h | None => [] end))
                 ++ cookie_headers
                      (cookies (self (sys (post url_ data cookies_ headers_ auth
                                                method_ charset s))))).
  { unfold prepare in Hrq.
    destruct (encode_data data2 method2 _) as [[m d'] [ex|body_]]; cbn in Hrq;
      [discriminate|].
    destruct (match body_ with
              | Some b => option_map Some (encode_utf8 b)
              | None => Some None
              end); [|discriminate].
    injection Hrq as <-. reflexivity. }
  destruct (post_config url_ data cookies_ headers_ auth method_ charset s)
    as (_ & _ & Hdh & _).
  rewrite Hdh in Hh. clear Hrq.
  destruct (post_completed _ _ _ _ _ _ _ _ Hr)
    as (rq0 & w & dt & r & txt & Ha & Hd).
  assert (Hresp : response (self (sys (post url_ data cookies_ headers_ auth
                                            method_ charset s))) = Some r
                  /\ cookies (self (sys (post url_ data cookies_ headers_ auth
                                              method_ charset s)))
                     = parse_headers_in_cookies
                         (normalise_headers (resp_headers r))).
  { rewrite (post_answered _ _ _ _ _ _ charset _ _ _ _ _ Ha). cbv zeta.
    cbn [sys]. rewrite (receive_ok _ _ _ _ _ _ _ Hd). split; reflexivity. }
  destruct Hresp as (Hresp & Hck).
  exists r. split; [exact Hresp|]. split; [exact Hck|].
  split; [exact Hh|].
  intros Hno. rewrite Hh, Hck.
  assert (Hnil : parse_headers_in_cookies (normalise_headers (resp_headers r))
                 = []).
  { apply parse_headers_in_cookies_nil.
    rewrite <- Hno.
    apply (normalise_headers_get (resp_headers r) (lit "set-cookie")). }
  rewrite Hnil. cbn. apply app_nil_r.
Qed.

End Flows.

(* ------------------------------------------------------------------ *)
(** ** Further examples *)

(** Reloading the page just fetched needs no postback. *)
Lemma repeat_is_not_primed_witness :
  raised (@get (served welcome) (lit "page") None None None
               (start welcome base)) = None
  /\ needs_postback (DDict register_data) (self after_index)
                    (base ++ lit "page") = false.
Proof.
  assert (Hr : raised (@post (served welcome) (lit "page") DNone None None None
                             (lit "GET") utf_8 (start welcome base)) = None)
    by run.
  split; [run|].
  exact (repeat_is_not_primed (lit "page") DNone None None None (lit "GET")
           utf_8 (start welcome base) (DDict register_data) Hr).
Defined.

(** A mapping posted under [auto] is recorded as a POST. *)
Lemma method_is_recorded_witness :
  raised (@primed (served welcome) (lit "submit") (DDict register_data) None
                  None None after_index) = None
  /\ method (self (sys submit_register)) = Some (lit "POST").
Proof.
  assert (Hp : raised (@primed (served welcome) (lit "submit")
                         (DDict register_data) None None None after_index)
               = None) by run.
  split; [exact Hp|].
  exact (method_is_recorded (lit "submit") (DDict register_data) None None
           None (lit "auto") utf_8 after_index Hp).
Defined.

(** A ticket whose body is not UTF-8, on a fresh client; and the page of
    [welcome], which declares [utf-8], asked for under [auto]. *)
Lemma decode_failure_leaves_tables_witness :
  @answered (served garbled) (lit "page") DNone None None None (lit "GET")
            (start garbled base) page_request 1%nat 0%nat
            (garbled 0%nat page_request)
  /\ raised (@post (served garbled) (lit "page") DNone None None None
                   (lit "GET") utf_8 (start garbled base))
     = Some (DecodeError (Some (lit "utf-8")))
  /\ history (self (sys (@post (served garbled) (lit "page") DNone None None
                               None (lit "GET") utf_8 (start garbled base))))
     = []
  /\ raised (@post (served welcome) (lit "page") DNone None None None
                   (lit "GET") (Some (lit "auto")) (start welcome base))
     = Some AttributeError.
Proof.
  assert (Ha : @answered (served garbled) (lit "page") DNone None None None
                 (lit "GET") (start garbled base) page_request 1%nat 0%nat
                 (garbled 0%nat page_request)).
  { repeat split; run. }
  assert (Hb : @answered (served welcome) (lit "page") DNone None None None
                 (lit "GET") (start welcome base) page_request 1%nat 0%nat
                 (inl (ok_page "abc"))).
  { repeat split; run. }
  split; [exact Ha|].
  destruct (decode_failure_leaves_tables (lit "page") DNone None None None
              (lit "GET") (lit "utf-8") (start garbled base) page_request
              1%nat 0%nat _ (ticket [Byte.xff]) Ha
              (or_intror eq_refl) ltac:(run) ltac:(right; run))
    as (Hr & _ & _ & _ & _ & _ & _ & _ & _ & Hh & _).
  split; [exact Hr|]. split; [exact Hh|].
  exact (proj1 (decode_failure_leaves_tables (lit "page") DNone None None None
                  (lit "GET") (lit "auto") (start welcome base) page_request
                  1%nat 0%nat _ (ok_page "abc") Hb
                  (or_introl eq_refl) ltac:(run) (or_introl eq_refl))).
Defined.

(** A server that cannot be reached, on a fresh client. *)
Lemma transport_failure_passes_through_witness :
  @answered (served unreachable) (lit "page") DNone None None None (lit "GET")
            (start unreachable base) page_request 1%nat 0%nat
            (inr (URLError (lit "Connection refused")))
  /\ raised (@post (served unreachable) (lit "page") DNone None None None
                   (lit "GET") utf_8 (start unreachable base))
     = Some (URLError (lit "Connection refused")).
Proof.
  assert (Ha : @answered (served unreachable) (lit "page") DNone None None None
                 (lit "GET") (start unreachable base) page_request 1%nat 0%nat
                 (inr (URLError (lit "Connection refused")))).
  { repeat split; run. }
  split; [exact Ha|].
  exact (proj1 (transport_failure_passes_through (lit "page") DNone None None
                  None (lit "GET") utf_8 (start unreachable base) page_request
                  1%nat 0%nat (URLError (lit "Connection refused")) Ha
                  ltac:(discriminate))).
Defined.

(** A list of form names on a fresh client. *)
Lemma list_formname_is_rejected_witness :
  raised (@post (served welcome) (lit "submit")
                (DDict [(formname, FList [lit "a"; lit "b"])]) None None None
                (lit "auto") utf_8 (start welcome base))
  = Some TypeError.
Proof.
  exact (proj1 (@list_formname_is_rejected (served welcome) (lit "submit")
                  [(formname, FList [lit "a"; lit "b"])] [lit "a"; lit "b"]
                  None None None (lit "auto") utf_8 (start welcome base)
                  ltac:(run) ltac:(run) ltac:(run))).
Defined.

(** The first page of [welcome]: one cookie, from the one [Set-Cookie]. *)
Lemma completed_call_headers_and_cookies_witness :
  raised (@post (served welcome) (lit "page") DNone None None None (lit "GET")
                utf_8 (start welcome base)) = None
  /\ exists r,
       response (self (sys (@post (served welcome) (lit "page") DNone None None
                                  None (lit "GET") utf_8 (start welcome base))))
       = Some r
       /\ (cookies (self (sys (@post (served welcome) (lit "page") DNone None
                                     None None (lit "GET") utf_8
                                     (start welcome base)))) = []
           <-> first_ci (lit "set-cookie") (resp_headers r) = None).
Proof.
  assert (Hr : raised (@post (served welcome) (lit "page") DNone None None None
                             (lit "GET") utf_8 (start welcome base)) = None)
    by run.
  split; [exact Hr|].
  destruct (completed_call_headers_and_cookies (lit "page") DNone None None
              None (lit "GET") utf_8 (start welcome base) Hr)
    as (r & H1 & _ & _ & _ & H5).
  exists r. split; [exact H1 | exact H5].
Defined.

(** The body of [submit_register]. *)
Lemma request_body_witness :
  @sends (served welcome) (lit "submit") (DDict register_data) None None None
         (lit "auto") after_index register_request
  /\ exists b, rq_data register_request = Some (List.map byte_of b)
               /\ Forall (fun ch => form_safe ch = true) b.
Proof.
  assert (Hs : @sends (served welcome) (lit "submit") (DDict register_data)
                 None None None (lit "auto") after_index register_request).
  { split; run. }
  split; [exact Hs|].
  destruct (request_body _ _ _ _ _ _ _ _ Hs) as (b & _ & H2 & H3).
  exists b. split; [exact H2 | exact H3].
Defined.

(** A lone surrogate in a string body. *)
Lemma unencodable_body_is_not_sent_witness :
  raised (@post (served welcome) (lit "submit") (DStr [55296%N]) None None None
                (lit "auto") utf_8 (start welcome base))
  = Some UnicodeEncodeError.
Proof.
  exact (proj1 (@unencodable_body_is_not_sent (served welcome) (lit "submit")
                  (DStr [55296%N]) None None None (lit "auto") utf_8
                  (start welcome base) ltac:(run) ltac:(run))).
Defined.

(** The script against [homer_site]. *)
Lemma script_exchanges_witness :
  snd (@test_web2py_registration_and_login (served homer_site) 0%nat) = Checked
  /\ trace (self (fst (@test_web2py_registration_and_login (served homer_site)
                         0%nat)))
     = [(lit "GET", script_app ++ lit "index");
        (lit "GET", script_app ++ lit "user/register");
        (lit "POST", script_app ++ lit "user/register");
        (lit "GET", script_app ++ lit "user/logout");
        (lit "GET", script_app ++ lit "user/login");
        (lit "POST", script_app ++ lit "user/login");
        (lit "GET", script_app ++ lit "user/profile")].
Proof.
  assert (H : snd (@test_web2py_registration_and_login (served homer_site)
                     0%nat) = Checked) by run.
  split; [exact H|].
  exact (proj1 (proj2 (@script_exchanges (served homer_site) 0%nat) H)).
Defined.

(** The form of [register_page], posted back to the page. *)
Lemma form_round_trip_witness :
  @sends (served welcome) (lit "page") (DDict register_data) None None None
         (lit "auto") after_index
         {| rq_url := base ++ lit "page";
            rq_data := rq_data register_request;
            rq_headers := rq_headers register_request;
            rq_auth := None |}
  /\ exists ps, rq_data register_request = encode_utf8 (join [ampersand] ps)
                /\ In (lit "_formkey=K1") ps.
Proof.
  assert (Hs : @sends (served welcome) (lit "page") (DDict register_data) None
                 None None (lit "auto") after_index
                 {| rq_url := base ++ lit "page";
                    rq_data := rq_data register_request;
                    rq_headers := rq_headers register_request;
                    rq_auth := None |}).
  { split; run. }
  split; [exact Hs|].
  assert (Hp : forall s0 : string,
             Forall (fun ch => plain ch = true) (lit s0)
             \/ forallb plain (lit s0) = false).
  { intros s0. destruct (forallb plain (lit s0)) eqn:E; [left | now right].
    apply Forall_forall. intros x Hx.
    rewrite forallb_forall in E. now apply E. }
  assert (HK : Forall (fun ch => plain ch = true) (lit "K1"))
    by (destruct (Hp "K1"%string) as [H|H]; [exact H | discriminate H]).
  assert (HN : Forall (fun ch => plain ch = true) (lit "register"))
    by (destruct (Hp "register"%string) as [H|H]; [exact H | discriminate H]).
  destruct (@form_round_trip (served welcome) (lit "page") None None None
              (start welcome base) (lit "<html>") (lit "</html>") (lit "K1")
              (lit "register") register_data None None None (lit "auto") _
              ltac:(run) ltac:(run) ltac:(run)
              ltac:(intros k H; vm_compute in H; exact H)
              ltac:(discriminate) HK ltac:(discriminate) HN
              ltac:(run) ltac:(run) Hs)
    as (_ & _ & ps & qk & Hb & Hq & Hin).
  exists ps. split; [exact Hb|].
  assert (E : qk = lit "K1")
    by (vm_compute in Hq; injection Hq as <-; reflexivity).
  rewrite E in Hin. exact Hin.
Defined.

(** The cookie of the first page goes out with the second request. *)
Lemma cookies_are_recycled_witness :
  @sends (served welcome) (lit "submit") (DStr (lit "a=b")) None None None
         (lit "auto") after_index
         {| rq_url := base ++ lit "submit";
            rq_data := Some (List.map byte_of (lit "a=b"));
            rq_headers := rq_headers register_request;
            rq_auth := None |}
  /\ exists r,
       response (self (sys (@post (served welcome) (lit "page") DNone None None
                                  None (lit "GET") utf_8 (start welcome base))))
       = Some r
       /\ cookies (self (sys (@post (served welcome) (lit "page") DNone None
                                    None None (lit "GET") utf_8
                                    (start welcome base))))
          = parse_headers_in_cookies (normalise_headers (resp_headers r)).
Proof.
  assert (Hs : @sends (served welcome) (lit "submit") (DStr (lit "a=b")) None
                 None None (lit "auto")
                 (sys (@post (served welcome) (lit "page") DNone None None
                             None (lit "GET") utf_8 (start welcome base)))
                 {| rq_url := base ++ lit "submit";
                    rq_data := Some (List.map byte_of (lit "a=b"));
                    rq_headers := rq_headers register_request;
                    rq_auth := None |}).
  { split; run. }
  split; [split; run|].
  destruct (@cookies_are_recycled (served welcome) (lit "page") DNone None None
              None (lit "GET") utf_8 (start welcome base) (lit "submit")
              (DStr (lit "a=b")) None None (lit "auto") _
              ltac:(run) ltac:(run) Hs)
    as (r & Hr & Hc & _).
  exists r. split; [exact Hr | exact Hc].
Defined.

(** C4 as stated fails where the call is primed. [forms] holds [K1] for
    [register] when [post] is called; the priming GET of the call fetches
    the form under [K2], and the body carries [K2], not the token that was
    remembered; where the priming GET fetches a page without the form, the
    body carries no [_formkey] at all. *)
Lemma remembered_key_is_not_sent :
  dict_get (lit "register")
           (forms (self (sys (@get (served rekeying) (lit "page") None None
                                   None (start rekeying base)))))
  = Some (Some (lit "K1"))
  /\ dict_get formname register_data = Some (FStr (lit "register"))
  /\ dict_mem formkey register_data = false
  /\ @sends (served rekeying) (lit "submit") (DDict register_data) None None
            None (lit "auto")
            (sys (@get (served rekeying) (lit "page") None None None
                       (start rekeying base)))
            (submit_request "_formname=register&email=a%40b.com&_formkey=K2")
  /\ ~ In (lit "_formkey=K1")
          (split ampersand
                 (lit "_formname=register&email=a%40b.com&_formkey=K2"))
  /\ dict_get (lit "register")
              (forms (self (sys (@get (served forgetful) (lit "page") None None
                                      None (start forgetful base)))))
     = Some (Some (lit "K1"))
  /\ @sends (served forgetful) (lit "submit") (DDict register_data) None None
            None (lit "auto")
            (sys (@get (served forgetful) (lit "page") None None None
                       (start forgetful base)))
            (submit_request "_formname=register&email=a%40b.com")
  /\ ~ In (lit "_formkey=K1")
          (split ampersand (lit "_formname=register&email=a%40b.com")).
Proof.
  split; [run|]. split; [run|]. split; [run|]. split; [split; run|].
  split; [intros H; vm_compute in H; intuition discriminate|].
  split; [run|]. split; [split; run|].
  intros H; vm_compute in H; intuition discriminate.
Qed.

(** C5 at the first page of [welcome]: the text is the page, its one match
    is the form [register] with the key [K1], and [forms] is that entry. *)
Lemma forms_after_completed_call_witness :
  raised (@post (served welcome) (lit "page") DNone None None None
                (lit "GET") utf_8 (start welcome base)) = None
  /\ forms (self (sys (@post (served welcome) (lit "page") DNone None None
                             None (lit "GET") utf_8 (start welcome base))))
     = [(lit "register", Some (lit "K1"))]
  /\ exists t,
       text (self (sys (@post (served welcome) (lit "page") DNone None None
                              None (lit "GET") utf_8 (start welcome base))))
       = Some (Text t)
       /\ finditer t = [(Some (lit "K1"), lit "register")].
Proof.
  assert (Hr0 : raised (@post (served welcome) (lit "page") DNone None None
                              None (lit "GET") utf_8 (start welcome base))
                = None) by run.
  split; [exact Hr0|].
  destruct (@forms_after_completed_call (served welcome) (lit "page") DNone
              None None None (lit "GET") utf_8 (start welcome base) Hr0)
    as (r & Hr & H & _).
  change (opt_truthy utf_8) with true in H. cbv iota in H.
  destruct H as (cs & t & Hcs & Hdec & Ht & Hf & _).
  unfold utf_8 in Hcs. injection Hcs as <-.
  vm_compute in Hr. injection Hr as <-.
  vm_compute in Hdec. injection Hdec as <-.
  split.
  - rewrite Hf. vm_compute. reflexivity.
  - eexists. split; [exact Ht|]. vm_compute. reflexivity.
Defined.
